(** * EDX interactive plots: a shallow embedding of [internal_functions/edx.py]

    The three entry points of the module ([generate_spectra], [get_elements],
    [generate_heatmap]) are transcribed as executable functions over a small
    model of the Python run time:

    - a raised exception is a value of [exn], a computation is a [Result];
    - the two file readers ([ET.parse], [load_workbook]) read a finite map
      from paths to files and log every path they open;
    - Python [int]s are [Z]; Python [float]s are IEEE 754 binary64 values
      ([spec_float] of the standard library), every operation giving the
      float nearest to the exact result, ties to even;
    - the [np.int64] arithmetic of the diamond test wraps around;
    - an XML element is a rose tree, [Element.iter] its pre-order traversal;
    - a worksheet is the list of its rows, a row the list of its cells. *)

From Stdlib Require Import ZArith QArith Qround Qpower Qminmax String Ascii List
  Lia Lqa Bool.
From Stdlib Require Import Floats.SpecFloat.
From stdpp Require Import base list strings gmap pretty.

Import ListNotations.
Local Open Scope string_scope.
Local Open Scope list_scope.

(** ** Exceptions and results *)

Inductive exn : Type :=
  | TypeError
  | ValueError
  | IndexError
  | NameError
  | AttributeError
  | FileNotFoundError
  | ParseError
  | BadZipFile
  | OverflowError
  | ZeroDivisionError.

Inductive Result (A : Type) : Type :=
  | Ok (a : A)
  | Raise (e : exn).
Arguments Ok {A} a.
Arguments Raise {A} e.

#[global] Instance result_ret : MRet Result := fun _ a => Ok a.
#[global] Instance result_bind : MBind Result := fun _ _ k r =>
  match r with
  | Ok a => k a
  | Raise e => Raise e
  end.

#[global] Instance result_fmap : FMap Result := fun _ _ f r =>
  match r with
  | Ok a => Ok (f a)
  | Raise e => Raise e
  end.

Definition is_ok {A : Type} (r : Result A) : bool :=
  match r with Ok _ => true | Raise _ => false end.

(** ** Binary64 floats *)

Module F64.

Definition pow2 (k : Z) : Q := (2 # 1) ^ k.

(** [floor (log2 q)] for a positive [q]. *)
Definition ilog2 (q : Q) : Z :=
  let d := (Z.log2 (Qnum q) - Z.log2 (Zpos (Qden q)))%Z in
  if Qle_bool (pow2 d) q then d else (d - 1)%Z.

(** The integer nearest to [x], the even one of two at the same distance. *)
Definition rne (x : Q) : Z :=
  let f := Qfloor x in
  match (x - inject_Z f ?= 1 # 2)%Q with
  | Lt => f
  | Gt => (f + 1)%Z
  | Eq => if Z.even f then f else (f + 1)%Z
  end.

(** The exponent of the unit in the last place at a positive [q]: 53
    significant bits, and not below the subnormal exponent -1074. *)
Definition ulp_exp (q : Q) : Z := Z.max (ilog2 q - 52) (-1074).

(** The float of sign [s] worth [n] units of [2^k], [n] at most [2^53];
    beyond the largest exponent it is an infinity. *)
Definition make (s : bool) (n k : Z) : spec_float :=
  if (n =? 0)%Z then S754_zero s
  else if (n =? 2 ^ 53)%Z then
    if (k + 1 <=? 971)%Z then S754_finite s (Z.to_pos (2 ^ 52)) (k + 1)
    else S754_infinity s
  else if (k <=? 971)%Z then S754_finite s (Z.to_pos n) k
  else S754_infinity s.

(** Rounding to nearest, ties to even, of a positive [q]. *)
Definition round_pos (s : bool) (q : Q) : spec_float :=
  let k := ulp_exp q in make s (rne (q / pow2 k)%Q) k.

(** The binary64 nearest to [q]; an exact zero takes the sign [szero]. *)
Definition round (szero : bool) (q : Q) : spec_float :=
  match (q ?= 0)%Q with
  | Eq => S754_zero szero
  | Gt => round_pos false q
  | Lt => round_pos true (- q)%Q
  end.

(** The value of a finite float (0 for the others). *)
Definition val (f : spec_float) : Q :=
  match f with
  | S754_finite s m e =>
      (if s then - (inject_Z (Zpos m) * pow2 e) else inject_Z (Zpos m) * pow2 e)%Q
  | _ => 0%Q
  end.

Definition sign (f : spec_float) : bool :=
  match f with
  | S754_zero s | S754_infinity s | S754_finite s _ _ => s
  | S754_nan => false
  end.

Definition is_nan (f : spec_float) : bool :=
  match f with S754_nan => true | _ => false end.
Definition is_inf (f : spec_float) : bool :=
  match f with S754_infinity _ => true | _ => false end.
Definition is_zero (f : spec_float) : bool :=
  match f with S754_zero _ => true | _ => false end.
(** Neither an infinity nor a NaN. *)
Definition is_finite (f : spec_float) : bool :=
  match f with S754_zero _ | S754_finite _ _ _ => true | _ => false end.

Definition opp (x : spec_float) : spec_float :=
  match x with
  | S754_zero s => S754_zero (negb s)
  | S754_infinity s => S754_infinity (negb s)
  | S754_finite s m e => S754_finite (negb s) m e
  | S754_nan => S754_nan
  end.

(** [x + y]: the exact sum, rounded; an exact zero sum of two numbers that
    are not both zeros is [+0.0]. *)
Definition add (x y : spec_float) : spec_float :=
  match x, y with
  | S754_nan, _ | _, S754_nan => S754_nan
  | S754_infinity sx, S754_infinity sy =>
      if Bool.eqb sx sy then x else S754_nan
  | S754_infinity _, _ => x
  | _, S754_infinity _ => y
  | S754_zero sx, S754_zero sy => S754_zero (sx && sy)
  | _, _ => round false (val x + val y)%Q
  end.

Definition sub (x y : spec_float) : spec_float := add x (opp y).

(** [x * y]: the exact product, rounded. *)
Definition mul (x y : spec_float) : spec_float :=
  match x, y with
  | S754_nan, _ | _, S754_nan => S754_nan
  | S754_infinity _, S754_zero _ | S754_zero _, S754_infinity _ => S754_nan
  | S754_infinity sx, _ => S754_infinity (xorb sx (sign y))
  | _, S754_infinity sy => S754_infinity (xorb (sign x) sy)
  | _, _ => round (xorb (sign x) (sign y)) (val x * val y)%Q
  end.

(** [x / y]: the exact quotient, rounded. *)
Definition div (x y : spec_float) : spec_float :=
  match x, y with
  | S754_nan, _ | _, S754_nan => S754_nan
  | S754_infinity _, S754_infinity _ => S754_nan
  | S754_infinity sx, _ => S754_infinity (xorb sx (sign y))
  | _, S754_infinity sy => S754_zero (xorb (sign x) sy)
  | S754_zero _, S754_zero _ => S754_nan
  | _, S754_zero sy => S754_infinity (xorb (sign x) sy)
  | _, _ => round (xorb (sign x) (sign y)) (val x / val y)%Q
  end.

(** The float nearest to an integer. *)
Definition of_Z (n : Z) : spec_float := round false (inject_Z n).

(** The position of a float that is not a NaN on the extended real line,
    the infinities standing at [2^1024] and [-2^1024]. *)
Definition ext (f : spec_float) : Q :=
  match f with
  | S754_infinity s => if s then - pow2 1024 else pow2 1024
  | _ => val f
  end.

(** [x <= y]; a comparison with a NaN is false. *)
Definition leb (x y : spec_float) : bool :=
  negb (is_nan x) && negb (is_nan y) && Qle_bool (ext x) (ext y).

Definition le (x y : spec_float) : Prop := leb x y = true.

End F64.

(** ** Python built-ins used by the module *)

Module Py.

(** Characters removed by [str.strip()] and skipped by [int()], [float()]. *)
Definition is_space (c : ascii) : bool :=
  let n := nat_of_ascii c in
  Nat.eqb n 32 || (Nat.leb 9 n && Nat.leb n 13) || (Nat.leb 28 n && Nat.leb n 31).

Definition digit_val (c : ascii) : option Z :=
  let n := nat_of_ascii c in
  if Nat.leb 48 n && Nat.leb n 57 then Some (Z.of_nat (n - 48)) else None.

Definition is_underscore (c : ascii) : bool := Nat.eqb (nat_of_ascii c) 95.

Fixpoint lstrip (cs : list ascii) : list ascii :=
  match cs with
  | c :: cs' => if is_space c then lstrip cs' else cs
  | [] => []
  end.

Definition strip (cs : list ascii) : list ascii :=
  rev (lstrip (rev (lstrip cs))).

(** A digit run [d(_?d)*]: its value and its number of digits. *)
Fixpoint digits_acc (acc : Z) (n : nat) (after_us : bool) (cs : list ascii)
  : option (Z * nat) :=
  match cs with
  | [] => if after_us then None else Some (acc, n)
  | c :: cs' =>
      match digit_val c with
      | Some d => digits_acc (10 * acc + d)%Z (S n) false cs'
      | None =>
          if is_underscore c && negb after_us
          then digits_acc acc n true cs'
          else None
      end
  end.

Definition digits (cs : list ascii) : option (Z * nat) :=
  match cs with
  | [] => None
  | c :: _ => if is_underscore c then None else digits_acc 0 0 false cs
  end.

(** An optional sign in front of [cs]. *)
Definition sign (cs : list ascii) : Z * list ascii :=
  match cs with
  | "-"%char :: cs' => ((-1)%Z, cs')
  | "+"%char :: cs' => (1%Z, cs')
  | _ => (1%Z, cs)
  end.

(** [int(s)] for a string [s], base ten. *)
Definition int (s : string) : Result Z :=
  let '(sg, body) := sign (strip (list_ascii_of_string s)) in
  match digits body with
  | Some (v, _) => Ok (sg * v)%Z
  | None => Raise ValueError
  end.

(** [int(None)]: the text of an element may be absent. *)
Definition int_opt (t : option string) : Result Z :=
  match t with
  | Some s => int s
  | None => Raise TypeError
  end.

(** Truncation toward zero of an exact value. *)
Definition trunc (q : Q) : Z := Z.quot (Qnum q) (Zpos (Qden q)).

(** [int(f)] for a float [f]: truncation toward zero. *)
Definition int_of_float (f : spec_float) : Result Z :=
  match f with
  | S754_nan => Raise ValueError
  | S754_infinity _ => Raise OverflowError
  | _ => Ok (trunc (F64.val f))
  end.

(** [float(n)] for an int [n]. *)
Definition float_of_int (n : Z) : Result spec_float :=
  let f := F64.of_Z n in
  if F64.is_inf f then Raise OverflowError else Ok f.

(** [a / b] for two ints: the float nearest to the quotient. *)
Definition truediv_int (a b : Z) : Result spec_float :=
  if (b =? 0)%Z then Raise ZeroDivisionError
  else
    let f := F64.round (b <? 0)%Z (inject_Z a / inject_Z b)%Q in
    if F64.is_inf f then Raise OverflowError else Ok f.

(** [x / y] for two floats. *)
Definition truediv (x y : spec_float) : Result spec_float :=
  if F64.is_zero y then Raise ZeroDivisionError else Ok (F64.div x y).

(** Cut [cs] at the first character satisfying [p]. *)
Fixpoint break_at (p : ascii -> bool) (cs : list ascii)
  : list ascii * option (list ascii) :=
  match cs with
  | [] => ([], None)
  | c :: cs' =>
      if p c then ([], Some cs')
      else let '(l, r) := break_at p cs' in (c :: l, r)
  end.

Definition is_exp (c : ascii) : bool :=
  let n := nat_of_ascii c in Nat.eqb n 101 || Nat.eqb n 69.
Definition is_dot (c : ascii) : bool := Nat.eqb (nat_of_ascii c) 46.

Definition digits_or_empty (cs : list ascii) : option (Z * nat) :=
  match cs with
  | [] => Some (0%Z, 0)
  | _ => digits cs
  end.

(** Mantissa [int.frac], [int.], [.frac] or [int]: numerator and number of
    fractional digits. *)
Definition mantissa (cs : list ascii) : option (Z * nat) :=
  match break_at is_dot cs with
  | (ip, None) => match digits ip with Some (v, _) => Some (v, 0) | None => None end
  | (ip, Some fp) =>
      match ip, fp with
      | [], [] => None
      | _, _ =>
          match digits_or_empty ip, digits_or_empty fp with
          | Some (vi, _), Some (vf, nf) => Some ((vi * 10 ^ Z.of_nat nf + vf)%Z, nf)
          | _, _ => None
          end
      end
  end.

Definition exponent (cs : option (list ascii)) : option Z :=
  match cs with
  | None => Some 0%Z
  | Some es =>
      let '(sg, body) := sign es in
      match digits body with
      | Some (v, _) => Some (sg * v)%Z
      | None => None
      end
  end.

(** The rational [m / 10^nf * 10^e]. *)
Definition scale (m : Z) (nf : nat) (e : Z) : Q :=
  let e' := (e - Z.of_nat nf)%Z in
  if (0 <=? e')%Z then inject_Z (m * 10 ^ e')
  else Qmake m (Z.to_pos (10 ^ (- e'))).

(** The exact value of an unsigned decimal literal. *)
Definition decimal (body : list ascii) : option Q :=
  let '(ms, es) := break_at is_exp body in
  match mantissa ms, exponent es with
  | Some (m, nf), Some e => Some (scale m nf e)
  | _, _ => None
  end.

Definition lower (c : ascii) : ascii :=
  let n := nat_of_ascii c in
  if Nat.leb 65 n && Nat.leb n 90 then ascii_of_nat (n + 32) else c.

(** [float(s)] for a string [s]: an optional sign, then [inf], [infinity]
    or [nan] in any case, or a decimal literal, whose value is rounded. *)
Definition float (s : string) : Result spec_float :=
  let '(sg, body) := sign (strip (list_ascii_of_string s)) in
  let neg := (sg <? 0)%Z in
  let word := string_of_list_ascii (map lower body) in
  if String.eqb word "inf" || String.eqb word "infinity"
  then Ok (S754_infinity neg)
  else if String.eqb word "nan" then Ok S754_nan
  else
    match decimal body with
    | Some q => Ok (F64.round neg (if neg then - q else q)%Q)
    | None => Raise ValueError
    end.

Definition float_opt (t : option string) : Result spec_float :=
  match t with
  | Some s => float s
  | None => Raise TypeError
  end.

(** [s.split(sep)] for a one-character separator: never the empty list. *)
Fixpoint split_chars (sep : ascii) (cur : list ascii) (cs : list ascii)
  : list string :=
  match cs with
  | [] => [string_of_list_ascii (rev cur)]
  | c :: cs' =>
      if Ascii.eqb c sep
      then string_of_list_ascii (rev cur) :: split_chars sep [] cs'
      else split_chars sep (c :: cur) cs'
  end.

Definition split (sep : ascii) (s : string) : list string :=
  split_chars sep [] (list_ascii_of_string s).

Definition startswith (s p : string) : bool := String.prefix p s.

(** [l[-k]] for [k >= 1]. *)
Definition neg_index {A : Type} (l : list A) (k : nat) : Result A :=
  if Nat.ltb (length l) k then Raise IndexError
  else match l !! (length l - k) with
       | Some a => Ok a
       | None => Raise IndexError
       end.

(** [l[i]] for [i >= 0]. *)
Definition index {A : Type} (l : list A) (i : nat) : Result A :=
  match l !! i with
  | Some a => Ok a
  | None => Raise IndexError
  end.

End Py.

(** ** NumPy scalars of the diamond test *)

Module Np.

(** What NumPy makes of a Python int: an [int64] when it fits, a [uint64]
    when that fits, and the Python object beyond; [int64] plus [uint64]
    gives a [float64]. *)
Inductive scalar : Type :=
  | Int64 (v : Z)
  | UInt64 (v : Z)
  | Float64 (f : spec_float)
  | Object (v : Z).

(** The value in [-2^63, 2^63) congruent to [z] modulo [2^64]. *)
Definition wrap (z : Z) : Z := ((z + 2 ^ 63) mod 2 ^ 64 - 2 ^ 63)%Z.

Definition of_int (z : Z) : scalar :=
  if (- 2 ^ 63 <=? z)%Z && (z <? 2 ^ 63)%Z then Int64 z
  else if (0 <=? z)%Z && (z <? 2 ^ 64)%Z then UInt64 z
  else Object z.

(** [np.abs(z)] for a Python int [z]. *)
Definition abs (z : Z) : scalar :=
  match of_int z with
  | Int64 v => Int64 (wrap (Z.abs v))
  | UInt64 v => UInt64 v
  | Object v => Object (Z.abs v)
  | Float64 f => Float64 f
  end.

Definition to_float (a : scalar) : spec_float :=
  match a with
  | Int64 v | UInt64 v | Object v => F64.of_Z v
  | Float64 f => f
  end.

(** [a + b]: fixed-width integers wrap around, objects are added as
    Python ints. *)
Definition add (a b : scalar) : scalar :=
  match a, b with
  | Int64 x, Int64 y => Int64 (wrap (x + y))
  | UInt64 x, UInt64 y => UInt64 ((x + y) mod 2 ^ 64)
  | Object x, (Int64 y | UInt64 y | Object y) => Object (x + y)
  | (Int64 x | UInt64 x), Object y => Object (x + y)
  | _, _ => Float64 (F64.add (to_float a) (to_float b))
  end.

(** [a <= n] for a Python int [n]. *)
Definition le_int (a : scalar) (n : Z) : bool :=
  match a with
  | Int64 v | UInt64 v | Object v => (v <=? n)%Z
  | Float64 f => F64.leb f (F64.of_Z n)
  end.

End Np.

(** ** Files, and computations that open them *)

(** An element of an [xml.etree.ElementTree] document. *)
#[warnings="-register-all"] Inductive Element : Type :=
  | Elem (tag : string) (attrib : gmap string string) (text : option string)
         (children : list Element).

Definition tag (e : Element) : string :=
  match e with Elem t _ _ _ => t end.
Definition attrib (e : Element) : gmap string string :=
  match e with Elem _ a _ _ => a end.
Definition text (e : Element) : option string :=
  match e with Elem _ _ t _ => t end.
Definition children (e : Element) : list Element :=
  match e with Elem _ _ _ cs => cs end.

(** [elm.get(key)]. *)
Definition get (e : Element) (key : string) : option string := attrib e !! key.

(** [elm.iter()]: the element itself, then its descendants in document order. *)
Fixpoint iter (e : Element) : list Element :=
  match e with
  | Elem _ _ _ cs => e :: flat_map iter cs
  end.

(** A worksheet cell as [openpyxl] hands it over. *)
Inductive Cell : Type :=
  | CNone
  | CStr (s : string)
  | CInt (n : Z)
  | CFloat (f : spec_float).

Abbreviation Row := (list Cell) (only parsing).

Inductive File : Type :=
  | SpxFile (root : Element)
  | XlsxFile (values : list Row)
  | OtherFile.

(** A computation that may open files: the paths it opened, in order, and
    how it ended. *)
Record Run (A : Type) : Type := MkRun {
  opened : list string;
  outcome : Result A
}.
Arguments MkRun {A} opened outcome.
Arguments opened {A} r.
Arguments outcome {A} r.

#[global] Instance run_ret : MRet Run := fun _ a => MkRun [] (Ok a).
#[global] Instance run_bind : MBind Run := fun _ _ k r =>
  match outcome r with
  | Ok a => let r' := k a in MkRun (opened r ++ opened r') (outcome r')
  | Raise e => MkRun (opened r) (Raise e)
  end.

(** A computation that opens no file. *)
Definition pure {A : Type} (r : Result A) : Run A := MkRun [] r.

Section Readers.

(** The files under the working directory, by path. *)
Variable fs : gmap string File.

(** [ET.parse(filepath).getroot()]. *)
Definition ET_parse (filepath : string) : Run Element :=
  MkRun [filepath]
    match fs !! filepath with
    | Some (SpxFile root) => Ok root
    | Some _ => Raise ParseError
    | None => Raise FileNotFoundError
    end.

(** [load_workbook(filename=filepath).active.values], as a list of rows. *)
Definition load_workbook (filepath : string) : Run (list Row) :=
  MkRun [filepath]
    match fs !! filepath with
    | Some (XlsxFile values) => Ok values
    | Some _ => Raise BadZipFile
    | None => Raise FileNotFoundError
    end.

End Readers.

(** ** Plot descriptions *)

(** A position handed to [generate_spectra]. *)
Inductive Position : Type :=
  | PosNone
  | PosInt (z : Z)
  | PosFloat (f : spec_float).

(** An entry of the second column of [edx_spectra]: a [float64], or the
    Python int itself when the array is an array of objects. *)
Inductive Number : Type :=
  | NFloat (f : spec_float)
  | NInt (n : Z).

Inductive Trace : Type :=
  | Scatter (x : option (list spec_float)) (y : option (list Number))
            (marker_color : option string)
  | Heatmap (x y : option (list Z)) (z : option (list spec_float))
            (colorscale : option string).

(** The two title templates with the values interpolated into them. *)
Inductive Title : Type :=
  | SpectrumTitle (foldername : string) (x_pos y_pos : Position)
  | HeatmapTitle (element_edx : string).

Record Figure : Type := MkFigure {
  data : list Trace;
  title : option Title;
  height : option Z;
  width : option Z
}.

(** ** Coordinate indexer *)

Definition start_x : Z := (-40)%Z.
Definition start_y : Z := (-40)%Z.
Definition step : Z := 5%Z.
Definition step_x : Z := 5%Z.
Definition step_y : Z := 5%Z.

(** [int((pos - start) / step + 1)], line 39 of [generate_spectra], on the
    exact value of a position. *)
Definition to_index_axis (start : Z) (pos : Q) : Z :=
  Py.trunc ((pos - inject_Z start) / inject_Z step + 1)%Q.

Definition to_index (x_pos y_pos : Q) : Z * Z :=
  (to_index_axis start_x x_pos, to_index_axis start_y y_pos).

(** The same expression as Python evaluates it: on [None] the subtraction
    is a TypeError; an int position gives an int difference and a true
    division; a float position is subtracted, divided and incremented in
    floats; [int] refuses [nan] and the infinities. *)
Definition position_index (start : Z) (pos : Position) : Result Z :=
  match pos with
  | PosNone => Raise TypeError
  | PosInt z =>
      q ← Py.truediv_int (z - start) step;
      Py.int_of_float (F64.add q (F64.of_Z 1))
  | PosFloat f =>
      q ← Py.truediv (F64.sub f (F64.of_Z start)) (F64.of_Z step);
      Py.int_of_float (F64.add q (F64.of_Z 1))
  end.

(** The tuple of line 39: the x index is computed first. *)
Definition position_indices (x_pos y_pos : Position) : Result (Z * Z) :=
  x_idx ← position_index start_x x_pos;
  y_idx ← position_index start_y y_pos;
  Ok (x_idx, y_idx).

(** [(int(idx) - 1) * step + start], lines 206-208 of [generate_heatmap]. *)
Definition to_position_axis (start stp : Z) (idx : Z) : Z :=
  ((idx - 1) * stp + start)%Z.

Definition to_position (ij : Z * Z) : Z * Z :=
  (to_position_axis start_x step_x (fst ij),
   to_position_axis start_y step_y (snd ij)).


(** ** Spectrum reader and renderer: [generate_spectra] *)

(** Dummy figure sent back when no folder is selected (lines 34-35). *)
Definition empty_fig_spectra : Figure :=
  MkFigure [Scatter None None None] None (Some 700%Z) (Some 1300%Z).

(** Metadata kept for the quantification results (lines 48-56). *)
Definition params : list string :=
  ["Atom"; "XLine"; "AtomPercent"; "MassPercent"; "NetIntens"; "Background";
   "Sigma"].

Definition in_params (t : string) : bool := existsb (String.eqb t) params.

(** One quantification record: the kept attributes, in document order. *)
Abbreviation ResultRecord := (list (string * option string)) (only parsing).

(** [results_ext[-1].append(entry)]. *)
Definition append_to_last (results_ext : list ResultRecord)
    (entry : string * option string) : Result (list ResultRecord) :=
  match last results_ext with
  | Some record =>
      Ok (<[length results_ext - 1 := record ++ [entry]]> results_ext)
  | None => Raise IndexError
  end.

(** The value stored for a kept attribute (lines 87-90): an [Atom] whose
    number is below 10 gets a ["0"] in front of its text. *)
Definition stored_entry (child : Element) : Result (string * option string) :=
  if String.eqb (tag child) "Atom" then
    n ← Py.int_opt (text child);
    if (n <? 10)%Z
    then Ok (tag child, Some ("0" +:+ default "" (text child)))
    else Ok (tag child, text child)
  else Ok (tag child, text child).

(** The walk over a [Results] block (lines 83-92); [break] ends it. *)
Fixpoint results_walk (nodes : list Element) (results_ext : list ResultRecord)
  : Result (list ResultRecord) :=
  match nodes with
  | [] => Ok results_ext
  | child :: rest =>
      if String.eqb (tag child) "Result" then
        results_walk rest (results_ext ++ [[]])
      else if in_params (tag child) then
        entry ← stored_entry child;
        results_ext' ← append_to_last results_ext entry;
        results_walk rest results_ext'
      else if String.eqb (tag child) "ExtResults" then
        Ok results_ext
      else results_walk rest results_ext
  end.

(** The local variables of [generate_spectra] that the document walk
    updates. [None] stands for a name that is not bound yet. *)
Record Locals : Type := MkLocals {
  voltage : Z;
  working_distance : option spec_float;
  energy_step : spec_float;
  zero_energy : spec_float;
  edx_spectra : option (list (spec_float * Number));
  results_ext : list ResultRecord;
  element_list : list (Z * option string);
  name_elm : option (option string);
  nb_elm : option (option string)
}.

(** Lines 57-61. *)
Definition initial_locals : Locals :=
  MkLocals 0%Z None (S754_zero false) (S754_zero false) None [] [] None None.

(** The list comprehension of lines 77-80 over [enumerate(fields)],
    starting at index [i]; in [(i + 1) * energy_step] the int [i + 1] is
    converted to a float, far below the range where that conversion
    overflows. *)
Fixpoint channels_from (i : nat) (energy_step zero_energy : spec_float)
    (fields : list string) : Result (list (spec_float * Z)) :=
  match fields with
  | [] => Ok []
  | counts :: rest =>
      c ← Py.int counts;
      tl ← channels_from (S i) energy_step zero_energy rest;
      Ok ((F64.add (F64.mul (F64.of_Z (Z.of_nat i + 1)) energy_step)
             zero_energy, c) :: tl)
  end.

(** A Python int that NumPy holds in a fixed-width integer ([int64] or
    [uint64]). *)
Definition fixed_width (c : Z) : bool :=
  (- 2 ^ 63 <=? c)%Z && (c <? 2 ^ 64)%Z.

(** [np.array] on the list of pairs (line 76): next to the float energies
    the counts become [float64] too, unless one of them exceeds the
    fixed-width integers, which leaves an array of objects. *)
Definition np_array (pairs : list (spec_float * Z))
  : list (spec_float * Number) :=
  if forallb (fun p => fixed_width (snd p)) pairs
  then map (fun p => (fst p, NFloat (F64.of_Z (snd p)))) pairs
  else map (fun p => (fst p, NInt (snd p))) pairs.

(** Lines 76-81; [elm.text.split] on an absent text is an AttributeError. *)
Definition read_channels (energy_step zero_energy : spec_float)
    (txt : option string) : Result (list (spec_float * Number)) :=
  match txt with
  | None => Raise AttributeError
  | Some t =>
      pairs ← channels_from 0 energy_step zero_energy (Py.split "," t);
      Ok (np_array pairs)
  end.

(** The inner loop of lines 97-99: the text of the last [Element] tag. *)
Definition last_element_text (nodes : list Element)
    (nb_elm : option (option string)) : option (option string) :=
  fold_left
    (fun acc nb => if String.eqb (tag nb) "Element" then Some (text nb) else acc)
    nodes nb_elm.

(** The walk over an [Elements] block (lines 94-100). *)
Fixpoint elements_walk (nodes : list Element) (st : Locals) : Result Locals :=
  match nodes with
  | [] => Ok st
  | child :: rest =>
      if bool_decide (get child "Type" = Some "TRTPSEElement") then
        let name := get child "Name" in
        let nb := last_element_text (iter child) (nb_elm st) in
        match nb with
        | None => Raise NameError
        | Some t =>
            n ← Py.int_opt t;
            elements_walk rest
              (MkLocals (voltage st) (working_distance st) (energy_step st)
                 (zero_energy st) (edx_spectra st) (results_ext st)
                 (element_list st ++ [(n, name)]) (Some name) nb)
        end
      else elements_walk rest st
  end.

(** The body of the document loop (lines 67-100) for one element. *)
Definition document_step (st : Locals) (elm : Element) : Result Locals :=
  if String.eqb (tag elm) "PrimaryEnergy" then
    v ← Py.float_opt (text elm);
    n ← Py.int_of_float v;
    Ok (MkLocals n (working_distance st) (energy_step st)
          (zero_energy st) (edx_spectra st) (results_ext st) (element_list st)
          (name_elm st) (nb_elm st))
  else if String.eqb (tag elm) "WorkingDistance" then
    v ← Py.float_opt (text elm);
    Ok (MkLocals (voltage st) (Some v) (energy_step st)
          (zero_energy st) (edx_spectra st) (results_ext st) (element_list st)
          (name_elm st) (nb_elm st))
  else if String.eqb (tag elm) "CalibLin" then
    v ← Py.float_opt (text elm);
    Ok (MkLocals (voltage st) (working_distance st) v
          (zero_energy st) (edx_spectra st) (results_ext st) (element_list st)
          (name_elm st) (nb_elm st))
  else if String.eqb (tag elm) "CalibAbs" then
    v ← Py.float_opt (text elm);
    Ok (MkLocals (voltage st) (working_distance st) (energy_step st)
          v (edx_spectra st) (results_ext st) (element_list st)
          (name_elm st) (nb_elm st))
  else if String.eqb (tag elm) "Channels" then
    sp ← read_channels (energy_step st) (zero_energy st) (text elm);
    Ok (MkLocals (voltage st) (working_distance st) (energy_step st)
          (zero_energy st) (Some sp) (results_ext st) (element_list st)
          (name_elm st) (nb_elm st))
  else if String.eqb (tag elm) "ClassInstance"
          && bool_decide (get elm "Name" = Some "Results") then
    r ← results_walk (iter elm) (results_ext st);
    Ok (MkLocals (voltage st) (working_distance st) (energy_step st)
          (zero_energy st) (edx_spectra st) r (element_list st)
          (name_elm st) (nb_elm st))
  else if String.eqb (tag elm) "ClassInstance"
          && bool_decide (get elm "Name" = Some "Elements") then
    elements_walk (iter elm) st
  else Ok st.

(** The loop [for elm in root.iter()] (line 66). *)
Fixpoint document_walk (nodes : list Element) (st : Locals) : Result Locals :=
  match nodes with
  | [] => Ok st
  | elm :: rest =>
      st' ← document_step st elm;
      document_walk rest st'
  end.

(** Lines 64-100 on a parsed document. *)
Definition read_document (root : Element) : Result Locals :=
  document_walk (iter root) initial_locals.

(** Line 45. *)
Definition spectrum_path (foldername : string) (x_idx y_idx : Z) : string :=
  "./data/EDX/" +:+ foldername +:+ "/Spectrum_(" +:+ pretty x_idx +:+ ","
    +:+ pretty y_idx +:+ ").spx".

(** Lines 103-114; reading [edx_spectra] before any [Channels] element has
    bound it is a NameError. *)
Definition spectrum_figure (foldername : string) (x_pos y_pos : Position)
    (st : Locals) : Result Figure :=
  match edx_spectra st with
  | None => Raise NameError
  | Some sp =>
      Ok (MkFigure [Scatter (Some (map fst sp)) (Some (map snd sp))
                      (Some "purple")]
            (Some (SpectrumTitle foldername x_pos y_pos)) None None)
  end.

Definition generate_spectra (fs : gmap string File)
    (foldername : option string) (x_pos y_pos : Position) : Run Figure :=
  '(x_idx, y_idx) ← pure (position_indices x_pos y_pos);
  match foldername with
  | None => mret empty_fig_spectra
  | Some folder =>
      root ← ET_parse fs (spectrum_path folder x_idx y_idx);
      pure (st ← read_document root; spectrum_figure folder x_pos y_pos st)
  end.

(** ** Quantification table reader: [get_elements] *)

(** What [get_elements] hands back: the bare list [elm_options], or the
    pair [(elm_options, LIST_DATA)]. *)
Inductive Elements : Type :=
  | Options (elm_options : list Cell)
  | OptionsAndData (elm_options : list Cell) (LIST_DATA : list Row).

(** [float(elm)] for a cell. *)
Definition cell_float (c : Cell) : Result spec_float :=
  match c with
  | CNone => Raise TypeError
  | CStr s => Py.float s
  | CInt n => Py.float_of_int n
  | CFloat f => Ok f
  end.

Definition is_none (c : Cell) : bool :=
  match c with CNone => true | _ => false end.

(** [cell == s] for a string [s]. *)
Definition cell_eq_str (s : string) (c : Cell) : bool :=
  match c with
  | CStr t => String.eqb t s
  | _ => false
  end.

(** The loop of lines 153-157 over [enumerate(LIST_DATA[-3])], from [index]
    on: the columns whose total is present and not zero. *)
Fixpoint scan_totals (index : nat) (totals : Row) : Result (list nat) :=
  match totals with
  | [] => Ok []
  | elm :: rest =>
      keep ← (if Nat.ltb 0 index && negb (is_none elm)
              then v ← cell_float elm; Ok (negb (F64.is_zero v))
              else Ok false);
      index_tab ← scan_totals (S index) rest;
      Ok (if keep : bool then index :: index_tab else index_tab)
  end.

(** [[LIST_DATA[0][index] for index in index_tab]] (line 158). *)
Fixpoint pick_header (LIST_DATA : list Row) (index_tab : list nat)
  : Result (list Cell) :=
  match index_tab with
  | [] => Ok []
  | index :: rest =>
      header ← Py.index LIST_DATA 0;
      c ← Py.index header index;
      cs ← pick_header LIST_DATA rest;
      Ok (c :: cs)
  end.

(** Lines 148-163 on the rows of the worksheet. *)
Definition elements_of_table (LIST_DATA : list Row) (with_plot : bool)
  : Result Elements :=
  totals ← Py.neg_index LIST_DATA 3;
  index_tab ← scan_totals 0 totals;
  elm_options ← pick_header LIST_DATA index_tab;
  if with_plot then Ok (OptionsAndData elm_options LIST_DATA)
  else Ok (Options elm_options).

(** [f"{foldername}"]: an absent folder is formatted as the text [None]. *)
Definition format_folder (foldername : option string) : string :=
  default "None" foldername.

(** Line 140. *)
Definition summary_path (foldername : option string) : string :=
  "./data/EDX/" +:+ format_folder foldername +:+ "/Global spectrum results.xlsx".

Definition get_elements (fs : gmap string File) (foldername : option string)
    (with_plot : bool) : Run Elements :=
  let wb := load_workbook fs (summary_path foldername) in
  match outcome wb with
  | Raise FileNotFoundError => MkRun (opened wb) (Ok (Options []))
  | Raise e => MkRun (opened wb) (Raise e)
  | Ok LIST_DATA => MkRun (opened wb) (elements_of_table LIST_DATA with_plot)
  end.

(** ** Heatmap renderer: [generate_heatmap] *)

(** Dummy figure (lines 183-184). *)
Definition empty_fig_heatmap : Figure :=
  MkFigure [Heatmap None None None None] None (Some 800%Z) (Some 800%Z).

(** [elms, LIST_DATA = ...] (line 189): a pair unpacks; the bare list that
    [get_elements] returns under [with_plot=True] is the empty one, which
    has too few values. *)
Definition unpack_pair (r : Elements) : Result (list Cell * list Row) :=
  match r with
  | OptionsAndData elms LIST_DATA => Ok (elms, LIST_DATA)
  | Options _ => Raise ValueError
  end.

(** [row.index(element_edx)]: the first column equal to the element. *)
Fixpoint row_index (element_edx : string) (row : Row) : Result nat :=
  match row with
  | [] => Raise ValueError
  | c :: rest =>
      if cell_eq_str element_edx c then Ok 0
      else i ← row_index element_edx rest; Ok (S i)
  end.

(** [row[0].startswith("Spectrum_")]; only strings have the method. *)
Definition cell_startswith (c : Cell) (p : string) : Result bool :=
  match c with
  | CStr s => Ok (Py.startswith s p)
  | _ => Raise AttributeError
  end.

(** [name.split("(")[-1].split(")")[0].split(",")] unpacked into two names
    and converted with [int] (lines 205-208). *)
Definition scan_indices (name : string) : Result (Z * Z) :=
  inner ← Py.neg_index (Py.split "(" name) 1;
  inside ← Py.index (Py.split ")" inner) 0;
  match Py.split "," inside with
  | [x_index; y_index] =>
      i ← Py.int x_index;
      j ← Py.int y_index;
      Ok (i, j)
  | _ => Raise ValueError
  end.

(** The three lists filled by the row loop, and the column [index] once a
    header row has bound it. *)
Record Points : Type := MkPoints {
  index : option nat;
  X_POS : list Z;
  Y_POS : list Z;
  ELM : list spec_float
}.

(** The body of the row loop (lines 202-212). *)
Definition heatmap_step (element_edx : string) (st : Points) (row : Row)
  : Result Points :=
  c0 ← Py.index row 0;
  if cell_eq_str "Spectrum" c0 then
    i ← row_index element_edx row;
    Ok (MkPoints (Some i) (X_POS st) (Y_POS st) (ELM st))
  else
    named ← cell_startswith c0 "Spectrum_";
    if named : bool then
      '(x_index, y_index) ← scan_indices (match c0 with CStr s => s | _ => "" end);
      let x_pos := to_position_axis start_x step_x x_index in
      let y_pos := to_position_axis start_y step_y y_index in
      if Np.le_int (Np.add (Np.abs x_pos) (Np.abs y_pos)) 60 then
        match index st with
        | None => Raise NameError
        | Some i =>
            c ← Py.index row i;
            z ← cell_float c;
            Ok (MkPoints (index st) (X_POS st ++ [x_pos]) (Y_POS st ++ [y_pos])
                  (ELM st ++ [z]))
        end
      else Ok st
    else Ok st.

(** The loop [for row in LIST_DATA] (line 201). *)
Fixpoint heatmap_walk (element_edx : string) (rows : list Row) (st : Points)
  : Result Points :=
  match rows with
  | [] => Ok st
  | row :: rest =>
      st' ← heatmap_step element_edx st row;
      heatmap_walk element_edx rest st'
  end.

(** Lines 214-215. *)
Definition heatmap_figure (element_edx : string) (st : Points) : Figure :=
  MkFigure [Heatmap (Some (X_POS st)) (Some (Y_POS st)) (Some (ELM st))
              (Some "Jet")]
    (Some (HeatmapTitle element_edx)) None None.

Definition generate_heatmap (fs : gmap string File)
    (folderpath_edx element_edx : option string) : Run Figure :=
  match folderpath_edx, element_edx with
  | Some folder, Some element =>
      r ← get_elements fs (Some folder) true;
      '(elms, LIST_DATA) ← pure (unpack_pair r);
      if negb (existsb (cell_eq_str element) elms) then mret empty_fig_heatmap
      else
        st ← pure (heatmap_walk element LIST_DATA (MkPoints None [] [] []));
        mret (heatmap_figure element st)
  | _, _ => mret empty_fig_heatmap
  end.

(** The points of a heatmap: the triples [(x, y, z)] of its three lists. *)
Definition points (st : Points) : list (Z * Z * spec_float) :=
  zip (zip (X_POS st) (Y_POS st)) (ELM st).

(** ** Vocabulary of the specification *)

(** The scanned grid on one axis: -40, -35, ..., 40. *)
Definition grid_axis (start : Z) : list Z :=
  map (fun k => (start + Z.of_nat k * step)%Z) (seq 0 17).

(** A valid grid position lies on the grid on each axis. *)
Definition on_grid (start : Z) (pos : Q) : bool :=
  existsb (fun g => Qeq_bool pos (inject_Z g)) (grid_axis start).

(** Written from the specification: a total is "present and non-zero". An
    integer is non-zero when it is not 0, a float when it is neither [0.0]
    nor [-0.0], a text when the float it denotes is. *)
Definition quantified (total : Cell) : bool :=
  match total with
  | CNone => false
  | CInt n => negb (n =? 0)%Z
  | CFloat f => negb (F64.is_zero f)
  | CStr s =>
      match Py.float s with
      | Ok v => negb (F64.is_zero v)
      | Raise _ => false
      end
  end.

(** Written from the specification: the header entries, column 0 left out,
    whose totals-row cell is present and non-zero, in header order. *)
Definition element_options_spec (header totals : Row) : list Cell :=
  map fst
    (List.filter (fun p => quantified (snd p)) (zip (tail header) (tail totals))).

(** A total the reader can use: a number in the range of the floats, or a
    text that denotes a float; an empty cell is skipped. *)
Definition readable_total (total : Cell) : bool :=
  match total with
  | CNone => true
  | CInt n => negb (F64.is_inf (F64.of_Z n))
  | CFloat _ => true
  | CStr s => is_ok (Py.float s)
  end.

Definition elm_options_of (r : Elements) : list Cell :=
  match r with
  | Options l => l
  | OptionsAndData l _ => l
  end.

(** The energy of channel [i], counted from 0, for a calibration: channel
    number [i + 1] times the step, plus the offset, in floats. *)
Definition channel_energy (energy_step zero_energy : spec_float) (i : nat)
  : spec_float :=
  F64.add (F64.mul (F64.of_Z (Z.of_nat (i + 1))) energy_step) zero_energy.

(** The counts of a series as they stand in the array: the nearest float
    when all of them fit a 64-bit integer, the ints themselves otherwise. *)
Definition stored_counts (counts : list Z) : list Number :=
  if forallb (fun c => (- 2 ^ 63 <=? c)%Z && (c <? 2 ^ 64)%Z) counts
  then map (fun c => NFloat (F64.of_Z c)) counts
  else map NInt counts.

(** The element with tag [t] that comes last in [nodes]. *)
Fixpoint last_tagged (t : string) (nodes : list Element) : option Element :=
  match nodes with
  | [] => None
  | e :: rest =>
      match last_tagged t rest with
      | Some e' => Some e'
      | None => if String.eqb (tag e) t then Some e else None
      end
  end.

(** The calibration value in force after [nodes]: the float of the text of
    the last element tagged [t], and 0.0 when there is none. *)
Definition calibration_met (t : string) (nodes : list Element)
  : Result spec_float :=
  match last_tagged t nodes with
  | Some e => Py.float_opt (text e)
  | None => Ok (S754_zero false)
  end.

(** No element of the list is a [Channels] element. *)
Definition no_channels (nodes : list Element) : bool :=
  forallb (fun e => negb (String.eqb (tag e) "Channels")) nodes.

(** The locals when the walk meets [Channels] with this calibration. *)
Definition calibrated (energy_step zero_energy : spec_float) : Locals :=
  MkLocals 0%Z None energy_step zero_energy None [] [] None None.

(** The diamond of the instrument geometry. *)
Definition in_diamond (xy : Z * Z) : bool :=
  (Z.abs (fst xy) + Z.abs (snd xy) <=? 60)%Z.

(** The sum |x| + |y| stays below 2^63, where [int64] arithmetic is exact. *)
Definition no_wrap (xy : Z * Z) : bool :=
  (Z.abs (fst xy) + Z.abs (snd xy) <? 2 ^ 63)%Z.

(** A row of the summary sheet below the header, as the specification sees
    it: the row of scan point [(i, j)], or a row with another name. *)
Inductive SheetRow : Type :=
  | ScanRow (i j : Z) (cells : list Cell)
  | OtherRow (name : string) (cells : list Cell).

(** The name of a scan point in column 0. *)
Definition scan_name (i j : Z) : string :=
  "Spectrum_(" +:+ pretty i +:+ "," +:+ pretty j +:+ ")".

(** The row as it stands in the sheet. *)
Definition sheet_row (r : SheetRow) : Row :=
  match r with
  | ScanRow i j cells => CStr (scan_name i j) :: cells
  | OtherRow name cells => CStr name :: cells
  end.

(** The physical position of scan point [(i, j)]: 5 units per index step
    from -40. *)
Definition scan_position (i j : Z) : Z * Z :=
  (5 * (i - 1) - 40, 5 * (j - 1) - 40)%Z.

(** The numeric value of a cell, if it has one. *)
Definition numeric_value (c : Cell) : option spec_float :=
  match c with
  | CNone => None
  | CInt n => if F64.is_inf (F64.of_Z n) then None else Some (F64.of_Z n)
  | CFloat f => Some f
  | CStr s => match Py.float s with Ok f => Some f | Raise _ => None end
  end.

(** The value of a row in column [idx] of the sheet. *)
Definition value_at (idx : nat) (r : SheetRow) : option spec_float :=
  sheet_row r !! idx ≫= numeric_value.

(** The heatmap point of a row for the element in column [idx]: the
    position of its scan point with the value of its cell, when the point
    lies in the diamond. *)
Definition sheet_point (idx : nat) (r : SheetRow)
  : list (Z * Z * spec_float) :=
  match r with
  | ScanRow i j _ =>
      if in_diamond (scan_position i j) then
        match value_at idx r with
        | Some z => [(scan_position i j, z)]
        | None => []
        end
      else []
  | OtherRow _ _ => []
  end.

(** A row in the documented layout, for the element in column [idx]: a
    scan point lies within [int64] reach and has a numeric cell in the
    column when it lies in the diamond; any other row has a name that is
    neither the header's nor a scan point's. *)
Definition sheet_row_ok (idx : nat) (r : SheetRow) : bool :=
  match r with
  | ScanRow i j _ =>
      no_wrap (scan_position i j)
      && (negb (in_diamond (scan_position i j))
          || bool_decide (is_Some (value_at idx r)))
  | OtherRow name _ =>
      negb (String.eqb name "Spectrum") && negb (Py.startswith name "Spectrum_")
  end.

(** The figure that shows a list of points: their coordinates and values in
    three lists of the same order. *)
Definition figure_of_points (element_edx : string)
    (pts : list (Z * Z * spec_float)) : Figure :=
  MkFigure [Heatmap (Some (map (fun p => fst (fst p)) pts))
              (Some (map (fun p => snd (fst p)) pts))
              (Some (map snd pts)) (Some "Jet")]
    (Some (HeatmapTitle element_edx)) None None.

(** The three lists of the row loop have one entry per point. *)
Definition aligned (st : Points) : Prop :=
  length (X_POS st) = length (Y_POS st) /\ length (Y_POS st) = length (ELM st).

(** The precondition on a [Results] block: a [Result] marker comes before
    the first kept attribute (no kept attribute at all satisfies it). *)
Fixpoint marker_first (nodes : list Element) : bool :=
  match nodes with
  | [] => true
  | n :: rest =>
      if String.eqb (tag n) "Result" then true
      else if in_params (tag n) then false
      else marker_first rest
  end.

(** Every [Atom] of the list has a text that converts with [int]. *)
Definition atoms_ok (nodes : list Element) : bool :=
  forallb (fun n => negb (String.eqb (tag n) "Atom")
                    || is_ok (Py.int_opt (text n))) nodes.

(** The kept attribute the walk reaches before any [Result] marker and
    before an [ExtResults] marker, if there is one. *)
Fixpoint first_access (nodes : list Element) : option Element :=
  match nodes with
  | [] => None
  | n :: rest =>
      if String.eqb (tag n) "Result" then None
      else if in_params (tag n) then Some n
      else if String.eqb (tag n) "ExtResults" then None
      else first_access rest
  end.

(** ** Vocabulary of the further properties *)

(** The entries of a run of kept attributes, in document order. *)
Fixpoint stored_entries (attrs : list Element)
  : Result (list (string * option string)) :=
  match attrs with
  | [] => Ok []
  | a :: rest =>
      entry ← stored_entry a;
      entries ← stored_entries rest;
      Ok (entry :: entries)
  end.

(** Every attribute name held by the records is one of [params]. *)
Definition whitelisted (records : list ResultRecord) : Prop :=
  Forall (Forall (fun entry => in_params (fst entry) = true)) records.

(** The [Result] markers a walk meets before an [ExtResults] ends it. *)
Fixpoint markers_walked (nodes : list Element) : nat :=
  match nodes with
  | [] => 0
  | n :: rest =>
      if String.eqb (tag n) "Result" then S (markers_walked rest)
      else if in_params (tag n) then markers_walked rest
      else if String.eqb (tag n) "ExtResults" then 0
      else markers_walked rest
  end.

(** The test of line 95. *)
Definition is_pse (child : Element) : bool :=
  bool_decide (get child "Type" = Some "TRTPSEElement").

(** No node of the list has the tag [Element]. *)
Definition no_element_tag (nodes : list Element) : bool :=
  forallb (fun nb => negb (String.eqb (tag nb) "Element")) nodes.

(** A point of the scan lattice: both coordinates of the form -40 + 5k. *)
Definition lattice_point (p : Z * Z * spec_float) : Prop :=
  let '(x, y, _) := p in
  ((x - start_x) mod step_x = 0)%Z /\ ((y - start_y) mod step_y = 0)%Z.

(** A point in the diamond, or so far out that |x| + |y| leaves [int64]. *)
Definition diamond_or_beyond (p : Z * Z * spec_float) : Prop :=
  let '(x, y, _) := p in
  (Z.abs x + Z.abs y <= 60)%Z \/ (2 ^ 63 <= Z.abs x + Z.abs y)%Z.

(** A cell that holds text. *)
Definition is_text (c : Cell) : bool :=
  match c with CStr _ => true | _ => false end.

(** A character that is not the separator. *)
Definition differs (sep : ascii) (c : ascii) : bool := negb (Ascii.eqb c sep).

(** The ten decimal digits. *)
Definition decimal_digit (c : ascii) : bool :=
  existsb (Ascii.eqb c) ["0"; "1"; "2"; "3"; "4"; "5"; "6"; "7"; "8"; "9"]%char.

(** A character of a formatted integer: a digit or the minus sign. *)
Definition numeral_char (c : ascii) : bool :=
  decimal_digit c || Ascii.eqb c "-".

(** The number a run of digits denotes, continuing from [acc]. *)
Definition digits_value (acc : Z) (cs : list ascii) : Z :=
  fold_left (fun a c => (10 * a + default 0 (Py.digit_val c))%Z) cs acc.

(** ** Vocabulary of rounding *)

(** The number of units in the last place of a positive [q], before it is
    rounded to an integer. *)
Definition units (q : Q) : Q := (q / F64.pow2 (F64.ulp_exp q))%Q.

(** The magnitude of the float of [n] units of [2^k]. *)
Definition magnitude (n k : Z) : Q :=
  Qmin (inject_Z n * F64.pow2 k)%Q (F64.pow2 1024).

(** The value a positive [q] is rounded to. *)
Definition rounded (q : Q) : Q :=
  magnitude (F64.rne (units q)) (F64.ulp_exp q).

(** A float that is not a NaN and, when finite, lies strictly between the
    two infinities, as every float that comes out of a rounding does. *)
Definition in_range (f : spec_float) : Prop :=
  F64.is_nan f = false /\
  (F64.is_finite f = true ->
   (- F64.pow2 1024 < F64.ext f)%Q /\ (F64.ext f < F64.pow2 1024)%Q).

(** ** Sample inputs *)

Definition leaf (t : string) (txt : string) : Element := Elem t ∅ (Some txt) [].

Definition results_block (cs : list Element) : Element :=
  Elem "ClassInstance" {["Name" := "Results"]} None cs.

(** The same four elements, calibration before and after [Channels]. *)
Definition calibration_first : Element :=
  Elem "TRTSpectrum" ∅ None
    [leaf "CalibAbs" "5"; leaf "CalibLin" "10"; leaf "Channels" "1,2"].

Definition calibration_last : Element :=
  Elem "TRTSpectrum" ∅ None
    [leaf "Channels" "1,2"; leaf "CalibAbs" "5"; leaf "CalibLin" "10"].

(** A negative energy step. *)
Definition negative_step : Element :=
  Elem "TRTSpectrum" ∅ None [leaf "CalibLin" "-1"; leaf "Channels" "1,2"].

(** A block whose first kept attribute has no [Result] marker in front. *)
Definition unmarked_block : Element := results_block [leaf "Atom" "27"].

(** That block after one that has started a record. *)
Definition two_results_blocks : Element :=
  Elem "TRTSpectrum" ∅ None
    [results_block [Elem "Result" ∅ None [leaf "Atom" "26"]];
     unmarked_block;
     leaf "Channels" "1,2"].

(** A block in which [ExtResults] ends the walk before the attribute. *)
Definition cut_block : Element :=
  results_block [Elem "ExtResults" ∅ None []; leaf "Atom" "27"].

(** A summary table in the documented layout: header, scan points, and the
    totals row third from the end. *)
Definition sample_table : list Row :=
  [[CStr "Spectrum"; CStr "Fe"; CStr "Co"; CStr "O"];
   [CStr "Spectrum_(1,1)"; CInt 1; CInt 2; CInt 3];
   [CStr "Spectrum_(9,9)"; CInt 4; CInt 5; CInt 6];
   [CStr "Spectrum_(17,9)"; CInt 7; CInt 8; CInt 9];
   [CStr "Mean value:"; CInt 4; CInt 0; CNone];
   [CStr "Sigma:"; CInt 1; CInt 1; CInt 1];
   [CStr "Sigma mean:"; CInt 1; CInt 1; CInt 1]].

(** The float nearest to a fraction. *)
Definition fl (q : Q) : spec_float := F64.round false q.

(** Floats compared as data: same class, same sign, same digits. *)
Definition same_float (x y : spec_float) : bool :=
  match x, y with
  | S754_zero a, S754_zero b => Bool.eqb a b
  | S754_infinity a, S754_infinity b => Bool.eqb a b
  | S754_nan, S754_nan => true
  | S754_finite a m e, S754_finite b n f =>
      Bool.eqb a b && Pos.eqb m n && Z.eqb e f
  | _, _ => false
  end.

(** Floats of every kind: zeros, an infinity, NaN, normal and subnormal
    numbers, the largest finite number, and numbers that need rounding. *)
Definition sample_floats : list spec_float :=
  [S754_zero false; S754_zero true; S754_infinity true; S754_nan; fl 0.1;
   F64.opp (fl 7.25); fl (1 / inject_Z (10 ^ 20));
   F64.opp (fl (1 / inject_Z (10 ^ 310))); fl (inject_Z (2 ^ 1024 - 2 ^ 971))].

(** A summary table with floats and texts among its cells; the totals of
    its six elements are a float, a zero float, an empty cell, a text, a
    text that denotes zero and a text too small for a float. *)
Definition mixed_table : list Row :=
  [[CStr "Spectrum"; CStr "Fe"; CStr "Co"; CStr "O"; CStr "Ni"; CStr "Cu";
    CStr "Zn"];
   [CStr "Spectrum_(1,1)"; CFloat (fl 0.5); CInt 2; CNone; CStr "1.5"; CInt 0;
    CInt 0];
   [CStr "Spectrum_(9,9)"; CStr "2.25"; CInt 5; CNone; CStr "3.5"; CInt 0;
    CInt 0];
   [CStr "Spectrum_(17,9)"; CFloat (fl 7.5); CInt 8; CNone; CInt 9; CInt 0;
    CInt 0];
   [CStr "Mean value:"; CFloat (fl 3.5); CFloat (S754_zero true); CNone;
    CStr "3.5"; CStr "0.0"; CStr "1e-400"];
   [CStr "Sigma:"; CInt 1; CInt 1; CInt 1; CInt 1; CInt 1; CInt 1];
   [CStr "Sigma mean:"; CInt 1; CInt 1; CInt 1; CInt 1; CInt 1; CInt 1]].

Definition mixed_fs : gmap string File :=
  {[ summary_path (Some "Sample_A") := XlsxFile mixed_table ]}.

(** The body of [mixed_table] as rows of the specification. *)
Definition mixed_rows : list SheetRow :=
  [ScanRow 1 1 [CFloat (fl 0.5); CInt 2; CNone; CStr "1.5"; CInt 0; CInt 0];
   ScanRow 9 9 [CStr "2.25"; CInt 5; CNone; CStr "3.5"; CInt 0; CInt 0];
   ScanRow 17 9 [CFloat (fl 7.5); CInt 8; CNone; CInt 9; CInt 0; CInt 0];
   OtherRow "Mean value:"
     [CFloat (fl 3.5); CFloat (S754_zero true); CNone; CStr "3.5"; CStr "0.0";
      CStr "1e-400"];
   OtherRow "Sigma:" [CInt 1; CInt 1; CInt 1; CInt 1; CInt 1; CInt 1];
   OtherRow "Sigma mean:" [CInt 1; CInt 1; CInt 1; CInt 1; CInt 1; CInt 1]].

(** A table with a scan point so far out that |x| + |y| exceeds [int64]. *)
Definition far_table : list Row :=
  [[CStr "Spectrum"; CStr "Fe"];
   [CStr "Spectrum_(922337203685477590,922337203685477590)"; CInt 7];
   [CStr "Mean value:"; CInt 7];
   [CStr "Sigma:"; CInt 1];
   [CStr "Sigma mean:"; CInt 1]].

Definition far_fs : gmap string File :=
  {[ summary_path (Some "Sample_A") := XlsxFile far_table ]}.

(** A calibration step too small to move the energies off the offset. *)
Definition tiny_step : Element :=
  Elem "TRTSpectrum" ∅ None
    [leaf "CalibLin" "1e-20"; leaf "CalibAbs" "1"; leaf "Channels" "1,2"].

Definition sample_fs : gmap string File :=
  {[ summary_path (Some "Sample_A") := XlsxFile sample_table ]}.

(** A document with calibration and no [Channels] element. *)
Definition calibration_only : Element :=
  Elem "TRTSpectrum" ∅ None [leaf "CalibLin" "10"; leaf "CalibAbs" "5"].

(** A summary sheet of two rows. *)
Definition short_fs : gmap string File :=
  {[ summary_path (Some "Sample_A") :=
       XlsxFile [[CStr "Spectrum"; CStr "Fe"]; [CStr "Spectrum_(1,1)"; CInt 1]] ]}.

(** An [Elements] block declaring iron and cobalt. *)
Definition pse (name number : string) : Element :=
  Elem "ClassInstance" {["Type" := "TRTPSEElement"; "Name" := name]} None
    [leaf "Element" number].

Definition elements_block : Element :=
  Elem "ClassInstance" {["Name" := "Elements"]} None
    [pse "Fe" "26"; pse "Co" "27"].

(** The sample table with a blank row after the first scan point. *)
Definition blank_row_fs : gmap string File :=
  {[ summary_path (Some "Sample_A") :=
       XlsxFile (take 2 sample_table ++ [CNone; CNone; CNone; CNone]
                   :: drop 2 sample_table) ]}.

(** ** Proof steps *)

(** A branch of [document_step] that converts the text with [float] and
    stores it in one scalar. *)
Ltac scalar_case :=
  match goal with
  | |- context [Py.float_opt ?t] =>
      destruct (Py.float_opt t) as [?v|]; simpl;
      [try (destruct (Py.int_of_float v); simpl; [| discriminate]);
       intros [= <-]; reflexivity
      | discriminate]
  end.

(** * Properties *)

(** ** Results *)

Lemma bind_Ok {A B : Type} (a : A) (k : A -> Result B) : (Ok a ≫= k) = k a.
Proof. reflexivity. Qed.

Lemma bind_Raise {A B : Type} (e : exn) (k : A -> Result B) :
  (Raise e ≫= k) = Raise e.
Proof. reflexivity. Qed.

(** ** Binary64 rounding *)

Section Rounding.
Local Open Scope Q_scope.

Lemma pow2_pos (k : Z) : 0 < F64.pow2 k.
Proof. apply Qpower_0_lt. reflexivity. Qed.

Lemma pow2_add (a b : Z) : F64.pow2 (a + b) == F64.pow2 a * F64.pow2 b.
Proof. apply Qpower_plus. discriminate. Qed.

Lemma pow2_le (a b : Z) : (a <= b)%Z -> F64.pow2 a <= F64.pow2 b.
Proof. intros H. apply Qpower_le_compat_l; [exact H | discriminate]. Qed.

Lemma pow2_inject (k : Z) : (0 <= k)%Z -> F64.pow2 k == inject_Z (2 ^ k).
Proof.
  intros H. unfold F64.pow2. rewrite (Zpower_Qpower 2 k H). reflexivity.
Qed.

Lemma pow2_succ (a : Z) : F64.pow2 (a + 1) == 2 * F64.pow2 a.
Proof. rewrite pow2_add. change (F64.pow2 1) with (2 # 1). lra. Qed.

Lemma inject_Z_log2 (n : Z) :
  (0 < n)%Z ->
  F64.pow2 (Z.log2 n) <= inject_Z n /\ inject_Z n < 2 * F64.pow2 (Z.log2 n).
Proof.
  intros H. destruct (Z.log2_spec n H) as [Hl Hu].
  pose proof (Z.log2_nonneg n) as Hn.
  rewrite (pow2_inject _ Hn). split.
  - rewrite <- Zle_Qle. exact Hl.
  - rewrite <- pow2_inject by exact Hn. rewrite <- pow2_succ.
    rewrite pow2_inject by lia. rewrite <- Zlt_Qlt. exact Hu.
Qed.

(** [ilog2] is the binary logarithm rounded down. *)
Lemma ilog2_spec (q : Q) :
  0 < q -> F64.pow2 (F64.ilog2 q) <= q /\ q < F64.pow2 (F64.ilog2 q + 1).
Proof.
  intros Hq. destruct q as [n d].
  assert (Hn : (0 < n)%Z).
  { unfold Qlt in Hq. simpl in Hq. lia. }
  destruct (inject_Z_log2 n Hn) as [Hnl Hnu].
  destruct (inject_Z_log2 (Zpos d) eq_refl) as [Hdl Hdu].
  pose proof (pow2_pos (Z.log2 n)) as HA.
  pose proof (pow2_pos (Z.log2 (Zpos d))) as HB.
  assert (Hq' : n # d == inject_Z n / inject_Z (Zpos d)) by apply Qmake_Qdiv.
  assert (HD : 0 < inject_Z (Zpos d)) by reflexivity.
  set (d0 := (Z.log2 n - Z.log2 (Zpos d))%Z).
  assert (Hd0 : F64.pow2 d0 * F64.pow2 (Z.log2 (Zpos d)) == F64.pow2 (Z.log2 n)).
  { rewrite <- pow2_add. unfold d0.
    replace (Z.log2 n - Z.log2 (Zpos d) + Z.log2 (Zpos d))%Z with (Z.log2 n) by lia.
    reflexivity. }
  pose proof (pow2_pos d0) as HP.
  assert (Hup : n # d < F64.pow2 (d0 + 1)).
  { rewrite Hq'. apply Qlt_shift_div_r; [exact HD |].
    rewrite pow2_succ. nra. }
  assert (Hlow : F64.pow2 (d0 - 1) <= n # d).
  { rewrite Hq'. apply Qle_shift_div_l; [exact HD |].
    pose proof (pow2_succ (d0 - 1)) as Hs.
    replace (d0 - 1 + 1)%Z with d0 in Hs by lia.
    pose proof (pow2_pos (d0 - 1)) as HP'. nra. }
  unfold F64.ilog2. cbn [Qnum Qden]. fold d0.
  destruct (Qle_bool (F64.pow2 d0) (n # d)) eqn:Hc.
  - apply Qle_bool_iff in Hc. split; assumption.
  - split; [exact Hlow |].
    replace (d0 - 1 + 1)%Z with d0 by lia.
    apply Qnot_le_lt. intros Hle. apply Qle_bool_iff in Hle. congruence.
Qed.

Lemma ilog2_mono (q1 q2 : Q) :
  0 < q1 -> q1 <= q2 -> (F64.ilog2 q1 <= F64.ilog2 q2)%Z.
Proof.
  intros H1 H12.
  destruct (ilog2_spec q1 H1) as [Hl1 _].
  destruct (ilog2_spec q2) as [_ Hu2]; [lra |].
  destruct (Z_le_gt_dec (F64.ilog2 q1) (F64.ilog2 q2)) as [H | H]; [exact H |].
  pose proof (pow2_le (F64.ilog2 q2 + 1) (F64.ilog2 q1)) as Hp.
  specialize (Hp ltac:(lia)). lra.
Qed.

Lemma rne_bounds (x : Q) : (Qfloor x <= F64.rne x <= Qfloor x + 1)%Z.
Proof.
  unfold F64.rne. destruct (x - inject_Z (Qfloor x) ?= 1 # 2); [| lia | lia].
  destruct (Z.even (Qfloor x)); lia.
Qed.

Lemma rne_mono (x y : Q) : x <= y -> (F64.rne x <= F64.rne y)%Z.
Proof.
  intros Hxy. pose proof (Qfloor_resp_le x y Hxy) as Hf.
  destruct (Z.eq_dec (Qfloor x) (Qfloor y)) as [He | Hne].
  - unfold F64.rne. rewrite <- He.
    destruct (Qcompare_spec (x - inject_Z (Qfloor x)) (1 # 2)) as [H1 | H1 | H1];
      destruct (Qcompare_spec (y - inject_Z (Qfloor x)) (1 # 2)) as [H2 | H2 | H2];
      try (destruct (Z.even (Qfloor x))); try lia; lra.
  - pose proof (rne_bounds x). pose proof (rne_bounds y). lia.
Qed.

Lemma rne_inject_Z (n : Z) : F64.rne (inject_Z n) = n.
Proof.
  unfold F64.rne. rewrite Qfloor_Z.
  destruct (Qcompare_spec (inject_Z n - inject_Z n) (1 # 2)) as [H | H | H];
    [lra | reflexivity | lra].
Qed.


Lemma units_le_iff (q : Q) (n : Z) :
  inject_Z n <= units q <-> inject_Z n * F64.pow2 (F64.ulp_exp q) <= q.
Proof.
  unfold units. pose proof (pow2_pos (F64.ulp_exp q)) as Hp. split; intros H.
  - apply (Qmult_le_compat_r _ _ (F64.pow2 (F64.ulp_exp q))) in H; [| lra].
    unfold Qdiv in H. rewrite <- Qmult_assoc in H.
    rewrite (Qmult_comm (/ _)) in H. rewrite Qmult_inv_r in H; lra.
  - apply Qle_shift_div_l; assumption.
Qed.

Lemma units_nonneg (q : Q) : 0 < q -> (0 <= F64.rne (units q))%Z.
Proof.
  intros Hq. rewrite <- (rne_inject_Z 0). apply rne_mono.
  apply units_le_iff. change (inject_Z 0) with 0. lra.
Qed.

Lemma units_upper (q : Q) : 0 < q -> (F64.rne (units q) <= 2 ^ 53)%Z.
Proof.
  intros Hq. rewrite <- (rne_inject_Z (2 ^ 53)). apply rne_mono.
  unfold units. apply Qle_shift_div_r; [apply pow2_pos |].
  destruct (ilog2_spec q Hq) as [_ Hu].
  rewrite <- (pow2_inject 53) by lia. rewrite <- pow2_add.
  pose proof (pow2_le (F64.ilog2 q + 1) (53 + F64.ulp_exp q)) as Hp.
  unfold F64.ulp_exp in *. specialize (Hp ltac:(lia)). lra.
Qed.

Lemma units_lower (q : Q) :
  0 < q -> (-1074 < F64.ulp_exp q)%Z -> (2 ^ 52 <= F64.rne (units q))%Z.
Proof.
  intros Hq Hk. rewrite <- (rne_inject_Z (2 ^ 52)) at 1. apply rne_mono.
  apply units_le_iff. destruct (ilog2_spec q Hq) as [Hl _].
  rewrite <- (pow2_inject 52) by lia. rewrite <- pow2_add.
  replace (52 + F64.ulp_exp q)%Z with (F64.ilog2 q); [exact Hl |].
  unfold F64.ulp_exp in *. lia.
Qed.

Lemma ext_make (s : bool) (n k : Z) :
  (0 <= n <= 2 ^ 53)%Z -> ((971 < k)%Z -> (2 ^ 52 <= n)%Z) ->
  F64.ext (F64.make s n k)
  == if s then - magnitude n k else magnitude n k.
Proof.
  intros Hn Hk. unfold F64.make.
  assert (Hunit : forall m : Z,
             (0 <= m)%Z -> inject_Z (2 ^ m) * F64.pow2 k == F64.pow2 (m + k)).
  { intros m Hm. rewrite <- (pow2_inject m Hm). symmetry. apply pow2_add. }
  pose proof (Hunit 53%Z ltac:(lia)) as H53.
  pose proof (Hunit 52%Z ltac:(lia)) as H52.
  pose proof (pow2_pos k) as Hk0.
  destruct (Z.eqb_spec n 0) as [-> | Hn0].
  { assert (Hm : magnitude 0 k == 0).
    { unfold magnitude. rewrite Q.min_l.
      - change (inject_Z 0) with 0. lra.
      - pose proof (pow2_pos 1024). change (inject_Z 0) with 0. lra. }
    cbn [F64.ext F64.val]. destruct s; rewrite Hm; reflexivity. }
  destruct (Z.eqb_spec n (2 ^ 53)) as [-> | Hn53].
  { destruct (Z.leb_spec (k + 1) 971) as [Hle | Hgt].
    - assert (Hv : inject_Z (Z.pos (Z.to_pos (2 ^ 52))) * F64.pow2 (k + 1)
                   == inject_Z (2 ^ 53) * F64.pow2 k).
      { rewrite pow2_succ. change (Z.pos (Z.to_pos (2 ^ 52))) with (2 ^ 52)%Z.
        change (2 ^ 53)%Z with (2 * 2 ^ 52)%Z. rewrite inject_Z_mult.
        change (inject_Z 2) with (2 # 1). lra. }
      assert (Hm : magnitude (2 ^ 53) k == inject_Z (2 ^ 53) * F64.pow2 k).
      { unfold magnitude. apply Q.min_l. rewrite H53. apply pow2_le. lia. }
      cbn [F64.ext F64.val]. destruct s; rewrite Hm, Hv; reflexivity.
    - assert (Hm : magnitude (2 ^ 53) k == F64.pow2 1024).
      { unfold magnitude. apply Q.min_r. rewrite H53. apply pow2_le. lia. }
      cbn [F64.ext]. destruct s; rewrite Hm; reflexivity. }
  assert (Hpos : Z.pos (Z.to_pos n) = n) by (apply Z2Pos.id; lia).
  destruct (Z.leb_spec k 971) as [Hle | Hgt].
  - assert (Hm : magnitude n k == inject_Z n * F64.pow2 k).
    { unfold magnitude. apply Q.min_l.
      pose proof (pow2_le (53 + k) 1024 ltac:(lia)) as Hp.
      assert (Hlt : inject_Z n <= inject_Z (2 ^ 53)) by (rewrite <- Zle_Qle; lia).
      nra. }
    cbn [F64.ext F64.val]. rewrite Hpos. destruct s; rewrite Hm; reflexivity.
  - assert (Hm : magnitude n k == F64.pow2 1024).
    { unfold magnitude. apply Q.min_r.
      pose proof (pow2_le 1024 (52 + k) ltac:(lia)) as Hp.
      assert (Hge : inject_Z (2 ^ 52) <= inject_Z n).
      { rewrite <- Zle_Qle. apply Hk. exact Hgt. }
      nra. }
    cbn [F64.ext]. destruct s; rewrite Hm; reflexivity.
Qed.

Lemma ext_round_pos (s : bool) (q : Q) :
  0 < q -> F64.ext (F64.round_pos s q) == if s then - rounded q else rounded q.
Proof.
  intros Hq. unfold F64.round_pos, rounded. cbv zeta. fold (units q).
  apply ext_make.
  - split; [apply units_nonneg | apply units_upper]; exact Hq.
  - intros Hk. apply units_lower; [exact Hq | lia].
Qed.

Lemma rounded_nonneg (q : Q) : 0 < q -> 0 <= rounded q.
Proof.
  intros Hq. unfold rounded, magnitude. apply Q.min_glb.
  - pose proof (units_nonneg q Hq) as Hn. pose proof (pow2_pos (F64.ulp_exp q)).
    assert (0 <= inject_Z (F64.rne (units q))) by (rewrite <- (Zle_Qle 0); exact Hn).
    nra.
  - pose proof (pow2_pos 1024). lra.
Qed.

Lemma rounded_le_top (q : Q) : rounded q <= F64.pow2 1024.
Proof. unfold rounded, magnitude. apply Q.le_min_r. Qed.

Lemma rounded_mono (q1 q2 : Q) : 0 < q1 -> q1 <= q2 -> rounded q1 <= rounded q2.
Proof.
  intros H1 H12. assert (H2 : 0 < q2) by lra.
  unfold rounded, magnitude. apply Q.min_le_compat_r.
  pose proof (ilog2_mono q1 q2 H1 H12) as Hlog.
  assert (Hk : (F64.ulp_exp q1 <= F64.ulp_exp q2)%Z) by (unfold F64.ulp_exp; lia).
  destruct (Z.eq_dec (F64.ulp_exp q1) (F64.ulp_exp q2)) as [He | Hne].
  - assert (Hu : units q1 <= units q2).
    { unfold units. rewrite He. apply Qmult_le_compat_r; [exact H12 |].
      apply Qlt_le_weak. apply Qinv_lt_0_compat. apply pow2_pos. }
    apply rne_mono in Hu. rewrite He.
    pose proof (pow2_pos (F64.ulp_exp q2)).
    assert (inject_Z (F64.rne (units q1)) <= inject_Z (F64.rne (units q2)))
      by (rewrite <- Zle_Qle; exact Hu).
    nra.
  - pose proof (units_upper q1 H1) as Hu1.
    pose proof (units_lower q2 H2 ltac:(unfold F64.ulp_exp in *; lia)) as Hl2.
    pose proof (pow2_pos (F64.ulp_exp q1)) as Hp1.
    pose proof (pow2_pos (F64.ulp_exp q2)) as Hp2.
    pose proof (pow2_le (F64.ulp_exp q1 + 1) (F64.ulp_exp q2) ltac:(lia)) as Hp.
    rewrite pow2_succ in Hp.
    assert (Ha : inject_Z (F64.rne (units q1)) <= inject_Z (2 ^ 53))
      by (rewrite <- Zle_Qle; exact Hu1).
    assert (Hb : inject_Z (2 ^ 52) <= inject_Z (F64.rne (units q2)))
      by (rewrite <- Zle_Qle; exact Hl2).
    change (2 ^ 53)%Z with (2 * 2 ^ 52)%Z in Ha. rewrite inject_Z_mult in Ha.
    change (inject_Z 2) with (2 # 1) in Ha.
    assert (H52 : 0 < inject_Z (2 ^ 52)) by reflexivity.
    apply Qle_trans with (inject_Z (2 ^ 52) * F64.pow2 (F64.ulp_exp q2)); nra.
Qed.

Lemma ext_round (s : bool) (q : Q) :
  F64.ext (F64.round s q)
  == match q ?= 0 with
     | Eq => 0
     | Gt => rounded q
     | Lt => - rounded (- q)
     end.
Proof.
  unfold F64.round. destruct (Qcompare_spec q 0) as [H | H | H].
  - reflexivity.
  - apply (ext_round_pos true). lra.
  - apply (ext_round_pos false). exact H.
Qed.

(** Rounding keeps the order. *)
Lemma round_mono (s1 s2 : bool) (q1 q2 : Q) :
  q1 <= q2 -> F64.ext (F64.round s1 q1) <= F64.ext (F64.round s2 q2).
Proof.
  intros H. rewrite !ext_round.
  destruct (Qcompare_spec q1 0) as [H1 | H1 | H1];
    destruct (Qcompare_spec q2 0) as [H2 | H2 | H2]; try lra.
  - pose proof (rounded_nonneg q2 H2). lra.
  - pose proof (rounded_nonneg (- q1) ltac:(lra)). lra.
  - pose proof (rounded_mono (- q2) (- q1) ltac:(lra) ltac:(lra)). lra.
  - pose proof (rounded_nonneg (- q1) ltac:(lra)).
    pose proof (rounded_nonneg q2 H2). lra.
  - apply rounded_mono; assumption.
Qed.

Lemma round_not_nan (s : bool) (q : Q) : F64.is_nan (F64.round s q) = false.
Proof.
  unfold F64.round, F64.round_pos, F64.make.
  destruct (q ?= 0); [reflexivity | |];
    repeat match goal with |- context [if ?b then _ else _] => destruct b end;
    reflexivity.
Qed.

Lemma ext_bounds (f : spec_float) :
  F64.is_nan f = false -> F64.is_finite f = true \/ F64.is_inf f = true.
Proof. destruct f; simpl; auto. Qed.


Lemma pow2_lt (a b : Z) : (a < b)%Z -> F64.pow2 a < F64.pow2 b.
Proof. intros H. apply Qpower_lt_compat_l; [exact H | reflexivity]. Qed.

Lemma make_finite_lt (s : bool) (n k : Z) :
  (0 <= n <= 2 ^ 53)%Z -> F64.is_finite (F64.make s n k) = true ->
  inject_Z n * F64.pow2 k < F64.pow2 1024.
Proof.
  intros Hn. unfold F64.make.
  pose proof (pow2_pos k) as Hk0.
  assert (H53 : inject_Z (2 ^ 53) * F64.pow2 k == F64.pow2 (53 + k)).
  { rewrite <- (pow2_inject 53) by lia. symmetry. apply pow2_add. }
  destruct (Z.eqb_spec n 0) as [-> | Hn0].
  { intros _. pose proof (pow2_pos 1024). change (inject_Z 0) with 0. lra. }
  destruct (Z.eqb_spec n (2 ^ 53)) as [-> | Hn53].
  { destruct (Z.leb_spec (k + 1) 971) as [Hle | Hgt]; [| discriminate].
    intros _. rewrite H53. apply pow2_lt. lia. }
  destruct (Z.leb_spec k 971) as [Hle | Hgt]; [| discriminate].
  intros _. pose proof (pow2_le (53 + k) 1024 ltac:(lia)) as Hp.
  assert (Hlt : inject_Z n <= inject_Z (2 ^ 53 - 1)) by (rewrite <- Zle_Qle; lia).
  assert (H1 : inject_Z (2 ^ 53 - 1) == inject_Z (2 ^ 53) - 1) by reflexivity.
  nra.
Qed.

Lemma rounded_lt_top (s : bool) (q : Q) :
  0 < q -> F64.is_finite (F64.round_pos s q) = true -> rounded q < F64.pow2 1024.
Proof.
  intros Hq Hf. unfold rounded, magnitude.
  eapply Qle_lt_trans; [apply Q.le_min_l |].
  apply (make_finite_lt s); [| exact Hf].
  split; [apply units_nonneg | apply units_upper]; exact Hq.
Qed.

Lemma ext_abs_le (s : bool) (q : Q) :
  - F64.pow2 1024 <= F64.ext (F64.round s q) /\
  F64.ext (F64.round s q) <= F64.pow2 1024.
Proof.
  rewrite ext_round. pose proof (pow2_pos 1024) as Hp.
  destruct (Qcompare_spec q 0) as [H | H | H].
  - lra.
  - pose proof (rounded_nonneg (- q) ltac:(lra)).
    pose proof (rounded_le_top (- q)). lra.
  - pose proof (rounded_nonneg q H). pose proof (rounded_le_top q). lra.
Qed.

Lemma round_in_range (s : bool) (q : Q) : in_range (F64.round s q).
Proof.
  split; [apply round_not_nan |]. intros Hf.
  pose proof (ext_round s q) as He. pose proof (pow2_pos 1024) as Hp.
  unfold F64.round in Hf.
  destruct (Qcompare_spec q 0) as [H | H | H].
  - rewrite He. lra.
  - pose proof (rounded_lt_top true (- q) ltac:(lra) Hf).
    pose proof (rounded_nonneg (- q) ltac:(lra)). rewrite He. lra.
  - pose proof (rounded_lt_top false q H Hf).
    pose proof (rounded_nonneg q H). rewrite He. lra.
Qed.

Lemma infinity_in_range (s : bool) : in_range (S754_infinity s).
Proof. split; [reflexivity | discriminate]. Qed.

Lemma zero_in_range (s : bool) : in_range (S754_zero s).
Proof.
  split; [reflexivity |]. intros _. cbn [F64.ext F64.val].
  pose proof (pow2_pos 1024). lra.
Qed.

Lemma leb_spec (x y : spec_float) :
  F64.leb x y = true <->
  F64.is_nan x = false /\ F64.is_nan y = false /\ F64.ext x <= F64.ext y.
Proof.
  unfold F64.leb. rewrite !andb_true_iff, !negb_true_iff, Qle_bool_iff. tauto.
Qed.

Lemma ext_finite (f : spec_float) :
  F64.is_finite f = true -> F64.ext f = F64.val f.
Proof. destruct f; try discriminate; reflexivity. Qed.

(** Adding a finite float keeps the order. *)
Lemma add_le_compat_r (a b z : spec_float) :
  in_range a -> in_range b -> F64.is_finite z = true ->
  F64.ext a <= F64.ext b ->
  in_range (F64.add a z) /\ in_range (F64.add b z) /\
  F64.ext (F64.add a z) <= F64.ext (F64.add b z).
Proof.
  intros [Ha Ha'] [Hb Hb'] Hz Hab. pose proof (pow2_pos 1024) as Hp.
  assert (Hadd : forall c : spec_float,
             F64.is_finite c = true ->
             in_range (F64.add c z) /\
             F64.ext (F64.add c z) == F64.ext (F64.round false (F64.val c + F64.val z))).
  { intros c Hc. destruct c as [sc | sc | | sc mc ec]; try discriminate;
      destruct z as [sz | sz | | sz mz ez]; try discriminate;
      cbn [F64.add];
      try (split; [apply round_in_range | reflexivity]).
    split; [apply zero_in_range | reflexivity]. }
  assert (Hinf : forall (c : spec_float) (s : bool),
             c = S754_infinity s -> F64.add c z = S754_infinity s).
  { intros c s ->. destruct z; try discriminate; reflexivity. }
  destruct (F64.is_finite a) eqn:Hfa; destruct (F64.is_finite b) eqn:Hfb.
  - destruct (Hadd a Hfa) as [Ra Ea]. destruct (Hadd b Hfb) as [Rb Eb].
    split; [exact Ra | split; [exact Rb |]]. rewrite Ea, Eb.
    apply round_mono. rewrite <- !ext_finite by assumption. lra.
  - destruct (Hadd a Hfa) as [Ra Ea].
    destruct b as [sb | sb | | sb mb eb]; try discriminate.
    rewrite (Hinf _ sb eq_refl).
    split; [exact Ra | split; [apply infinity_in_range |]].
    destruct sb; cbn [F64.ext] in *.
    + specialize (Ha' eq_refl). lra.
    + rewrite Ea. apply ext_abs_le.
  - destruct (Hadd b Hfb) as [Rb Eb].
    destruct a as [sa | sa | | sa ma ea]; try discriminate.
    rewrite (Hinf _ sa eq_refl).
    split; [apply infinity_in_range | split; [exact Rb |]].
    destruct sa; cbn [F64.ext] in *.
    + rewrite Eb. apply ext_abs_le.
    + specialize (Hb' eq_refl). lra.
  - destruct a as [sa | sa | | sa ma ea]; try discriminate;
      destruct b as [sb | sb | | sb mb eb]; try discriminate.
    rewrite (Hinf _ sa eq_refl), (Hinf _ sb eq_refl).
    split; [apply infinity_in_range | split; [apply infinity_in_range |]].
    exact Hab.
Qed.

(** Multiplying two positive finite floats by a float that is not negative
    keeps their order. *)
Lemma mul_le_compat_r (a b c : spec_float) :
  F64.is_finite a = true -> F64.is_finite b = true ->
  0 < F64.val a -> F64.val a <= F64.val b ->
  F64.leb (S754_zero false) c = true ->
  in_range (F64.mul a c) /\ in_range (F64.mul b c) /\
  F64.ext (F64.mul a c) <= F64.ext (F64.mul b c).
Proof.
  intros Ha Hb Hpa Hab Hc. apply leb_spec in Hc. destruct Hc as [_ [Hcn Hc]].
  cbn [F64.ext F64.val] in Hc.
  destruct a as [sa | sa | | sa ma ea]; try discriminate.
  destruct b as [sb | sb | | sb mb eb]; try discriminate;
    [cbn [F64.val] in Hab, Hpa; lra |].
  assert (Hsa : sa = false).
  { destruct sa; [| reflexivity]. cbn [F64.val] in Hpa.
    pose proof (pow2_pos ea). assert (0 < inject_Z (Z.pos ma)) by reflexivity. nra. }
  assert (Hsb : sb = false).
  { destruct sb; [| reflexivity]. cbn [F64.val] in Hab, Hpa.
    pose proof (pow2_pos eb). assert (0 < inject_Z (Z.pos mb)) by reflexivity. nra. }
  subst sa sb.
  destruct c as [sc | sc | | sc mc ec]; try discriminate; cbn [F64.mul].
  - split; [apply round_in_range | split; [apply round_in_range |]].
    apply round_mono. cbn [F64.val]. lra.
  - destruct sc.
    + cbn [F64.ext] in Hc. pose proof (pow2_pos 1024). lra.
    + split; [apply infinity_in_range | split; [apply infinity_in_range |]].
      cbn [F64.sign xorb F64.ext]. lra.
  - split; [apply round_in_range | split; [apply round_in_range |]].
    apply round_mono. apply Qmult_le_compat_r; [exact Hab | exact Hc].
Qed.

(** Converting integers keeps their order. *)
Lemma of_Z_mono (m n : Z) :
  (m <= n)%Z -> F64.ext (F64.of_Z m) <= F64.ext (F64.of_Z n).
Proof. intros H. apply round_mono. rewrite <- Zle_Qle. exact H. Qed.

Lemma units_ge_1 (q : Q) :
  F64.pow2 (-1074) <= q -> (1 <= F64.rne (units q))%Z.
Proof.
  intros Hq. pose proof (pow2_pos (-1074)) as Hp.
  rewrite <- (rne_inject_Z 1) at 1. apply rne_mono. apply units_le_iff.
  change (inject_Z 1) with 1. rewrite Qmult_1_l.
  destruct (ilog2_spec q ltac:(lra)) as [Hl _].
  unfold F64.ulp_exp. destruct (Z.max_spec (F64.ilog2 q - 52) (-1074)) as [[_ ->] | [_ ->]].
  - exact Hq.
  - pose proof (pow2_le (F64.ilog2 q - 52) (F64.ilog2 q) ltac:(lia)). lra.
Qed.

Lemma make_not_zero (s : bool) (n k : Z) :
  (n <> 0)%Z -> F64.is_zero (F64.make s n k) = false.
Proof.
  intros Hn. unfold F64.make. destruct (Z.eqb_spec n 0) as [? | _]; [contradiction |].
  repeat match goal with |- context [if ?b then _ else _] => destruct b end;
    reflexivity.
Qed.

(** A number of size at least [2^-1074] is not rounded to zero. *)
Lemma round_not_zero (s : bool) (q : Q) :
  F64.pow2 (-1074) <= q \/ q <= - F64.pow2 (-1074) ->
  F64.is_zero (F64.round s q) = false.
Proof.
  intros Hq. pose proof (pow2_pos (-1074)) as Hp. unfold F64.round.
  destruct (Qcompare_spec q 0) as [H | H | H].
  - destruct Hq; lra.
  - destruct Hq as [Hq | Hq]; [lra |]. unfold F64.round_pos. cbv zeta.
    apply make_not_zero. fold (units (- q)).
    pose proof (units_ge_1 (- q) ltac:(lra)). lia.
  - destruct Hq as [Hq | Hq]; [| lra]. unfold F64.round_pos. cbv zeta.
    apply make_not_zero. fold (units q).
    pose proof (units_ge_1 q Hq). lia.
Qed.

(** [float(n) != 0.0] exactly for the ints other than 0. *)
Lemma of_Z_is_zero (n : Z) : F64.is_zero (F64.of_Z n) = (n =? 0)%Z.
Proof.
  destruct (Z.eqb_spec n 0) as [-> | Hn]; [reflexivity |].
  apply round_not_zero.
  assert (H1 : F64.pow2 (-1074) <= 1).
  { change 1 with (F64.pow2 0). apply pow2_le. lia. }
  destruct (Z_lt_le_dec n 0) as [Hneg | Hpos].
  - right. assert (inject_Z n <= inject_Z (-1)) by (rewrite <- Zle_Qle; lia).
    change (inject_Z (-1)) with (- (1)) in *. lra.
  - left. assert (inject_Z 1 <= inject_Z n) by (rewrite <- Zle_Qle; lia).
    change (inject_Z 1) with 1 in *. lra.
Qed.

(** Below [2^1023] in size nothing is rounded to an infinity. *)
Lemma round_finite (s : bool) (q : Q) :
  - F64.pow2 1023 < q -> q < F64.pow2 1023 ->
  F64.is_finite (F64.round s q) = true.
Proof.
  intros Hl Hu.
  assert (Hpos : forall (t : bool) (p : Q),
             0 < p -> p < F64.pow2 1023 -> F64.is_finite (F64.round_pos t p) = true).
  { intros t p Hp Hpu. unfold F64.round_pos. cbv zeta.
    destruct (ilog2_spec p Hp) as [Hlo _].
    assert (Hlog : (F64.ilog2 p < 1023)%Z).
    { destruct (Z_lt_le_dec (F64.ilog2 p) 1023) as [? | Hge]; [assumption |].
      pose proof (pow2_le 1023 (F64.ilog2 p) Hge). lra. }
    assert (Hk : (F64.ulp_exp p <= 970)%Z) by (unfold F64.ulp_exp; lia).
    unfold F64.make.
    destruct (_ =? 0)%Z; [reflexivity |].
    destruct (_ =? 2 ^ 53)%Z.
    - destruct (Z.leb_spec (F64.ulp_exp p + 1) 971); [reflexivity | lia].
    - destruct (Z.leb_spec (F64.ulp_exp p) 971); [reflexivity | lia]. }
  unfold F64.round. destruct (Qcompare_spec q 0) as [H | H | H].
  - reflexivity.
  - apply Hpos; lra.
  - apply Hpos; lra.
Qed.

End Rounding.

(** The four operations give the floats that the standard library's
    specification of binary64 gives, on every pair of the sample floats. *)
Example operations_agree_with_SpecFloat :
  forallb (fun x =>
    forallb (fun y =>
      same_float (F64.add x y) (SFadd 53 1024 x y)
      && same_float (F64.sub x y) (SFsub 53 1024 x y)
      && same_float (F64.mul x y) (SFmul 53 1024 x y)
      && same_float (F64.div x y) (SFdiv 53 1024 x y)) sample_floats)
    sample_floats = true.
Proof. vm_compute. reflexivity. Qed.

(** [float] on texts, [int] on floats and the true division of ints, on
    inputs that round, underflow, overflow or are refused. *)
Example conversions_on_samples :
  Py.float "0.1" = Ok (S754_finite false 7205759403792794 (-56)) /\
  Py.float "1e-400" = Ok (S754_zero false) /\
  Py.float "-0" = Ok (S754_zero true) /\
  Py.float "1e400" = Ok (S754_infinity false) /\
  Py.float " -Infinity " = Ok (S754_infinity true) /\
  Py.float "NaN" = Ok S754_nan /\
  Py.float "1_0.5e1" = Ok (F64.of_Z 105) /\
  Py.float "1e" = Raise ValueError /\
  Py.float "" = Raise ValueError /\
  Py.int_of_float (fl (- (7 # 2))) = Ok (-3)%Z /\
  Py.int_of_float S754_nan = Raise ValueError /\
  Py.int_of_float (S754_infinity false) = Raise OverflowError /\
  Py.truediv_int 1 3 = Ok (S754_finite false 6004799503160661 (-54)) /\
  Py.truediv_int (10 ^ 400) 5 = Raise OverflowError /\
  Py.float_of_int (2 ^ 53 + 1) = Ok (F64.of_Z (2 ^ 53)) /\
  Py.float_of_int (10 ^ 400) = Raise OverflowError.
Proof. vm_compute. repeat split. Qed.

(** ** Coordinate indexer *)

Lemma trunc_inject_Z (q : Q) (z : Z) : (q == inject_Z z)%Q -> Py.trunc q = z.
Proof.
  destruct q as [n d]. unfold Qeq, Py.trunc. simpl. intros H.
  rewrite Z.mul_1_r in H. subst n. apply Z.quot_mul. discriminate.
Qed.

Lemma to_index_axis_grid (start k : Z) (pos : Q) :
  (pos == inject_Z (start + k * step))%Q -> to_index_axis start pos = (k + 1)%Z.
Proof.
  intros H. unfold to_index_axis. apply trunc_inject_Z. rewrite H.
  unfold step. rewrite !inject_Z_plus, inject_Z_mult. field.
Qed.

Lemma on_grid_inv (start : Z) (pos : Q) :
  on_grid start pos = true ->
  exists k : Z, (0 <= k <= 16)%Z /\ (pos == inject_Z (start + k * step))%Q.
Proof.
  unfold on_grid, grid_axis. rewrite existsb_exists.
  intros (g & Hin & Heq). apply in_map_iff in Hin as (k & <- & Hk).
  apply in_seq in Hk. apply Qeq_bool_iff in Heq.
  exists (Z.of_nat k). split; [lia | exact Heq].
Qed.

Lemma round_trip_axis (start : Z) (pos : Q) :
  on_grid start pos = true ->
  (inject_Z (to_position_axis start step (to_index_axis start pos)) == pos)%Q.
Proof.
  intros H. apply on_grid_inv in H as (k & _ & Hk).
  rewrite (to_index_axis_grid start k pos Hk), Hk.
  unfold to_position_axis. f_equiv. lia.
Qed.




(** ** Line 39 on the grid *)

Lemma on_grid_In (start x : Z) :
  on_grid start (inject_Z x) = true -> In x (grid_axis start).
Proof.
  unfold on_grid. rewrite existsb_exists. intros (g & Hg & Heq).
  apply Qeq_bool_iff in Heq. unfold Qeq in Heq. simpl in Heq.
  assert (x = g) as -> by lia. exact Hg.
Qed.

(** On the grid the floats of line 39 are exact: an int position and the
    float of the same value both get the index of the exact value. *)
Lemma position_index_grid (g : Z) :
  In g (grid_axis (-40)) ->
  position_index (-40) (PosInt g) = Ok (to_index_axis (-40) (inject_Z g)) /\
  position_index (-40) (PosFloat (F64.of_Z g))
  = Ok (to_index_axis (-40) (inject_Z g)).
Proof.
  cbn [grid_axis seq map In].
  intros H; repeat (destruct H as [<- | H]; [vm_compute; split; reflexivity |]).
  destruct H.
Qed.

Lemma position_indices_grid (x y : Z) :
  on_grid start_x (inject_Z x) = true ->
  on_grid start_y (inject_Z y) = true ->
  position_indices (PosInt x) (PosInt y)
  = Ok (to_index (inject_Z x) (inject_Z y)) /\
  position_indices (PosFloat (F64.of_Z x)) (PosFloat (F64.of_Z y))
  = Ok (to_index (inject_Z x) (inject_Z y)).
Proof.
  intros Hx Hy. apply on_grid_In in Hx. apply on_grid_In in Hy.
  destruct (position_index_grid x Hx) as [Hxi Hxf].
  destruct (position_index_grid y Hy) as [Hyi Hyf].
  unfold position_indices, start_x, start_y.
  rewrite Hxi, Hyi, Hxf, Hyf. split; reflexivity.
Qed.

Lemma generate_spectra_indices (fs : gmap string File)
    (foldername : option string) (x_pos y_pos : Position) (x_idx y_idx : Z) :
  position_indices x_pos y_pos = Ok (x_idx, y_idx) ->
  generate_spectra fs foldername x_pos y_pos
  = match foldername with
    | None => MkRun [] (Ok empty_fig_spectra)
    | Some folder =>
        root ← ET_parse fs (spectrum_path folder x_idx y_idx);
        pure (st ← read_document root; spectrum_figure folder x_pos y_pos st)
    end.
Proof.
  intros H. unfold generate_spectra. rewrite H.
  destruct foldername as [folder|]; [| reflexivity].
  unfold mbind at 1, run_bind. cbn [pure outcome opened app].
  match goal with |- context [opened ?r] => destruct r end. reflexivity.
Qed.

Lemma generate_spectra_no_index (fs : gmap string File)
    (foldername : option string) (x_pos y_pos : Position) (e : exn) :
  position_indices x_pos y_pos = Raise e ->
  generate_spectra fs foldername x_pos y_pos = MkRun [] (Raise e).
Proof. intros H. unfold generate_spectra. rewrite H. reflexivity. Qed.
(** ** Absent selections and the absent summary file *)

Lemma get_elements_absent (fs : gmap string File) (foldername : option string)
    (with_plot : bool) :
  fs !! summary_path foldername = None ->
  get_elements fs foldername with_plot
  = MkRun [summary_path foldername] (Ok (Options [])).
Proof.
  intros H. unfold get_elements, load_workbook. simpl. rewrite H. reflexivity.
Qed.

Lemma get_elements_present (fs : gmap string File)
    (foldername : option string) (with_plot : bool) (LIST_DATA : list Row) :
  fs !! summary_path foldername = Some (XlsxFile LIST_DATA) ->
  get_elements fs foldername with_plot
  = MkRun [summary_path foldername] (elements_of_table LIST_DATA with_plot).
Proof.
  intros H. unfold get_elements, load_workbook. simpl. rewrite H.
  destruct (elements_of_table LIST_DATA with_plot); reflexivity.
Qed.

Lemma generate_heatmap_absent_file (fs : gmap string File)
    (folder element : string) :
  fs !! summary_path (Some folder) = None ->
  generate_heatmap fs (Some folder) (Some element)
  = MkRun [summary_path (Some folder)] (Raise ValueError).
Proof.
  intros H. unfold generate_heatmap.
  rewrite (get_elements_absent fs (Some folder) true H). reflexivity.
Qed.

(** C7: when the summary spreadsheet of a folder does not exist,
    [get_elements(folder)], the table not requested, returns the empty list
    and raises nothing. *)
Theorem get_elements_missing_summary (fs : gmap string File)
    (foldername : option string) :
  fs !! summary_path foldername = None ->
  outcome (get_elements fs foldername false) = Ok (Options []).
Proof.
  intros H. rewrite (get_elements_absent fs foldername false H). reflexivity.
Qed.

Lemma get_elements_missing_summary_witness :
  outcome (get_elements ∅ (Some "Sample_A") false) = Ok (Options []).
Proof.
  apply (get_elements_missing_summary ∅ (Some "Sample_A")). reflexivity.
Defined.

(** C3: with the summary spreadsheet absent, [get_elements] hands the bare
    empty list back also when the table is requested, and [generate_heatmap],
    which unpacks a pair from it, ends in a ValueError instead of a plot. *)
Theorem generate_heatmap_missing_summary_raises :
  get_elements ∅ (Some "Sample_A") true
  = MkRun ["./data/EDX/Sample_A/Global spectrum results.xlsx"] (Ok (Options []))
  /\ generate_heatmap ∅ (Some "Sample_A") (Some "Fe")
     = MkRun ["./data/EDX/Sample_A/Global spectrum results.xlsx"]
         (Raise ValueError).
Proof.
  split.
  - exact (get_elements_absent ∅ (Some "Sample_A") true eq_refl).
  - exact (generate_heatmap_absent_file ∅ "Sample_A" "Fe" eq_refl).
Qed.

(** C6, as the code has it: with no folder selected [generate_spectra]
    computes the scan index of the position first (line 39) and returns its
    fixed-size empty plot, without opening a file, exactly when that
    computation succeeds, as it does on every grid position; when it raises,
    the call raises. [generate_heatmap] returns its fixed-size empty plot
    without opening a file when the folder or the element is absent; for an
    element that is not among the options of a folder whose table was read
    it returns the empty plot after opening the summary file. *)
Theorem absent_selection_empty_plot :
  (forall fs x_pos y_pos ij,
      position_indices x_pos y_pos = Ok ij ->
      generate_spectra fs None x_pos y_pos = MkRun [] (Ok empty_fig_spectra)) /\
  (forall fs x_pos y_pos e,
      position_indices x_pos y_pos = Raise e ->
      generate_spectra fs None x_pos y_pos = MkRun [] (Raise e)) /\
  (forall fs x y,
      on_grid start_x (inject_Z x) = true ->
      on_grid start_y (inject_Z y) = true ->
      generate_spectra fs None (PosInt x) (PosInt y)
      = MkRun [] (Ok empty_fig_spectra) /\
      generate_spectra fs None (PosFloat (F64.of_Z x)) (PosFloat (F64.of_Z y))
      = MkRun [] (Ok empty_fig_spectra)) /\
  (forall fs element_edx,
      generate_heatmap fs None element_edx = MkRun [] (Ok empty_fig_heatmap)) /\
  (forall fs folderpath_edx,
      generate_heatmap fs folderpath_edx None = MkRun [] (Ok empty_fig_heatmap)) /\
  (forall fs folder element elms LIST_DATA,
      fs !! summary_path (Some folder) = Some (XlsxFile LIST_DATA) ->
      elements_of_table LIST_DATA true = Ok (OptionsAndData elms LIST_DATA) ->
      existsb (cell_eq_str element) elms = false ->
      generate_heatmap fs (Some folder) (Some element)
      = MkRun [summary_path (Some folder)] (Ok empty_fig_heatmap)).
Proof.
  split; [| split; [| split; [| split; [| split]]]].
  - intros fs x_pos y_pos [x_idx y_idx] H.
    exact (generate_spectra_indices fs None x_pos y_pos x_idx y_idx H).
  - intros fs x_pos y_pos e H.
    exact (generate_spectra_no_index fs None x_pos y_pos e H).
  - intros fs x y Hx Hy.
    destruct (position_indices_grid x y Hx Hy) as [Hi Hf]. split.
    + exact (generate_spectra_indices fs None _ _ _ _ Hi).
    + exact (generate_spectra_indices fs None _ _ _ _ Hf).
  - intros fs [e|]; reflexivity.
  - intros fs [f|]; reflexivity.
  - intros fs folder element elms LIST_DATA Hfile Helms Hnot.
    unfold generate_heatmap.
    rewrite (get_elements_present fs (Some folder) true LIST_DATA Hfile), Helms.
    cbn. rewrite Hnot. reflexivity.
Qed.

Lemma absent_selection_empty_plot_witness :
  generate_spectra sample_fs None (PosFloat (fl 12.5)) (PosInt 3)
  = MkRun [] (Ok empty_fig_spectra) /\
  generate_heatmap sample_fs (Some "Sample_A") (Some "Co")
  = MkRun [summary_path (Some "Sample_A")] (Ok empty_fig_heatmap).
Proof.
  split.
  - eapply (proj1 absent_selection_empty_plot). vm_compute. reflexivity.
  - eapply (proj2 (proj2 (proj2 (proj2 (proj2 absent_selection_empty_plot)))));
      reflexivity.
Defined.

(** C6 as stated fails: with no folder selected and no position either,
    [generate_spectra] raises a TypeError at line 39, before the folder is
    looked at, and a position that is infinite or not a number raises as
    well; and for a folder without summary file, whose element options are
    empty, [generate_heatmap] raises instead of returning the empty plot. *)
Lemma null_selection_raises :
  generate_spectra ∅ None PosNone PosNone = MkRun [] (Raise TypeError) /\
  generate_spectra ∅ None (PosFloat S754_nan) (PosInt 0)
  = MkRun [] (Raise ValueError) /\
  generate_spectra ∅ None (PosInt 0) (PosFloat (S754_infinity false))
  = MkRun [] (Raise OverflowError) /\
  outcome (get_elements ∅ (Some "Sample_A") false) = Ok (Options []) /\
  outcome (generate_heatmap ∅ (Some "Sample_A") (Some "Fe")) = Raise ValueError.
Proof. repeat split. Qed.

(** ** The walk over a [Results] block *)

Lemma append_to_last_snoc (acc : list ResultRecord) (record : ResultRecord)
    (entry : string * option string) :
  append_to_last (acc ++ [record]) entry = Ok (acc ++ [record ++ [entry]]).
Proof.
  unfold append_to_last. rewrite last_snoc, length_app. simpl.
  replace (length acc + 1 - 1) with (length acc + 0) by lia.
  rewrite insert_app_r. reflexivity.
Qed.

Lemma append_to_last_nonempty (acc : list ResultRecord)
    (entry : string * option string) :
  acc <> [] -> exists acc', append_to_last acc entry = Ok acc' /\ acc' <> [].
Proof.
  intros Hne. destruct (exists_last Hne) as (front & record & ->).
  rewrite append_to_last_snoc. eexists; split; [reflexivity |].
  intros Heq. apply app_eq_nil in Heq as [_ Heq]. discriminate.
Qed.

Lemma int_not_IndexError (s : string) : Py.int s <> Raise IndexError.
Proof.
  unfold Py.int. destruct (Py.sign _) as [sg body].
  destruct (Py.digits body) as [[v n]|]; discriminate.
Qed.

Lemma stored_entry_not_IndexError (child : Element) :
  stored_entry child <> Raise IndexError.
Proof.
  unfold stored_entry. destruct (String.eqb _ _); [| discriminate].
  destruct (text child) as [t|]; simpl; [| discriminate].
  pose proof (int_not_IndexError t) as Hint.
  destruct (Py.int t) as [n|e]; simpl.
  - destruct (n <? 10)%Z; discriminate.
  - congruence.
Qed.

Lemma results_walk_nonempty (nodes : list Element) :
  forall acc, acc <> [] -> results_walk nodes acc <> Raise IndexError.
Proof.
  induction nodes as [|child rest IH]; intros acc Hne; simpl; [discriminate |].
  destruct (String.eqb (tag child) "Result").
  { apply IH. intros Heq. apply app_eq_nil in Heq as [_ Heq]. discriminate. }
  destruct (in_params (tag child)).
  - pose proof (stored_entry_not_IndexError child) as Hst.
    destruct (stored_entry child) as [entry|e]; simpl; [| congruence].
    destruct (append_to_last_nonempty acc entry Hne) as (acc' & -> & Hne').
    simpl. apply IH, Hne'.
  - destruct (String.eqb (tag child) "ExtResults"); [discriminate |].
    apply IH, Hne.
Qed.

Lemma results_walk_marker_first (nodes : list Element) :
  forall acc, marker_first nodes = true ->
              results_walk nodes acc <> Raise IndexError.
Proof.
  induction nodes as [|child rest IH]; intros acc Hm; simpl in *; [discriminate |].
  destruct (String.eqb (tag child) "Result").
  { apply results_walk_nonempty. intros Heq.
    apply app_eq_nil in Heq as [_ Heq]. discriminate. }
  destruct (in_params (tag child)); [discriminate |].
  destruct (String.eqb (tag child) "ExtResults"); [discriminate |].
  apply IH, Hm.
Qed.

Lemma stored_entry_ok (child : Element) :
  negb (String.eqb (tag child) "Atom") || is_ok (Py.int_opt (text child)) = true ->
  exists entry, stored_entry child = Ok entry.
Proof.
  unfold stored_entry. destruct (String.eqb (tag child) "Atom"); simpl.
  - destruct (Py.int_opt (text child)) as [n|e]; [| discriminate].
    intros _. simpl. destruct (n <? 10)%Z; eexists; reflexivity.
  - intros _. eexists; reflexivity.
Qed.

Lemma results_walk_total_nonempty (nodes : list Element) :
  atoms_ok nodes = true ->
  forall acc, acc <> [] -> is_ok (results_walk nodes acc) = true.
Proof.
  induction nodes as [|child rest IH]; intros Hatoms acc Hne; simpl;
    [reflexivity |].
  simpl in Hatoms. apply andb_prop in Hatoms as [Hchild Hrest].
  destruct (String.eqb (tag child) "Result").
  { apply (IH Hrest). intros Heq. apply app_eq_nil in Heq as [_ Heq].
    discriminate. }
  destruct (in_params (tag child)).
  - destruct (stored_entry_ok child Hchild) as (entry & ->). rewrite bind_Ok.
    destruct (append_to_last_nonempty acc entry Hne) as (acc' & -> & Hne').
    rewrite bind_Ok. apply (IH Hrest), Hne'.
  - destruct (String.eqb (tag child) "ExtResults"); [reflexivity |].
    apply (IH Hrest), Hne.
Qed.

Lemma results_walk_total_marker_first (nodes : list Element) :
  marker_first nodes = true ->
  atoms_ok nodes = true ->
  forall acc, is_ok (results_walk nodes acc) = true.
Proof.
  induction nodes as [|child rest IH]; intros Hm Hatoms acc; simpl in *;
    [reflexivity |].
  apply andb_prop in Hatoms as [_ Hrest].
  destruct (String.eqb (tag child) "Result").
  { apply (results_walk_total_nonempty rest Hrest). intros Heq.
    apply app_eq_nil in Heq as [_ Heq]. discriminate. }
  destruct (in_params (tag child)); [discriminate |].
  destruct (String.eqb (tag child) "ExtResults"); [reflexivity |].
  apply (IH Hm Hrest).
Qed.

Lemma results_walk_first_access (nodes : list Element) (child : Element) :
  first_access nodes = Some child ->
  marker_first nodes = false /\
  results_walk nodes [] = (_ ← stored_entry child; Raise IndexError).
Proof.
  induction nodes as [|n rest IH]; simpl; [discriminate |].
  destruct (String.eqb (tag n) "Result"); [discriminate |].
  destruct (in_params (tag n)).
  - intros [= ->]. split; [reflexivity |].
    destruct (stored_entry child); reflexivity.
  - destruct (String.eqb (tag n) "ExtResults"); [discriminate |]. exact IH.
Qed.

(** C8, as the code has it: an [Atom] whose text converts to a number below
    10 is stored as that text with one ["0"] in front, two characters when
    the text is a single digit; an [Atom] of 10 or more keeps its text. The
    entry goes to the end of the record started last. *)
Theorem atom_below_ten_gets_zero_prefix (child : Element) (t : string) (n : Z)
    (rest : list Element) (acc : list ResultRecord) (record : ResultRecord) :
  tag child = "Atom" ->
  text child = Some t ->
  Py.int t = Ok n ->
  let stored := if (n <? 10)%Z then "0" +:+ t else t in
  stored_entry child = Ok ("Atom", Some stored) /\
  results_walk (child :: rest) (acc ++ [record])
  = results_walk rest (acc ++ [record ++ [("Atom", Some stored)]]) /\
  ((n < 10)%Z -> String.length t = 1 -> String.length stored = 2) /\
  ((10 <= n)%Z -> stored = t).
Proof.
  intros Htag Htext Hint stored.
  assert (Hst : stored_entry child = Ok ("Atom", Some stored)).
  { unfold stored_entry, stored. rewrite Htag, Htext. simpl. rewrite Hint.
    simpl. destruct (n <? 10)%Z; reflexivity. }
  split; [exact Hst |]. split; [| split].
  - simpl. rewrite Hst, Htag. simpl. rewrite append_to_last_snoc. reflexivity.
  - intros Hlt Hlen. unfold stored.
    destruct (Z.ltb_spec n 10); [| lia].
    change (S (String.length t) = 2). rewrite Hlen. reflexivity.
  - intros Hge. unfold stored. destruct (Z.ltb_spec n 10); [lia | reflexivity].
Qed.

Lemma atom_below_ten_gets_zero_prefix_witness :
  stored_entry (Elem "Atom" ∅ (Some "7") []) = Ok ("Atom", Some "07") /\
  results_walk [Elem "Atom" ∅ (Some "7") []] ([] ++ [[]])
  = results_walk [] ([] ++ [[] ++ [("Atom", Some "07")]]) /\
  ((7 < 10)%Z -> String.length "7" = 1 -> String.length "07" = 2) /\
  ((10 <= 7)%Z -> "07" = "7").
Proof.
  apply (atom_below_ten_gets_zero_prefix (Elem "Atom" ∅ (Some "7") []) "7" 7
           [] [] []); reflexivity.
Defined.

(** C8 as stated fails: the text ["07"] has the value 7, below 10, and is
    stored as the three characters ["007"]. *)
Lemma atom_zero_prefix_three_characters :
  Py.int "07" = Ok 7%Z /\
  results_walk [Elem "Result" ∅ None []; Elem "Atom" ∅ (Some "07") []] []
  = Ok [[("Atom", Some "007")]] /\
  String.length "007" = 3.
Proof. repeat split. Qed.

(** C10, as the code has it: when a [Result] marker comes before the first
    kept attribute of the block, or the record list is not empty when the
    block is entered, indexing the last record never fails, and the walk
    ends normally when the [Atom] texts are integers; a kept attribute
    reached with an empty record list, before any [Result] or [ExtResults]
    marker, violates the precondition and ends the walk with an IndexError
    (or with the error of converting its [Atom] text, which comes first). *)
Theorem last_record_access (nodes : list Element) :
  (forall acc, marker_first nodes = true ->
               results_walk nodes acc <> Raise IndexError) /\
  (forall acc, marker_first nodes = true -> atoms_ok nodes = true ->
               is_ok (results_walk nodes acc) = true) /\
  (forall acc, acc <> [] -> results_walk nodes acc <> Raise IndexError) /\
  (forall child, first_access nodes = Some child ->
     marker_first nodes = false /\
     results_walk nodes [] = (_ ← stored_entry child; Raise IndexError)).
Proof.
  split; [| split; [| split]].
  - apply results_walk_marker_first.
  - intros acc Hm Hatoms. apply results_walk_total_marker_first; assumption.
  - apply results_walk_nonempty.
  - apply results_walk_first_access.
Qed.

Lemma last_record_access_witness :
  results_walk (iter (results_block [Elem "Result" ∅ None [leaf "Atom" "26"]])) []
  <> Raise IndexError /\
  is_ok (results_walk
           (iter (results_block [Elem "Result" ∅ None [leaf "Atom" "26"]])) [])
  = true /\
  results_walk (iter unmarked_block) [[("Atom", Some "26")]] <> Raise IndexError /\
  results_walk (iter unmarked_block) [] = Raise IndexError.
Proof.
  split; [| split; [| split]].
  - apply (proj1 (last_record_access _)). reflexivity.
  - apply (proj1 (proj2 (last_record_access _))); reflexivity.
  - apply (proj1 (proj2 (proj2 (last_record_access _)))). discriminate.
  - apply (proj2 (proj2 (proj2 (last_record_access (iter unmarked_block))))
             (leaf "Atom" "27")).
    reflexivity.
Defined.

(** C10 as stated fails: the second block of [two_results_blocks] has no
    [Result] marker before its [Atom], yet the access is defined, the entry
    joining the record that the first block started; and in [cut_block] the
    walk stops at [ExtResults] before the access. *)
Lemma unmarked_block_access_defined :
  marker_first (iter unmarked_block) = false /\
  results_ext <$> read_document two_results_blocks
  = Ok [[("Atom", Some "26"); ("Atom", Some "27")]] /\
  marker_first (iter cut_block) = false /\
  results_walk (iter cut_block) [] = Ok [].
Proof. repeat split. Qed.

(** ** The spectrum series *)

Lemma channels_from_total (k : nat) (es ze : spec_float)
    (fields : list string) :
  forallb (fun field => is_ok (Py.int field)) fields = true ->
  exists sp, channels_from k es ze fields = Ok sp.
Proof.
  revert k. induction fields as [|field rest IH]; intros k Hall; simpl.
  - eexists; reflexivity.
  - simpl in Hall. apply andb_prop in Hall as [Hf Hrest].
    destruct (Py.int field) as [c|e]; [| discriminate]. simpl.
    destruct (IH (S k) Hrest) as (tl & ->). simpl. eexists; reflexivity.
Qed.

Lemma channels_from_spec (k : nat) (es ze : spec_float)
    (fields : list string) (sp : list (spec_float * Z)) :
  channels_from k es ze fields = Ok sp ->
  map fst sp = map (channel_energy es ze) (seq k (length fields)) /\
  Forall2 (fun field n => Py.int field = Ok n) fields (map snd sp).
Proof.
  revert k sp. induction fields as [|field rest IH]; intros k sp; simpl.
  - intros [= <-]. split; [reflexivity | constructor].
  - destruct (Py.int field) as [c0|err] eqn:Hint; [| discriminate]. simpl.
    destruct (channels_from (S k) es ze rest) as [tl|err] eqn:Htl;
      [| discriminate].
    simpl. intros [= <-]. destruct (IH (S k) tl Htl) as [Hfst Hsnd].
    split.
    + simpl. rewrite Hfst. f_equal. unfold channel_energy.
      replace (Z.of_nat (k + 1)) with (Z.of_nat k + 1)%Z by lia. reflexivity.
    + simpl. constructor; assumption.
Qed.

Lemma forallb_snd {A B : Type} (f : B -> bool) (pairs : list (A * B)) :
  forallb f (map snd pairs) = forallb (fun p => f (snd p)) pairs.
Proof.
  induction pairs as [|p rest IH]; simpl; [reflexivity |].
  rewrite IH. reflexivity.
Qed.

Lemma np_array_spec (pairs : list (spec_float * Z)) :
  map fst (np_array pairs) = map fst pairs /\
  map snd (np_array pairs) = stored_counts (map snd pairs).
Proof.
  unfold np_array, stored_counts, fixed_width.
  rewrite forallb_snd.
  destruct (forallb _ pairs); rewrite !map_map; split; reflexivity.
Qed.

Section EnergyOrder.
Local Open Scope Q_scope.

Lemma of_Z_positive (n : Z) :
  (0 < n < 2 ^ 1023)%Z ->
  F64.is_finite (F64.of_Z n) = true /\ 1 <= F64.val (F64.of_Z n).
Proof.
  intros Hn.
  assert (Hf : F64.is_finite (F64.of_Z n) = true).
  { apply round_finite.
    - pose proof (pow2_pos 1023). assert (0 <= inject_Z n).
      { rewrite <- (Zle_Qle 0). lia. }
      change (inject_Z 0) with 0 in *. lra.
    - rewrite (pow2_inject 1023) by lia. rewrite <- Zlt_Qlt. lia. }
  split; [exact Hf |]. rewrite <- (ext_finite _ Hf).
  apply Qle_trans with (F64.ext (F64.of_Z 1)).
  - vm_compute. discriminate.
  - apply of_Z_mono. lia.
Qed.

(** With a step that is not negative and a finite offset the energy never
    gets smaller from a channel to a later one. *)
Lemma channel_energy_le (es ze : spec_float) (i j : nat) :
  F64.leb (S754_zero false) es = true ->
  F64.is_finite ze = true ->
  (i <= j)%nat -> (Z.of_nat (j + 1) < 2 ^ 1023)%Z ->
  F64.le (channel_energy es ze i) (channel_energy es ze j).
Proof.
  intros Hes Hze Hij Hj. unfold channel_energy, F64.le.
  destruct (of_Z_positive (Z.of_nat (i + 1)) ltac:(lia)) as [Hfi Hvi].
  destruct (of_Z_positive (Z.of_nat (j + 1)) ltac:(lia)) as [Hfj Hvj].
  assert (Hval : F64.val (F64.of_Z (Z.of_nat (i + 1)))
                 <= F64.val (F64.of_Z (Z.of_nat (j + 1)))).
  { rewrite <- !ext_finite by assumption. apply of_Z_mono. lia. }
  destruct (mul_le_compat_r _ _ es Hfi Hfj ltac:(lra) Hval Hes)
    as (Ri & Rj & Hmul).
  destruct (add_le_compat_r _ _ ze Ri Rj Hze Hmul) as ([Hni _] & [Hnj _] & Hadd).
  apply leb_spec. split; [exact Hni | split; [exact Hnj | exact Hadd]].
Qed.

End EnergyOrder.

(** C9, as the code has it: at a [Channels] element whose comma-separated
    fields are all integers, the series has one (energy, counts) pair per
    field; the energy of channel [i] is [(i+1) * energy_step + zero_energy]
    in floats, for the calibration read so far; the counts are the floats
    nearest to the integers of the fields (the integers themselves when one
    of them does not fit 64 bits); and the energies never decrease when
    [energy_step >= 0] and [zero_energy] is finite. *)
Theorem channels_series (st : Locals) (elm : Element) (txt : string) :
  tag elm = "Channels" ->
  text elm = Some txt ->
  forallb (fun field => is_ok (Py.int field)) (Py.split "," txt) = true ->
  exists counts sp,
    Forall2 (fun field n => Py.int field = Ok n) (Py.split "," txt) counts /\
    document_step st elm
    = Ok (MkLocals (voltage st) (working_distance st) (energy_step st)
            (zero_energy st) (Some sp) (results_ext st) (element_list st)
            (name_elm st) (nb_elm st)) /\
    length sp = length (Py.split "," txt) /\
    map fst sp
    = map (channel_energy (energy_step st) (zero_energy st))
        (seq 0 (length (Py.split "," txt))) /\
    map snd sp = stored_counts counts /\
    (F64.leb (S754_zero false) (energy_step st) = true ->
     F64.is_finite (zero_energy st) = true ->
     (Z.of_nat (length (Py.split "," txt)) < 2 ^ 1023)%Z ->
     forall i j ei ej, i < j ->
       map fst sp !! i = Some ei -> map fst sp !! j = Some ej -> F64.le ei ej).
Proof.
  intros Htag Htext Hall.
  destruct (channels_from_total 0 (energy_step st) (zero_energy st) _ Hall)
    as (pairs & Hpairs).
  destruct (channels_from_spec 0 _ _ _ pairs Hpairs) as [Hfst Hsnd].
  destruct (np_array_spec pairs) as [Hnfst Hnsnd].
  assert (Henergies : map fst (np_array pairs)
                      = map (channel_energy (energy_step st) (zero_energy st))
                          (seq 0 (length (Py.split "," txt))))
    by (rewrite Hnfst; exact Hfst).
  exists (map snd pairs), (np_array pairs).
  split; [exact Hsnd |]. split; [| split; [| split; [exact Henergies | split]]].
  - unfold document_step, read_channels. rewrite Htag, Htext. simpl.
    rewrite Hpairs. reflexivity.
  - rewrite <- (length_map fst), Henergies, length_map, length_seq. reflexivity.
  - exact Hnsnd.
  - intros Hes Hze Hlen i j ei ej Hij. rewrite Henergies, !list_lookup_fmap.
    destruct (seq 0 _ !! i) as [i'|] eqn:Hi; [| discriminate].
    destruct (seq 0 _ !! j) as [j'|] eqn:Hj; [| discriminate].
    apply lookup_seq in Hi as [-> _]. apply lookup_seq in Hj as [-> Hjlen].
    simpl. intros [= <-] [= <-].
    apply channel_energy_le; [exact Hes | exact Hze | lia | lia].
Qed.

Lemma channels_series_witness :
  exists counts sp,
    Forall2 (fun field n => Py.int field = Ok n) (Py.split "," "1,2") counts /\
    document_step (calibrated (fl 0.1) (fl 5)) (leaf "Channels" "1,2")
    = Ok (MkLocals 0%Z None (fl 0.1) (fl 5) (Some sp) [] [] None None) /\
    length sp = length (Py.split "," "1,2") /\
    map fst sp
    = map (channel_energy (fl 0.1) (fl 5)) (seq 0 (length (Py.split "," "1,2"))) /\
    map snd sp = stored_counts counts /\
    (F64.leb (S754_zero false) (fl 0.1) = true ->
     F64.is_finite (fl 5) = true ->
     (Z.of_nat (length (Py.split "," "1,2")) < 2 ^ 1023)%Z ->
     forall i j ei ej, i < j ->
       map fst sp !! i = Some ei -> map fst sp !! j = Some ej -> F64.le ei ej).
Proof.
  apply (channels_series (calibrated (fl 0.1) (fl 5)) (leaf "Channels" "1,2")
           "1,2");
    reflexivity.
Defined.

(** C9 as stated fails: with the energy step -1 read from the file the
    energies of successive channels go down, and with a step as small as
    1e-20 next to the offset 1 they stay where they are; a count above 2^53
    is stored as the float next to it. *)
Lemma negative_step_energies_decrease :
  edx_spectra <$> read_document negative_step
  = Ok (Some [(F64.of_Z (-1), NFloat (F64.of_Z 1));
              (F64.of_Z (-2), NFloat (F64.of_Z 2))]) /\
  F64.leb (F64.of_Z (-1)) (F64.of_Z (-2)) = false /\
  edx_spectra <$> read_document tiny_step
  = Ok (Some [(F64.of_Z 1, NFloat (F64.of_Z 1));
              (F64.of_Z 1, NFloat (F64.of_Z 2))]) /\
  read_channels (S754_zero false) (S754_zero false) (Some "9007199254740993")
  = Ok [(S754_zero false, NFloat (F64.of_Z 9007199254740992))].
Proof. vm_compute. repeat split. Qed.

(** ** Calibration and the order of the document *)

Lemma elements_walk_spectra (nodes : list Element) :
  forall st st', elements_walk nodes st = Ok st' ->
                 edx_spectra st' = edx_spectra st /\
                 energy_step st' = energy_step st /\
                 zero_energy st' = zero_energy st.
Proof.
  induction nodes as [|child rest IH]; intros st st'; simpl.
  - intros [= <-]. repeat split.
  - destruct (bool_decide _); [| apply IH].
    destruct (last_element_text _ _) as [t|]; [| discriminate].
    destruct (Py.int_opt t) as [n|e]; simpl; [| discriminate].
    intros H. apply IH in H. exact H.
Qed.

Lemma document_step_spectra (st st' : Locals) (elm : Element) :
  String.eqb (tag elm) "Channels" = false ->
  document_step st elm = Ok st' ->
  edx_spectra st' = edx_spectra st.
Proof.
  intros Hch. unfold document_step. rewrite Hch.
  destruct (String.eqb (tag elm) "PrimaryEnergy"); [scalar_case |].
  destruct (String.eqb (tag elm) "WorkingDistance"); [scalar_case |].
  destruct (String.eqb (tag elm) "CalibLin"); [scalar_case |].
  destruct (String.eqb (tag elm) "CalibAbs"); [scalar_case |].
  destruct (String.eqb (tag elm) "ClassInstance"); simpl;
    [| intros [= <-]; reflexivity].
  destruct (bool_decide (get elm "Name" = Some "Results")).
  { destruct (results_walk _ _); simpl;
      [intros [= <-]; reflexivity | discriminate]. }
  destruct (bool_decide (get elm "Name" = Some "Elements")).
  - intros H. apply elements_walk_spectra in H. tauto.
  - intros [= <-]. reflexivity.
Qed.

Lemma document_walk_app (front back : list Element) :
  forall st,
    document_walk (front ++ back) st
    = (st' ← document_walk front st; document_walk back st').
Proof.
  induction front as [|elm rest IH]; intros st; simpl; [reflexivity |].
  destruct (document_step st elm) as [st1|e]; simpl; [apply IH | reflexivity].
Qed.

Lemma document_walk_spectra (nodes : list Element) :
  no_channels nodes = true ->
  forall st st', document_walk nodes st = Ok st' ->
                 edx_spectra st' = edx_spectra st.
Proof.
  induction nodes as [|elm rest IH]; simpl; intros Hno st st'.
  - intros [= <-]. reflexivity.
  - apply andb_prop in Hno as [Helm Hrest].
    apply negb_true_iff in Helm.
    destruct (document_step st elm) as [st1|e] eqn:Hstep; simpl;
      [| discriminate].
    intros Hwalk. rewrite (IH Hrest st1 st' Hwalk).
    exact (document_step_spectra st st1 elm Helm Hstep).
Qed.

(** What one element does to the calibration: a [CalibLin] sets the energy
    step to the float of its text, a [CalibAbs] the zero energy, and every
    other element leaves both as they are. *)
Lemma document_step_calibration (st st' : Locals) (elm : Element) :
  document_step st elm = Ok st' ->
  (if String.eqb (tag elm) "CalibLin"
   then Py.float_opt (text elm) = Ok (energy_step st')
   else energy_step st' = energy_step st) /\
  (if String.eqb (tag elm) "CalibAbs"
   then Py.float_opt (text elm) = Ok (zero_energy st')
   else zero_energy st' = zero_energy st).
Proof.
  unfold document_step.
  destruct (String.eqb_spec (tag elm) "PrimaryEnergy") as [-> | _].
  { cbn [String.eqb Ascii.eqb Bool.eqb].
    destruct (Py.float_opt (text elm)) as [v|]; simpl; [| discriminate].
    destruct (Py.int_of_float v); simpl; [| discriminate].
    intros [= <-]. split; reflexivity. }
  destruct (String.eqb_spec (tag elm) "WorkingDistance") as [-> | _].
  { cbn [String.eqb Ascii.eqb Bool.eqb].
    destruct (Py.float_opt (text elm)) as [v|]; simpl; [| discriminate].
    intros [= <-]. split; reflexivity. }
  destruct (String.eqb_spec (tag elm) "CalibLin") as [-> | _].
  { cbn [String.eqb Ascii.eqb Bool.eqb].
    destruct (Py.float_opt (text elm)) as [v|]; simpl; [| discriminate].
    intros [= <-]. split; reflexivity. }
  destruct (String.eqb (tag elm) "CalibAbs").
  { destruct (Py.float_opt (text elm)) as [v|]; simpl; [| discriminate].
    intros [= <-]. split; reflexivity. }
  destruct (String.eqb (tag elm) "Channels").
  { destruct (read_channels _ _ _); simpl; [| discriminate].
    intros [= <-]. split; reflexivity. }
  destruct (String.eqb (tag elm) "ClassInstance"); simpl;
    [| intros [= <-]; split; reflexivity].
  destruct (bool_decide (get elm "Name" = Some "Results")).
  { destruct (results_walk _ _); simpl; [| discriminate].
    intros [= <-]. split; reflexivity. }
  destruct (bool_decide (get elm "Name" = Some "Elements")).
  - intros H. apply elements_walk_spectra in H. tauto.
  - intros [= <-]. split; reflexivity.
Qed.

(** After a walk the calibration is the one met last. *)
Lemma document_walk_calibration (nodes : list Element) :
  forall st st',
    document_walk nodes st = Ok st' ->
    match last_tagged "CalibLin" nodes with
    | Some e => Py.float_opt (text e)
    | None => Ok (energy_step st)
    end = Ok (energy_step st') /\
    match last_tagged "CalibAbs" nodes with
    | Some e => Py.float_opt (text e)
    | None => Ok (zero_energy st)
    end = Ok (zero_energy st').
Proof.
  induction nodes as [|elm rest IH]; intros st st'.
  - simpl. intros [= <-]. split; reflexivity.
  - cbn [document_walk last_tagged].
    destruct (document_step st elm) as [st1|e] eqn:Hstep; [| discriminate].
    rewrite bind_Ok. intros Hwalk.
    destruct (IH st1 st' Hwalk) as [Hlin Habs].
    destruct (document_step_calibration st st1 elm Hstep) as [Hl Ha].
    split.
    + destruct (last_tagged "CalibLin" rest); [exact Hlin |].
      destruct (String.eqb (tag elm) "CalibLin"); congruence.
    + destruct (last_tagged "CalibAbs" rest); [exact Habs |].
      destruct (String.eqb (tag elm) "CalibAbs"); congruence.
Qed.

(** C2, as the code has it: the series is computed when the [Channels]
    element is met, with the [CalibLin] and [CalibAbs] values met last
    before it in document order (0.0 for a field not met yet); what follows
    the last [Channels] element, calibration fields included, does not
    change the series that the figure shows. *)
Theorem spectrum_uses_calibration_met_before
    (fs : gmap string File) (folder : string) (x_pos y_pos : Position)
    (x_idx y_idx : Z) (root : Element) (before after : list Element)
    (ch : Element) :
  position_indices x_pos y_pos = Ok (x_idx, y_idx) ->
  fs !! spectrum_path folder x_idx y_idx = Some (SpxFile root) ->
  iter root = before ++ ch :: after ->
  tag ch = "Channels" ->
  no_channels after = true ->
  is_ok (read_document root) = true ->
  exists energy_step zero_energy sp,
    calibration_met "CalibLin" before = Ok energy_step /\
    calibration_met "CalibAbs" before = Ok zero_energy /\
    read_channels energy_step zero_energy (text ch) = Ok sp /\
    outcome (generate_spectra fs (Some folder) x_pos y_pos)
    = Ok (MkFigure [Scatter (Some (map fst sp)) (Some (map snd sp))
                      (Some "purple")]
            (Some (SpectrumTitle folder x_pos y_pos)) None None).
Proof.
  intros Hidx Hfile Hiter Htag Hafter Hok.
  rewrite (generate_spectra_indices fs (Some folder) x_pos y_pos _ _ Hidx).
  unfold mbind at 1, run_bind, ET_parse. cbn [outcome opened].
  rewrite Hfile. cbn [outcome pure].
  unfold read_document in *. rewrite Hiter in *.
  rewrite document_walk_app in *.
  destruct (document_walk before initial_locals) as [st1|e] eqn:Hbefore;
    [| discriminate].
  rewrite bind_Ok in *. cbn [document_walk] in *.
  destruct (document_walk_calibration before _ _ Hbefore) as [Hlin Habs].
  unfold document_step in *. rewrite Htag in *.
  cbn [String.eqb Ascii.eqb Bool.eqb] in *.
  destruct (read_channels (energy_step st1) (zero_energy st1) (text ch))
    as [sp|e] eqn:Hsp; [| discriminate].
  rewrite !bind_Ok in *. cbv beta in *.
  match type of Hok with
  | is_ok (document_walk after ?s) = true =>
      destruct (document_walk after s) as [st2|e] eqn:Hwalk; [| discriminate];
      pose proof (document_walk_spectra after Hafter s st2 Hwalk) as Hsame
  end.
  exists (energy_step st1), (zero_energy st1), sp.
  split; [exact Hlin |]. split; [exact Habs |]. split; [exact Hsp |].
  rewrite bind_Ok. unfold spectrum_figure. rewrite Hsame. reflexivity.
Qed.

Lemma spectrum_uses_calibration_met_before_witness :
  exists energy_step zero_energy sp,
    calibration_met "CalibLin"
      [calibration_first; leaf "CalibAbs" "5"; leaf "CalibLin" "10"]
    = Ok energy_step /\
    calibration_met "CalibAbs"
      [calibration_first; leaf "CalibAbs" "5"; leaf "CalibLin" "10"]
    = Ok zero_energy /\
    read_channels energy_step zero_energy (Some "1,2") = Ok sp /\
    outcome (generate_spectra
               {[ spectrum_path "Sample_A" 1 1 := SpxFile calibration_first ]}
               (Some "Sample_A") (PosInt (-40)) (PosInt (-40)))
    = Ok (MkFigure [Scatter (Some (map fst sp)) (Some (map snd sp))
                      (Some "purple")]
            (Some (SpectrumTitle "Sample_A" (PosInt (-40)) (PosInt (-40))))
            None None).
Proof.
  apply (spectrum_uses_calibration_met_before
           {[ spectrum_path "Sample_A" 1 1 := SpxFile calibration_first ]}
           "Sample_A" (PosInt (-40)) (PosInt (-40)) 1 1 calibration_first
           [calibration_first; leaf "CalibAbs" "5"; leaf "CalibLin" "10"] []
           (leaf "Channels" "1,2"));
    reflexivity.
Defined.

(** C2 as stated fails: [calibration_first] and [calibration_last] hold the
    same elements, and the series differ: with the calibration after
    [Channels] every energy is 0. *)
Lemma calibration_order_changes_spectrum :
  outcome (generate_spectra
             {[ spectrum_path "Sample_A" 1 1 := SpxFile calibration_first ]}
             (Some "Sample_A") (PosInt (-40)) (PosInt (-40)))
  = Ok (MkFigure [Scatter (Some [F64.of_Z 15; F64.of_Z 25])
                    (Some [NFloat (F64.of_Z 1); NFloat (F64.of_Z 2)])
                    (Some "purple")]
          (Some (SpectrumTitle "Sample_A" (PosInt (-40)) (PosInt (-40))))
          None None) /\
  outcome (generate_spectra
             {[ spectrum_path "Sample_A" 1 1 := SpxFile calibration_last ]}
             (Some "Sample_A") (PosInt (-40)) (PosInt (-40)))
  = Ok (MkFigure [Scatter (Some [S754_zero false; S754_zero false])
                    (Some [NFloat (F64.of_Z 1); NFloat (F64.of_Z 2)])
                    (Some "purple")]
          (Some (SpectrumTitle "Sample_A" (PosInt (-40)) (PosInt (-40))))
          None None) /\
  [F64.of_Z 15; F64.of_Z 25] <> [S754_zero false; S754_zero false].
Proof.
  split; [vm_compute; reflexivity | split; [vm_compute; reflexivity |]].
  vm_compute. discriminate.
Qed.

(** ** The element options *)

Lemma keep_quantified (index : nat) (elm : Cell) :
  0 < index ->
  readable_total elm = true ->
  (if Nat.ltb 0 index && negb (is_none elm)
   then v ← cell_float elm; Ok (negb (F64.is_zero v))
   else Ok false)
  = Ok (quantified elm).
Proof.
  intros Hpos Hread. apply Nat.ltb_lt in Hpos. rewrite Hpos.
  unfold readable_total in Hread. unfold quantified.
  destruct elm as [|s|n|f]; cbn [andb negb is_none cell_float].
  - reflexivity.
  - destruct (Py.float s); [reflexivity | discriminate].
  - unfold Py.float_of_int. apply negb_true_iff in Hread. rewrite Hread.
    rewrite bind_Ok, of_Z_is_zero. reflexivity.
  - reflexivity.
Qed.

Lemma pick_header_cons (LIST_DATA : list Row) (header : Row) (index : nat)
    (index_tab : list nat) (c : Cell) :
  LIST_DATA !! 0 = Some header ->
  header !! index = Some c ->
  pick_header LIST_DATA (index :: index_tab)
  = (cs ← pick_header LIST_DATA index_tab; Ok (c :: cs)).
Proof.
  intros Hhead Hcell. cbn [pick_header]. unfold Py.index.
  rewrite Hhead, bind_Ok. cbv beta. rewrite Hcell, bind_Ok. reflexivity.
Qed.

Lemma scan_totals_pick (LIST_DATA : list Row) (totals : Row) :
  forall seen rest_header : Row,
    LIST_DATA !! 0 = Some (seen ++ rest_header) ->
    0 < length seen ->
    length totals <= length rest_header ->
    forallb readable_total totals = true ->
    exists index_tab,
      scan_totals (length seen) totals = Ok index_tab /\
      pick_header LIST_DATA index_tab
      = Ok (map fst (List.filter (fun p => quantified (snd p))
                       (zip rest_header totals))).
Proof.
  induction totals as [|elm rest IH]; intros seen rest_header Hhead Hpos Hlen Hread.
  - exists []. split; [reflexivity |]. destruct rest_header; reflexivity.
  - destruct rest_header as [|h hs]; simpl in Hlen; [lia |].
    simpl in Hread. apply andb_prop in Hread as [Helm Hrest].
    destruct (IH (seen ++ [h]) hs) as (index_tab & Hscan & Hpick).
    + rewrite <- app_assoc. exact Hhead.
    + rewrite length_app. simpl. lia.
    + lia.
    + exact Hrest.
    + rewrite length_app in Hscan. simpl in Hscan.
      rewrite Nat.add_1_r in Hscan.
      simpl scan_totals. rewrite (keep_quantified _ elm Hpos Helm). simpl.
      rewrite Hscan. simpl.
      destruct (quantified elm) eqn:Hq.
      * eexists. split; [reflexivity |].
        rewrite (pick_header_cons LIST_DATA _ (length seen) index_tab h Hhead)
          by (apply list_lookup_middle; reflexivity).
        rewrite Hpick. reflexivity.
      * eexists. split; [reflexivity | exact Hpick].
Qed.

Lemma elements_of_table_spec (LIST_DATA : list Row) (header totals : Row)
    (with_plot : bool) :
  LIST_DATA !! 0 = Some header ->
  3 <= length LIST_DATA ->
  LIST_DATA !! (length LIST_DATA - 3) = Some totals ->
  length totals <= length header ->
  forallb readable_total (tail totals) = true ->
  elements_of_table LIST_DATA with_plot
  = Ok (if with_plot
        then OptionsAndData (element_options_spec header totals) LIST_DATA
        else Options (element_options_spec header totals)).
Proof.
  intros Hhead Hrows Htot Hlen Hread. unfold elements_of_table, Py.neg_index.
  destruct (Nat.ltb_spec (length LIST_DATA) 3) as [Hlt|_]; [lia |].
  rewrite Htot. simpl. unfold element_options_spec.
  destruct totals as [|t0 rest].
  - simpl. destruct (tail header), with_plot; reflexivity.
  - destruct header as [|h0 hs]; simpl in Hlen; [lia |].
    simpl in Hread. simpl scan_totals.
    destruct (scan_totals_pick LIST_DATA rest [h0] hs)
      as (index_tab & Hscan & Hpick);
      [exact Hhead | simpl; lia | lia | exact Hread |].
    simpl in Hscan. rewrite Hscan. simpl. rewrite Hpick. simpl.
    destruct with_plot; reflexivity.
Qed.

(** C5: for a readable summary table, [get_elements] returns exactly the
    header entries, column 0 left out, whose cell in the totals row, third
    from the end, is present and not zero, in header order. *)
Theorem get_elements_quantified_options (fs : gmap string File)
    (foldername : option string) (with_plot : bool) (LIST_DATA : list Row)
    (header totals : Row) :
  fs !! summary_path foldername = Some (XlsxFile LIST_DATA) ->
  LIST_DATA !! 0 = Some header ->
  3 <= length LIST_DATA ->
  LIST_DATA !! (length LIST_DATA - 3) = Some totals ->
  length totals <= length header ->
  forallb readable_total (tail totals) = true ->
  exists r,
    outcome (get_elements fs foldername with_plot) = Ok r /\
    elm_options_of r = element_options_spec header totals.
Proof.
  intros Hfile Hhead Hrows Htot Hlen Hread.
  rewrite (get_elements_present fs foldername with_plot LIST_DATA Hfile).
  simpl.
  rewrite (elements_of_table_spec LIST_DATA header totals with_plot
             Hhead Hrows Htot Hlen Hread).
  eexists. split; [reflexivity |]. destruct with_plot; reflexivity.
Qed.

Lemma get_elements_quantified_options_witness :
  exists r,
    outcome (get_elements mixed_fs (Some "Sample_A") false) = Ok r /\
    elm_options_of r = [CStr "Fe"; CStr "Ni"].
Proof.
  apply (get_elements_quantified_options mixed_fs (Some "Sample_A") false
           mixed_table
           [CStr "Spectrum"; CStr "Fe"; CStr "Co"; CStr "O"; CStr "Ni";
            CStr "Cu"; CStr "Zn"]
           [CStr "Mean value:"; CFloat (fl 3.5); CFloat (S754_zero true); CNone;
            CStr "3.5"; CStr "0.0"; CStr "1e-400"]);
    first [reflexivity | simpl; lia].
Defined.

(** ** Scan indices written into names and read back *)

Lemma chars_app (a b : string) :
  list_ascii_of_string (a +:+ b)
  = list_ascii_of_string a ++ list_ascii_of_string b.
Proof. induction a as [|c a IH]; simpl; [reflexivity | rewrite IH; reflexivity]. Qed.

Lemma decimal_digit_cases (c : ascii) :
  decimal_digit c = true ->
  In c ["0"; "1"; "2"; "3"; "4"; "5"; "6"; "7"; "8"; "9"]%char.
Proof.
  unfold decimal_digit. rewrite existsb_exists. intros (d & Hin & Heq).
  apply Ascii.eqb_eq in Heq. subst d. exact Hin.
Qed.

Lemma decimal_digit_facts (c : ascii) :
  decimal_digit c = true ->
  Py.is_space c = false /\ Py.is_underscore c = false /\
  (exists d, Py.digit_val c = Some d) /\
  c <> "-"%char /\ c <> "+"%char /\
  differs "(" c = true /\ differs ")" c = true /\ differs "," c = true.
Proof.
  intros H. apply decimal_digit_cases in H. simpl in H.
  repeat destruct H as [<- | H]; try contradiction;
    (repeat split; try reflexivity; try discriminate; eexists; reflexivity).
Qed.

Lemma pretty_N_char_digit (m : N) :
  (m < 10)%N ->
  decimal_digit (pretty_N_char m) = true /\
  Py.digit_val (pretty_N_char m) = Some (Z.of_N m).
Proof.
  intros Hm.
  assert (m = 0 \/ m = 1 \/ m = 2 \/ m = 3 \/ m = 4 \/ m = 5 \/ m = 6 \/ m = 7
          \/ m = 8 \/ m = 9)%N as Hcases by lia.
  repeat destruct Hcases as [-> | Hcases]; try subst m; split; reflexivity.
Qed.

Lemma pretty_N_go_chars (x : N) :
  forall s, exists ds,
    list_ascii_of_string (pretty_N_go x s) = ds ++ list_ascii_of_string s /\
    forallb decimal_digit ds = true /\
    (forall acc, digits_value acc ds
                 = (acc * 10 ^ Z.of_nat (length ds) + Z.of_N x)%Z) /\
    ((0 < x)%N -> ds <> []).
Proof.
  induction (N.lt_wf_0 x) as [x _ IH]. intros s.
  destruct (N.eq_dec x 0%N) as [-> | Hx].
  - exists []. rewrite pretty_N_go_0. split; [reflexivity |].
    split; [reflexivity |]. split; [intros acc; simpl; lia | lia].
  - assert (Hpos : (0 < x)%N) by lia.
    rewrite (pretty_N_go_step x s Hpos).
    destruct (IH (x `div` 10)%N (N.div_lt x 10 Hpos eq_refl)
                (String (pretty_N_char (x `mod` 10)) s))
      as (ds & Hchars & Hdigits & Hval & _).
    destruct (pretty_N_char_digit (x `mod` 10)%N) as [Hd Hv];
      [apply N.mod_lt; discriminate |].
    exists (ds ++ [pretty_N_char (x `mod` 10)]).
    split; [rewrite Hchars; simpl; rewrite <- app_assoc; reflexivity |].
    split; [rewrite forallb_app, Hdigits; simpl; rewrite Hd; reflexivity |].
    split.
    + intros acc. unfold digits_value in *. rewrite fold_left_app. simpl.
      rewrite Hval, Hv. simpl. rewrite length_app. simpl.
      rewrite Nat2Z.inj_add. simpl Z.of_nat. rewrite Z.pow_add_r by lia.
      change (10 ^ 1)%Z with 10%Z.
      pose proof (N.div_mod' x 10) as Hdm. lia.
    + intros _ Heq. apply app_eq_nil in Heq as [_ Heq]. discriminate.
Qed.

Lemma digits_acc_decimal (cs : list ascii) :
  forallb decimal_digit cs = true ->
  forall acc n,
    Py.digits_acc acc n false cs = Some (digits_value acc cs, n + length cs).
Proof.
  induction cs as [|c cs IH]; intros Hall acc n;
    cbn [Py.digits_acc length].
  - rewrite Nat.add_0_r. reflexivity.
  - cbn [forallb] in Hall. apply andb_prop in Hall as [Hc Hcs].
    destruct (decimal_digit_facts c Hc) as (_ & _ & (d & Hd) & _).
    rewrite Hd. rewrite (IH Hcs). unfold digits_value. cbn [fold_left].
    rewrite Hd. cbn [default]. f_equal. f_equal. lia.
Qed.

Lemma lstrip_keep (cs : list ascii) :
  forallb (fun c => negb (Py.is_space c)) cs = true -> Py.lstrip cs = cs.
Proof.
  destruct cs as [|c cs]; simpl; [reflexivity |].
  intros H. apply andb_prop in H as [Hc _]. apply negb_true_iff in Hc.
  rewrite Hc. reflexivity.
Qed.

Lemma strip_keep (cs : list ascii) :
  forallb (fun c => negb (Py.is_space c)) cs = true -> Py.strip cs = cs.
Proof.
  intros H. unfold Py.strip. rewrite (lstrip_keep cs H).
  rewrite lstrip_keep; [apply rev_involutive |].
  rewrite forallb_forall in *. intros c Hc. apply H, in_rev, Hc.
Qed.

Lemma int_of_digits (sg : list ascii) (ds : list ascii) (s : string) (v : Z) :
  list_ascii_of_string s = sg ++ ds ->
  sg = [] \/ sg = ["-"%char] ->
  forallb decimal_digit ds = true ->
  ds <> [] ->
  digits_value 0 ds = v ->
  Py.int s = Ok (if decide (sg = []) then v else - v)%Z.
Proof.
  intros Hs Hsg Hds Hne Hv. unfold Py.int. rewrite Hs.
  assert (Hsp : forallb (fun c => negb (Py.is_space c)) (sg ++ ds) = true).
  { rewrite forallb_app. apply andb_true_intro. split.
    - destruct Hsg as [-> | ->]; reflexivity.
    - rewrite forallb_forall in *. intros c Hc.
      destruct (decimal_digit_facts c (Hds c Hc)) as (-> & _). reflexivity. }
  rewrite (strip_keep _ Hsp).
  destruct ds as [|d ds]; [contradiction |].
  pose proof Hds as Hds'. simpl in Hds'. apply andb_prop in Hds' as [Hd _].
  destruct (decimal_digit_facts d Hd) as (_ & Hus & _ & Hm & Hp & _).
  destruct Hsg as [-> | ->]; simpl app.
  - assert (Hsign : Py.sign (d :: ds) = (1%Z, d :: ds)).
    { unfold Py.sign. destruct d as [[] [] [] [] [] [] [] []];
        try reflexivity; congruence. }
    rewrite Hsign. unfold Py.digits. rewrite Hus.
    rewrite (digits_acc_decimal (d :: ds) Hds 0 0), Hv.
    destruct (decide _); [| congruence]. f_equal; lia.
  - simpl Py.sign. unfold Py.digits. rewrite Hus.
    rewrite (digits_acc_decimal (d :: ds) Hds 0 0), Hv.
    destruct (decide _); [discriminate |]. f_equal; lia.
Qed.

Lemma pretty_positive_chars (p : positive) :
  exists ds,
    list_ascii_of_string (pretty (Npos p)) = ds /\
    forallb decimal_digit ds = true /\ ds <> [] /\
    digits_value 0 ds = Zpos p.
Proof.
  unfold pretty, pretty_N. destruct (decide (N.pos p = 0%N)); [discriminate |].
  destruct (pretty_N_go_chars (N.pos p) "") as (ds & Hchars & Hds & Hval & Hne).
  exists ds. simpl in Hchars. rewrite app_nil_r in Hchars.
  split; [exact Hchars |]. split; [exact Hds |]. split; [apply Hne; lia |].
  rewrite Hval. simpl. reflexivity.
Qed.

Lemma int_pretty (z : Z) : Py.int (pretty z) = Ok z.
Proof.
  destruct z as [|p|p].
  - reflexivity.
  - destruct (pretty_positive_chars p) as (ds & Hchars & Hds & Hne & Hv).
    change (pretty (Z.pos p)) with (pretty (N.pos p)).
    rewrite (int_of_digits [] ds _ (Z.pos p) Hchars (or_introl eq_refl) Hds Hne Hv).
    reflexivity.
  - destruct (pretty_positive_chars p) as (ds & Hchars & Hds & Hne & Hv).
    change (pretty (Z.neg p)) with ("-" +:+ pretty (N.pos p)).
    rewrite (int_of_digits ["-"%char] ds _ (Z.pos p)); try assumption.
    + reflexivity.
    + rewrite chars_app, Hchars. reflexivity.
    + right. reflexivity.
Qed.

Lemma pretty_numeral_chars (z : Z) :
  forallb numeral_char (list_ascii_of_string (pretty z)) = true.
Proof.
  assert (Hpos : forall p,
             forallb numeral_char (list_ascii_of_string (pretty (N.pos p))) = true).
  { intros p. destruct (pretty_positive_chars p) as (ds & -> & Hds & _).
    rewrite forallb_forall in *. intros c Hc. unfold numeral_char.
    rewrite (Hds c Hc). reflexivity. }
  destruct z as [|p|p].
  - reflexivity.
  - apply Hpos.
  - change (pretty (Z.neg p)) with ("-" +:+ pretty (N.pos p)).
    rewrite chars_app, forallb_app, Hpos. reflexivity.
Qed.

Lemma split_chars_none (sep : ascii) (cs : list ascii) :
  forallb (differs sep) cs = true ->
  forall cur,
    Py.split_chars sep cur cs = [string_of_list_ascii (rev cur ++ cs)].
Proof.
  induction cs as [|c cs IH]; intros Hall cur; simpl.
  - rewrite app_nil_r. reflexivity.
  - simpl in Hall. apply andb_prop in Hall as [Hc Hcs].
    unfold differs in Hc. apply negb_true_iff in Hc. rewrite Hc.
    rewrite (IH Hcs). simpl. rewrite <- app_assoc. reflexivity.
Qed.

Lemma split_chars_first (sep : ascii) (front back : list ascii) :
  forallb (differs sep) front = true ->
  forall cur,
    Py.split_chars sep cur (front ++ sep :: back)
    = string_of_list_ascii (rev cur ++ front) :: Py.split_chars sep [] back.
Proof.
  induction front as [|c cs IH]; intros Hall cur; simpl.
  - rewrite Ascii.eqb_refl, app_nil_r. reflexivity.
  - simpl in Hall. apply andb_prop in Hall as [Hc Hcs].
    unfold differs in Hc. apply negb_true_iff in Hc. rewrite Hc.
    rewrite (IH Hcs). simpl. rewrite <- app_assoc. reflexivity.
Qed.

Lemma split_chars_nonempty (sep : ascii) (cs : list ascii) :
  forall cur, Py.split_chars sep cur cs <> [].
Proof.
  induction cs as [|c cs IH]; intros cur; simpl; [discriminate |].
  destruct (Ascii.eqb c sep); [discriminate | apply IH].
Qed.

Lemma split_chars_last (sep : ascii) (back : list ascii) :
  forallb (differs sep) back = true ->
  forall front cur,
    last (Py.split_chars sep cur (front ++ sep :: back))
    = Some (string_of_list_ascii back).
Proof.
  intros Hback. induction front as [|c cs IH]; intros cur; simpl.
  - rewrite Ascii.eqb_refl. rewrite (split_chars_none sep back Hback []).
    reflexivity.
  - destruct (Ascii.eqb c sep); [| apply IH].
    rewrite last_cons, (IH []). reflexivity.
Qed.

Lemma neg_index_last {A : Type} (l : list A) (x : A) :
  last l = Some x -> Py.neg_index l 1 = Ok x.
Proof.
  intros H. unfold Py.neg_index. rewrite last_lookup in H.
  destruct l as [|a l]; [discriminate |]. simpl length in *.
  simpl Nat.ltb. replace (S (length l) - 1) with (Nat.pred (S (length l))) by lia.
  rewrite H. reflexivity.
Qed.

Lemma numeral_char_differs (sep : ascii) (cs : list ascii) :
  numeral_char sep = false ->
  forallb numeral_char cs = true -> forallb (differs sep) cs = true.
Proof.
  intros Hsep Hcs. rewrite forallb_forall in *. intros c Hc.
  unfold differs. apply negb_true_iff. destruct (Ascii.eqb_spec c sep) as [->|];
    [| reflexivity].
  rewrite (Hcs sep Hc) in Hsep. discriminate.
Qed.

Lemma scan_indices_chars (name : string) (front back : list ascii) (i j : Z) :
  list_ascii_of_string name
  = front ++ "("%char :: list_ascii_of_string (pretty i)
      ++ ","%char :: list_ascii_of_string (pretty j) ++ ")"%char :: back ->
  forallb (differs "(") back = true ->
  scan_indices name = Ok (i, j).
Proof.
  intros Hname Hback. unfold scan_indices, Py.split. rewrite Hname.
  pose proof (pretty_numeral_chars i) as Hi.
  pose proof (pretty_numeral_chars j) as Hj.
  assert (Htail : forallb (differs "(")
                    (list_ascii_of_string (pretty i)
                       ++ ","%char :: list_ascii_of_string (pretty j)
                       ++ ")"%char :: back) = true).
  { rewrite forallb_app. apply andb_true_intro. split;
      [apply numeral_char_differs; [reflexivity | exact Hi] |].
    cbn [forallb]. apply andb_true_intro. split; [reflexivity |].
    rewrite forallb_app. apply andb_true_intro. split;
      [apply numeral_char_differs; [reflexivity | exact Hj] |].
    cbn [forallb]. apply andb_true_intro. split; [reflexivity | exact Hback]. }
  rewrite (neg_index_last _ _ (split_chars_last "(" _ Htail front [])).
  rewrite bind_Ok, list_ascii_of_string_of_list_ascii.
  replace (list_ascii_of_string (pretty i)
             ++ ","%char :: list_ascii_of_string (pretty j) ++ ")"%char :: back)
    with ((list_ascii_of_string (pretty i)
             ++ ","%char :: list_ascii_of_string (pretty j))
            ++ ")"%char :: back)
    by (rewrite <- app_assoc; reflexivity).
  rewrite split_chars_first.
  2:{ rewrite forallb_app; apply andb_true_intro; split;
      [apply numeral_char_differs; [reflexivity | exact Hi] |].
      cbn [forallb]. apply andb_true_intro; split; [reflexivity |].
      apply numeral_char_differs; [reflexivity | exact Hj]. }
  unfold Py.index. cbn [lookup list_lookup]. rewrite bind_Ok.
  cbn [rev app]. rewrite list_ascii_of_string_of_list_ascii.
  rewrite split_chars_first
    by (apply numeral_char_differs; [reflexivity | exact Hi]).
  rewrite split_chars_none
    by (apply numeral_char_differs; [reflexivity | exact Hj]).
  cbn [rev app]. rewrite !string_of_list_ascii_of_string.
  rewrite !int_pretty. reflexivity.
Qed.

Lemma scan_indices_spectrum_path (folder : string) (i j : Z) :
  scan_indices (spectrum_path folder i j) = Ok (i, j).
Proof.
  apply (scan_indices_chars _
           (list_ascii_of_string "./data/EDX/" ++ list_ascii_of_string folder
              ++ list_ascii_of_string "/Spectrum_")
           (list_ascii_of_string ".spx")); [| reflexivity].
  unfold spectrum_path. rewrite !chars_app. rewrite <- !app_assoc.
  reflexivity.
Qed.

(** X21: the name that [generate_spectra] builds for a scan index is read back
    to the same index by the parser that [generate_heatmap] applies to the
    row names, whatever the folder is called; so is the bare row name
    [Spectrum_(i,j)]. *)
Theorem scan_indices_of_built_names (folder : string) (i j : Z) :
  scan_indices (spectrum_path folder i j) = Ok (i, j) /\
  scan_indices ("Spectrum_(" +:+ pretty i +:+ "," +:+ pretty j +:+ ")")
  = Ok (i, j).
Proof.
  split; [apply scan_indices_spectrum_path |].
  apply (scan_indices_chars _ (list_ascii_of_string "Spectrum_") []);
    [| reflexivity].
  rewrite !chars_app. reflexivity.
Qed.



Lemma scan_indices_scan_name (i j : Z) : scan_indices (scan_name i j) = Ok (i, j).
Proof.
  apply (scan_indices_chars _ (list_ascii_of_string "Spectrum_") []);
    [| reflexivity].
  unfold scan_name. rewrite !chars_app. reflexivity.
Qed.

(** ** The diamond test *)

Lemma wrap_small (z : Z) : (- 2 ^ 63 <= z < 2 ^ 63)%Z -> Np.wrap z = z.
Proof. intros H. unfold Np.wrap. rewrite Z.mod_small; lia. Qed.

Lemma abs_int64 (z : Z) :
  (- 2 ^ 63 < z < 2 ^ 63)%Z -> Np.abs z = Np.Int64 (Z.abs z).
Proof.
  intros H. unfold Np.abs, Np.of_int.
  destruct (Z.leb_spec (- 2 ^ 63) z); [| lia].
  destruct (Z.ltb_spec z (2 ^ 63)); [| lia].
  cbn [andb]. rewrite wrap_small by lia. reflexivity.
Qed.

(** Where |x| + |y| stays below 2^63 the test of line 209 is the test of
    the diamond. *)
Lemma diamond_test_exact (x y : Z) :
  no_wrap (x, y) = true ->
  Np.le_int (Np.add (Np.abs x) (Np.abs y)) 60 = in_diamond (x, y).
Proof.
  unfold no_wrap, in_diamond. cbn [fst snd]. intros H. apply Z.ltb_lt in H.
  rewrite !abs_int64 by lia. cbn [Np.add Np.le_int].
  rewrite wrap_small by lia. reflexivity.
Qed.

Lemma diamond_test_sound (x y : Z) :
  Np.le_int (Np.add (Np.abs x) (Np.abs y)) 60 = true ->
  (Z.abs x + Z.abs y <= 60)%Z \/ (2 ^ 63 <= Z.abs x + Z.abs y)%Z.
Proof.
  intros H. destruct (Z.ltb_spec (Z.abs x + Z.abs y) (2 ^ 63)) as [Hlt | Hge];
    [left | right; exact Hge].
  rewrite diamond_test_exact in H by (apply Z.ltb_lt; exact Hlt).
  apply Z.leb_le in H. exact H.
Qed.

Lemma to_position_scan (i j : Z) :
  (to_position_axis start_x step_x i, to_position_axis start_y step_y j)
  = scan_position i j.
Proof.
  unfold to_position_axis, scan_position, start_x, start_y, step_x, step_y.
  f_equal; lia.
Qed.

(** ** The heatmap points *)

Lemma points_snoc (st : Points) (i : option nat) (x y : Z) (z : spec_float) :
  aligned st ->
  let st' := MkPoints i (X_POS st ++ [x]) (Y_POS st ++ [y]) (ELM st ++ [z]) in
  aligned st' /\ points st' = points st ++ [(x, y, z)].
Proof.
  intros [Hxy Hyz]. split.
  - unfold aligned. simpl. rewrite !length_app. simpl. lia.
  - unfold points. simpl.
    rewrite (zip_with_app _ _ _ _ _ Hxy).
    rewrite zip_with_app; [reflexivity |].
    rewrite length_zip_with. lia.
Qed.

Lemma numeric_value_float (c : Cell) (z : spec_float) :
  numeric_value c = Some z -> cell_float c = Ok z.
Proof.
  destruct c as [|s|n|f]; simpl.
  - discriminate.
  - destruct (Py.float s); [intros [= <-]; reflexivity | discriminate].
  - unfold Py.float_of_int. destruct (F64.is_inf (F64.of_Z n));
      [discriminate | intros [= <-]; reflexivity].
  - intros [= <-]. reflexivity.
Qed.

Lemma unzip_points (xs ys : list Z) (zs : list spec_float) :
  length xs = length ys -> length ys = length zs ->
  map (fun p => fst (fst p)) (zip (zip xs ys) zs) = xs /\
  map (fun p => snd (fst p)) (zip (zip xs ys) zs) = ys /\
  map snd (zip (zip xs ys) zs) = zs.
Proof.
  revert ys zs. induction xs as [|x xs IH]; intros [|y ys] [|z zs];
    simpl; try discriminate; try (intros; repeat split; reflexivity).
  intros [= Hxy] [= Hyz]. destruct (IH ys zs Hxy Hyz) as (Hx & Hy & Hz).
  rewrite Hx, Hy, Hz. repeat split.
Qed.

(** The figure shows the points of the row loop. *)
Lemma heatmap_figure_points (element_edx : string) (st : Points) :
  aligned st ->
  heatmap_figure element_edx st = figure_of_points element_edx (points st).
Proof.
  intros [Hxy Hyz]. unfold heatmap_figure, figure_of_points, points.
  destruct (unzip_points _ _ _ Hxy Hyz) as (-> & -> & ->). reflexivity.
Qed.

Lemma heatmap_step_sheet (element_edx : string) (idx : nat) (st : Points)
    (r : SheetRow) :
  sheet_row_ok idx r = true ->
  index st = Some idx ->
  aligned st ->
  exists st',
    heatmap_step element_edx st (sheet_row r) = Ok st' /\
    index st' = Some idx /\
    aligned st' /\
    points st' = points st ++ sheet_point idx r.
Proof.
  intros Hok Hidx Hal. unfold heatmap_step.
  destruct r as [i j cells | name cells]; cbn [sheet_row sheet_row_ok] in *.
  - apply andb_prop in Hok as [Hwrap Hcell].
    change (Py.index (CStr (scan_name i j) :: cells) 0)
      with (Ok (A := Cell) (CStr (scan_name i j))).
    rewrite bind_Ok.
    change (cell_eq_str "Spectrum" (CStr (scan_name i j))) with false.
    change (cell_startswith (CStr (scan_name i j)) "Spectrum_")
      with (Ok (A := bool) true).
    rewrite bind_Ok. cbv iota beta.
    rewrite scan_indices_scan_name, bind_Ok. cbv iota beta.
    rewrite diamond_test_exact by (rewrite to_position_scan; exact Hwrap).
    rewrite to_position_scan. cbn [sheet_point].
    destruct (in_diamond (scan_position i j)) eqn:Hin.
    + cbn [negb orb] in Hcell. apply bool_decide_eq_true in Hcell.
      destruct Hcell as [z Hz]. rewrite Hz. rewrite Hidx.
      unfold value_at in Hz. cbn [sheet_row] in Hz. unfold Py.index.
      destruct ((CStr (scan_name i j) :: cells) !! idx) as [c|];
        [| discriminate].
      cbn in Hz. rewrite bind_Ok.
      rewrite (numeric_value_float c z Hz), bind_Ok.
      pose proof (to_position_scan i j) as Hpos.
      destruct (scan_position i j) as [x y]. injection Hpos as -> ->.
      destruct (points_snoc st (Some idx) x y z Hal) as [Hal' Hpts].
      eexists. split; [reflexivity |]. split; [reflexivity |].
      split; [exact Hal' | exact Hpts].
    + exists st. split; [reflexivity |]. split; [exact Hidx |].
      split; [exact Hal |]. rewrite app_nil_r. reflexivity.
  - apply andb_prop in Hok as [Hhead Hscan].
    apply negb_true_iff in Hhead. apply negb_true_iff in Hscan.
    change (Py.index (CStr name :: cells) 0) with (Ok (A := Cell) (CStr name)).
    rewrite bind_Ok. cbn [cell_eq_str cell_startswith]. rewrite Hhead.
    rewrite bind_Ok, Hscan.
    exists st. split; [reflexivity |]. split; [exact Hidx |].
    split; [exact Hal |]. cbn [sheet_point]. rewrite app_nil_r. reflexivity.
Qed.

Lemma heatmap_walk_sheet (element_edx : string) (idx : nat)
    (rows : list SheetRow) :
  forallb (sheet_row_ok idx) rows = true ->
  forall st, index st = Some idx -> aligned st ->
    exists st',
      heatmap_walk element_edx (map sheet_row rows) st = Ok st' /\
      aligned st' /\
      points st' = points st ++ flat_map (sheet_point idx) rows.
Proof.
  induction rows as [|r rest IH]; intros Hok st Hidx Hal.
  - exists st. split; [reflexivity |]. split; [exact Hal |].
    simpl. rewrite app_nil_r. reflexivity.
  - simpl in Hok. apply andb_prop in Hok as [Hrow Hrest].
    destruct (heatmap_step_sheet element_edx idx st r Hrow Hidx Hal)
      as (st1 & Hstep & Hidx1 & Hal1 & Hpts1).
    destruct (IH Hrest st1 Hidx1 Hal1) as (st' & Hwalk & Hal' & Hpts).
    exists st'. split; [| split; [exact Hal' |]].
    + cbn [map heatmap_walk]. rewrite Hstep, bind_Ok. exact Hwalk.
    + rewrite Hpts, Hpts1. simpl. rewrite <- app_assoc. reflexivity.
Qed.

(** [row.index] finds the first column that holds the element. *)
Lemma row_index_first (element_edx : string) (row : Row) (idx : nat) :
  row !! idx = Some (CStr element_edx) ->
  forallb (fun c => negb (cell_eq_str element_edx c)) (take idx row) = true ->
  row_index element_edx row = Ok idx.
Proof.
  revert idx. induction row as [|c rest IH]; intros [|idx]; simpl;
    try discriminate.
  - intros [= ->] _. simpl. rewrite String.eqb_refl. reflexivity.
  - intros Hidx Hfirst. apply andb_prop in Hfirst as [Hc Hrest].
    apply negb_true_iff in Hc. rewrite Hc.
    rewrite (IH idx Hidx Hrest). reflexivity.
Qed.

Lemma heatmap_step_header (element_edx : string) (idx : nat) (header : Row) :
  header !! 0 = Some (CStr "Spectrum") ->
  row_index element_edx header = Ok idx ->
  heatmap_step element_edx (MkPoints None [] [] []) header
  = Ok (MkPoints (Some idx) [] [] []).
Proof.
  intros H0 Hidx. unfold heatmap_step, Py.index. rewrite H0, bind_Ok.
  simpl. rewrite Hidx. reflexivity.
Qed.

Lemma generate_heatmap_present (fs : gmap string File)
    (folder element : string) (LIST_DATA : list Row) (elms : list Cell)
    (st : Points) :
  fs !! summary_path (Some folder) = Some (XlsxFile LIST_DATA) ->
  elements_of_table LIST_DATA true = Ok (OptionsAndData elms LIST_DATA) ->
  existsb (cell_eq_str element) elms = true ->
  heatmap_walk element LIST_DATA (MkPoints None [] [] []) = Ok st ->
  outcome (generate_heatmap fs (Some folder) (Some element))
  = Ok (heatmap_figure element st).
Proof.
  intros Hfile Helms Hin Hwalk. unfold generate_heatmap.
  rewrite (get_elements_present fs (Some folder) true LIST_DATA Hfile), Helms.
  cbn. rewrite Hin. cbn. rewrite Hwalk. reflexivity.
Qed.

(** The figure for a sheet in the documented layout. *)
Lemma generate_heatmap_sheet (fs : gmap string File)
    (folder element : string) (header : Row) (rows : list SheetRow)
    (elms : list Cell) (idx : nat) :
  fs !! summary_path (Some folder)
  = Some (XlsxFile (header :: map sheet_row rows)) ->
  elements_of_table (header :: map sheet_row rows) true
  = Ok (OptionsAndData elms (header :: map sheet_row rows)) ->
  existsb (cell_eq_str element) elms = true ->
  header !! 0 = Some (CStr "Spectrum") ->
  header !! idx = Some (CStr element) ->
  forallb (fun c => negb (cell_eq_str element c)) (take idx header) = true ->
  forallb (sheet_row_ok idx) rows = true ->
  outcome (generate_heatmap fs (Some folder) (Some element))
  = Ok (figure_of_points element (flat_map (sheet_point idx) rows)).
Proof.
  intros Hfile Helms Hin H0 Hidx Hfirst Hrows.
  pose proof (row_index_first element header idx Hidx Hfirst) as Hcol.
  destruct (heatmap_walk_sheet element idx rows Hrows
              (MkPoints (Some idx) [] [] [])) as (st & Hwalk & Hal & Hpts);
    [reflexivity | split; reflexivity |].
  rewrite (generate_heatmap_present fs folder element _ elms st Hfile Helms Hin).
  - rewrite (heatmap_figure_points element st Hal), Hpts. reflexivity.
  - cbn [heatmap_walk].
    rewrite (heatmap_step_header element idx header H0 Hcol), bind_Ok.
    exact Hwalk.
Qed.

Lemma in_sheet_points (idx : nat) (rows : list SheetRow)
    (p : Z * Z * spec_float) :
  In p (flat_map (sheet_point idx) rows) <->
  exists i j cells,
    In (ScanRow i j cells) rows /\
    in_diamond (scan_position i j) = true /\
    value_at idx (ScanRow i j cells) = Some (snd p) /\
    fst p = scan_position i j.
Proof.
  rewrite in_flat_map. split.
  - intros ([i j cells | name cells] & Hrow & Hp); cbn [sheet_point] in Hp;
      [| destruct Hp].
    destruct (in_diamond (scan_position i j)) eqn:Hin; [| destruct Hp].
    destruct (value_at idx (ScanRow i j cells)) as [z|] eqn:Hz; [| destruct Hp].
    destruct Hp as [<- | []]. exists i, j, cells. auto.
  - intros (i & j & cells & Hrow & Hin & Hz & Hxy).
    exists (ScanRow i j cells). split; [exact Hrow |].
    cbn [sheet_point]. rewrite Hin, Hz. left.
    destruct p as [xy z]. simpl in *. congruence.
Qed.

(** C4, as the code has it: for a sheet in the documented layout whose scan
    points lie within [int64] reach, and an element offered for it, the
    figure of [generate_heatmap] lists, in sheet order, the points of the
    scan-point rows whose position satisfies |x| + |y| <= 60: the point of
    such a row is in the figure exactly when its position is in the
    diamond, with [z] the numeric value of the row's cell in the element's
    column, and no point with |x| + |y| > 60 is in the figure. *)
Theorem heatmap_points_in_diamond (fs : gmap string File)
    (folder element : string) (header : Row) (rows : list SheetRow)
    (elms : list Cell) (idx : nat) :
  fs !! summary_path (Some folder)
  = Some (XlsxFile (header :: map sheet_row rows)) ->
  elements_of_table (header :: map sheet_row rows) true
  = Ok (OptionsAndData elms (header :: map sheet_row rows)) ->
  existsb (cell_eq_str element) elms = true ->
  header !! 0 = Some (CStr "Spectrum") ->
  header !! idx = Some (CStr element) ->
  forallb (fun c => negb (cell_eq_str element c)) (take idx header) = true ->
  forallb (sheet_row_ok idx) rows = true ->
  exists pts,
    outcome (generate_heatmap fs (Some folder) (Some element))
    = Ok (MkFigure [Heatmap (Some (map (fun p => fst (fst p)) pts))
                      (Some (map (fun p => snd (fst p)) pts))
                      (Some (map snd pts)) (Some "Jet")]
            (Some (HeatmapTitle element)) None None) /\
    pts = flat_map (sheet_point idx) rows /\
    (forall x y z, In (x, y, z) pts -> (Z.abs x + Z.abs y <= 60)%Z) /\
    (forall i j cells z,
        In (ScanRow i j cells) rows ->
        value_at idx (ScanRow i j cells) = Some z ->
        (In (5 * (i - 1) - 40, 5 * (j - 1) - 40, z)%Z pts <->
         (Z.abs (5 * (i - 1) - 40) + Z.abs (5 * (j - 1) - 40) <= 60)%Z)) /\
    (forall x y z, In (x, y, z) pts ->
        exists i j cells,
          In (ScanRow i j cells) rows /\
          x = (5 * (i - 1) - 40)%Z /\ y = (5 * (j - 1) - 40)%Z /\
          value_at idx (ScanRow i j cells) = Some z).
Proof.
  intros Hfile Helms Hin H0 Hidx Hfirst Hrows.
  exists (flat_map (sheet_point idx) rows).
  split; [| split; [reflexivity | split; [| split]]].
  - exact (generate_heatmap_sheet fs folder element header rows elms idx
             Hfile Helms Hin H0 Hidx Hfirst Hrows).
  - intros x y z Hp. apply in_sheet_points in Hp
      as (i & j & cells & _ & Hd & _ & Hxy).
    simpl in Hxy. rewrite <- Hxy in Hd. apply Z.leb_le in Hd. exact Hd.
  - intros i j cells z Hrow Hz. rewrite in_sheet_points. split.
    + intros (i' & j' & cells' & _ & Hd & _ & Hxy). simpl in Hxy.
      unfold in_diamond in Hd. rewrite <- Hxy in Hd. apply Z.leb_le in Hd.
      exact Hd.
    + intros Hd. exists i, j, cells. split; [exact Hrow |].
      split; [apply Z.leb_le; exact Hd |]. split; [exact Hz | reflexivity].
  - intros x y z Hp. apply in_sheet_points in Hp
      as (i & j & cells & Hrow & _ & Hz & Hxy).
    simpl in Hxy, Hz. injection Hxy as -> ->. exists i, j, cells. auto.
Qed.

Lemma heatmap_points_in_diamond_witness :
  exists pts,
    outcome (generate_heatmap mixed_fs (Some "Sample_A") (Some "Fe"))
    = Ok (MkFigure [Heatmap (Some (map (fun p => fst (fst p)) pts))
                      (Some (map (fun p => snd (fst p)) pts))
                      (Some (map snd pts)) (Some "Jet")]
            (Some (HeatmapTitle "Fe")) None None) /\
    pts = flat_map (sheet_point 1) mixed_rows /\
    (forall x y z, In (x, y, z) pts -> (Z.abs x + Z.abs y <= 60)%Z) /\
    (forall i j cells z,
        In (ScanRow i j cells) mixed_rows ->
        value_at 1 (ScanRow i j cells) = Some z ->
        (In (5 * (i - 1) - 40, 5 * (j - 1) - 40, z)%Z pts <->
         (Z.abs (5 * (i - 1) - 40) + Z.abs (5 * (j - 1) - 40) <= 60)%Z)) /\
    (forall x y z, In (x, y, z) pts ->
        exists i j cells,
          In (ScanRow i j cells) mixed_rows /\
          x = (5 * (i - 1) - 40)%Z /\ y = (5 * (j - 1) - 40)%Z /\
          value_at 1 (ScanRow i j cells) = Some z).
Proof.
  apply (heatmap_points_in_diamond mixed_fs "Sample_A" "Fe"
           [CStr "Spectrum"; CStr "Fe"; CStr "Co"; CStr "O"; CStr "Ni";
            CStr "Cu"; CStr "Zn"]
           mixed_rows [CStr "Fe"; CStr "Ni"] 1);
    reflexivity.
Defined.

(** C4 as stated fails: line 209 adds the two distances as [int64] values;
    for the row of scan point (922337203685477590, 922337203685477590),
    at x = y = 2^62 + 1, the sum wraps around to a negative number and the
    point, far outside the diamond, is in the figure. *)
Lemma far_point_in_heatmap :
  outcome (generate_heatmap far_fs (Some "Sample_A") (Some "Fe"))
  = Ok (MkFigure [Heatmap (Some [4611686018427387905%Z])
                    (Some [4611686018427387905%Z]) (Some [F64.of_Z 7])
                    (Some "Jet")]
          (Some (HeatmapTitle "Fe")) None None) /\
  ~ (Z.abs 4611686018427387905 + Z.abs 4611686018427387905 <= 60)%Z.
Proof. split; [vm_compute; reflexivity | lia]. Qed.

(** * Further properties of the module *)

(** ** The files a call opens, and the files it does not find *)

Lemma get_elements_opened (fs : gmap string File) (foldername : option string)
    (with_plot : bool) :
  opened (get_elements fs foldername with_plot) = [summary_path foldername].
Proof.
  unfold get_elements, load_workbook. simpl.
  destruct (fs !! summary_path foldername) as [[root|values|]|];
    try reflexivity.
Qed.

(** X1: each call with a selection opens exactly one file: [generate_spectra]
    the spectrum file of the scan index of the position (and no file when
    the position has no scan index, line 39 raising first), [get_elements]
    and [generate_heatmap] the summary spreadsheet of the folder; the
    heatmap never opens a spectrum file. *)
Theorem one_file_per_call (fs : gmap string File) (folder : string) :
  (forall x_pos y_pos x_idx y_idx,
      position_indices x_pos y_pos = Ok (x_idx, y_idx) ->
      opened (generate_spectra fs (Some folder) x_pos y_pos)
      = [spectrum_path folder x_idx y_idx]) /\
  (forall x_pos y_pos e,
      position_indices x_pos y_pos = Raise e ->
      generate_spectra fs (Some folder) x_pos y_pos = MkRun [] (Raise e)) /\
  (forall x y,
      on_grid start_x (inject_Z x) = true ->
      on_grid start_y (inject_Z y) = true ->
      opened (generate_spectra fs (Some folder) (PosInt x) (PosInt y))
      = [spectrum_path folder (fst (to_index (inject_Z x) (inject_Z y)))
           (snd (to_index (inject_Z x) (inject_Z y)))]) /\
  (forall with_plot,
      opened (get_elements fs (Some folder) with_plot)
      = [summary_path (Some folder)]) /\
  (forall element,
      opened (generate_heatmap fs (Some folder) (Some element))
      = [summary_path (Some folder)]).
Proof.
  assert (Hopen : forall x_pos y_pos x_idx y_idx,
             position_indices x_pos y_pos = Ok (x_idx, y_idx) ->
             opened (generate_spectra fs (Some folder) x_pos y_pos)
             = [spectrum_path folder x_idx y_idx]).
  { intros x_pos y_pos x_idx y_idx H.
    rewrite (generate_spectra_indices fs (Some folder) _ _ _ _ H).
    unfold mbind, run_bind, ET_parse. simpl.
    destruct (fs !! spectrum_path folder x_idx y_idx) as [[root|values|]|];
      reflexivity. }
  split; [exact Hopen | split; [| split; [| split]]].
  - intros x_pos y_pos e H. exact (generate_spectra_no_index fs _ _ _ e H).
  - intros x y Hx Hy. destruct (position_indices_grid x y Hx Hy) as [Hi _].
    destruct (to_index (inject_Z x) (inject_Z y)) as [x_idx y_idx].
    exact (Hopen _ _ _ _ Hi).
  - intros with_plot. apply get_elements_opened.
  - intros element. unfold generate_heatmap.
    pose proof (get_elements_opened fs (Some folder) true) as Hop.
    destruct (get_elements fs (Some folder) true) as [log [r|e]];
      simpl in Hop; subst log; [| reflexivity].
    destruct r as [l|elms LIST_DATA]; [reflexivity |].
    cbn. destruct (existsb (cell_eq_str element) elms); cbn; [| reflexivity].
    destruct (heatmap_walk element LIST_DATA _); reflexivity.
Qed.

Lemma one_file_per_call_witness :
  opened (generate_spectra sample_fs (Some "Sample_A") (PosFloat (fl 12.5))
            (PosInt 3))
  = [spectrum_path "Sample_A" 11 9].
Proof.
  apply (proj1 (one_file_per_call sample_fs "Sample_A")). vm_compute.
  reflexivity.
Defined.

(** X2: with a folder selected and the spectrum file of the position absent,
    [generate_spectra] ends in FileNotFoundError: unlike the absent summary
    file, this failure is not caught. *)
Theorem generate_spectra_missing_file (fs : gmap string File)
    (folder : string) (x_pos y_pos : Position) (x_idx y_idx : Z) :
  position_indices x_pos y_pos = Ok (x_idx, y_idx) ->
  fs !! spectrum_path folder x_idx y_idx = None ->
  outcome (generate_spectra fs (Some folder) x_pos y_pos)
  = Raise FileNotFoundError.
Proof.
  intros Hidx H.
  rewrite (generate_spectra_indices fs (Some folder) _ _ _ _ Hidx).
  unfold mbind, run_bind, ET_parse. simpl. rewrite H. reflexivity.
Qed.

Lemma generate_spectra_missing_file_witness :
  outcome (generate_spectra sample_fs (Some "Sample_A") (PosInt (-40))
             (PosFloat (F64.of_Z (-40))))
  = Raise FileNotFoundError.
Proof.
  apply (generate_spectra_missing_file sample_fs "Sample_A" (PosInt (-40))
           (PosFloat (F64.of_Z (-40))) 1 1);
    reflexivity.
Defined.

Lemma generate_spectra_parsed (fs : gmap string File) (folder : string)
    (x_pos y_pos : Position) (x_idx y_idx : Z) (root : Element) :
  position_indices x_pos y_pos = Ok (x_idx, y_idx) ->
  fs !! spectrum_path folder x_idx y_idx = Some (SpxFile root) ->
  outcome (generate_spectra fs (Some folder) x_pos y_pos)
  = (st ← read_document root; spectrum_figure folder x_pos y_pos st).
Proof.
  intros Hidx H.
  rewrite (generate_spectra_indices fs (Some folder) _ _ _ _ Hidx).
  unfold mbind at 1, run_bind, ET_parse. simpl. rewrite H. reflexivity.
Qed.

(** X3: a document without a [Channels] element never yields a figure: when the
    walk over it succeeds, [generate_spectra] ends in NameError, the
    spectrum being read before it was ever bound. *)
Theorem generate_spectra_without_channels (fs : gmap string File)
    (folder : string) (x_pos y_pos : Position) (x_idx y_idx : Z)
    (root : Element) :
  position_indices x_pos y_pos = Ok (x_idx, y_idx) ->
  fs !! spectrum_path folder x_idx y_idx = Some (SpxFile root) ->
  no_channels (iter root) = true ->
  is_ok (outcome (generate_spectra fs (Some folder) x_pos y_pos)) = false /\
  (is_ok (read_document root) = true ->
   outcome (generate_spectra fs (Some folder) x_pos y_pos) = Raise NameError).
Proof.
  intros Hidx Hfile Hno.
  rewrite (generate_spectra_parsed fs folder x_pos y_pos _ _ root Hidx Hfile).
  unfold read_document.
  destruct (document_walk (iter root) initial_locals) as [st|e] eqn:Hwalk.
  - rewrite bind_Ok. unfold spectrum_figure.
    rewrite (document_walk_spectra (iter root) Hno initial_locals st Hwalk).
    simpl. split; [reflexivity | intros _; reflexivity].
  - split; [reflexivity | discriminate].
Qed.

Lemma generate_spectra_without_channels_witness :
  outcome (generate_spectra
             {[ spectrum_path "Sample_A" 1 1 := SpxFile calibration_only ]}
             (Some "Sample_A") (PosInt (-40)) (PosInt (-40))) = Raise NameError.
Proof.
  apply (generate_spectra_without_channels
           {[ spectrum_path "Sample_A" 1 1 := SpxFile calibration_only ]}
           "Sample_A" (PosInt (-40)) (PosInt (-40)) 1 1 calibration_only);
    reflexivity.
Defined.

(** ** The summary table: bounds and the two return shapes *)

Lemma elements_of_table_short (LIST_DATA : list Row) (with_plot : bool) :
  length LIST_DATA < 3 ->
  elements_of_table LIST_DATA with_plot = Raise IndexError.
Proof.
  intros Hlen. unfold elements_of_table, Py.neg_index.
  destruct (Nat.ltb_spec (length LIST_DATA) 3) as [_|Hge]; [reflexivity | lia].
Qed.

(** X4: a summary sheet with fewer than three rows has no totals row:
    [get_elements] ends in IndexError, and so does [generate_heatmap]. *)
Theorem short_table_raises (fs : gmap string File) (folder : string)
    (LIST_DATA : list Row) :
  fs !! summary_path (Some folder) = Some (XlsxFile LIST_DATA) ->
  length LIST_DATA < 3 ->
  (forall with_plot,
      outcome (get_elements fs (Some folder) with_plot) = Raise IndexError) /\
  (forall element,
      outcome (generate_heatmap fs (Some folder) (Some element))
      = Raise IndexError).
Proof.
  intros Hfile Hlen. split.
  - intros with_plot.
    rewrite (get_elements_present fs (Some folder) with_plot LIST_DATA Hfile).
    simpl. apply elements_of_table_short, Hlen.
  - intros element. unfold generate_heatmap.
    rewrite (get_elements_present fs (Some folder) true LIST_DATA Hfile).
    rewrite (elements_of_table_short LIST_DATA true Hlen). reflexivity.
Qed.

Lemma short_table_raises_witness :
  outcome (get_elements short_fs (Some "Sample_A") false) = Raise IndexError /\
  outcome (generate_heatmap short_fs (Some "Sample_A") (Some "Fe"))
  = Raise IndexError.
Proof.
  destruct (short_table_raises short_fs "Sample_A"
              [[CStr "Spectrum"; CStr "Fe"]; [CStr "Spectrum_(1,1)"; CInt 1]])
    as [Hget Hmap]; [reflexivity | simpl; lia |].
  split; [apply Hget | apply Hmap].
Defined.

Lemma elements_of_table_shapes (LIST_DATA : list Row) :
  elements_of_table LIST_DATA true
  = (r ← elements_of_table LIST_DATA false;
     Ok (OptionsAndData (elm_options_of r) LIST_DATA)) /\
  forall r, elements_of_table LIST_DATA false = Ok r ->
            r = Options (elm_options_of r).
Proof.
  unfold elements_of_table.
  destruct (Py.neg_index LIST_DATA 3) as [totals|e]; [| split; [reflexivity | discriminate]].
  rewrite !bind_Ok.
  destruct (scan_totals 0 totals) as [index_tab|e]; [| split; [reflexivity | discriminate]].
  rewrite !bind_Ok.
  destruct (pick_header LIST_DATA index_tab) as [elm_options|e];
    [| split; [reflexivity | discriminate]].
  rewrite !bind_Ok. split; [reflexivity |]. intros r [= <-]. reflexivity.
Qed.

(** X5: asking for the table does not change the element options, and the table
    handed back is the sheet as it was read, rows and cells untouched: when
    [get_elements] returns a pair, its first part is what the call without
    the table returns, and its second part is the content of the file. *)
Theorem get_elements_with_table (fs : gmap string File)
    (foldername : option string) (elm_options : list Cell)
    (LIST_DATA : list Row) :
  outcome (get_elements fs foldername true)
  = Ok (OptionsAndData elm_options LIST_DATA) ->
  outcome (get_elements fs foldername false) = Ok (Options elm_options) /\
  fs !! summary_path foldername = Some (XlsxFile LIST_DATA).
Proof.
  unfold get_elements, load_workbook. simpl.
  destruct (fs !! summary_path foldername) as [[root|values|]|]; simpl;
    try discriminate.
  destruct (elements_of_table_shapes values) as [Htrue Hfalse].
  rewrite Htrue.
  destruct (elements_of_table values false) as [r|e]; [| discriminate].
  rewrite bind_Ok. intros [= <- <-].
  split; [| reflexivity]. f_equal. apply Hfalse. reflexivity.
Qed.

Lemma get_elements_with_table_witness :
  outcome (get_elements sample_fs (Some "Sample_A") false)
  = Ok (Options [CStr "Fe"]) /\
  sample_fs !! summary_path (Some "Sample_A") = Some (XlsxFile sample_table).
Proof.
  apply (get_elements_with_table sample_fs (Some "Sample_A") [CStr "Fe"]
           sample_table).
  reflexivity.
Defined.

(** ** Records of a [Results] block *)

Lemma in_params_In (t : string) : in_params t = true -> In t params.
Proof.
  unfold in_params. rewrite existsb_exists. intros (p & Hin & Heq).
  apply String.eqb_eq in Heq. subst p. exact Hin.
Qed.

Lemma in_params_not_marker (t : string) :
  in_params t = true ->
  String.eqb t "Result" = false /\ String.eqb t "ExtResults" = false.
Proof.
  intros H. apply in_params_In in H. unfold params in H. simpl in H.
  repeat destruct H as [<- | H]; try (split; reflexivity). contradiction.
Qed.

Lemma results_walk_cut_at (ext : Element) (post : list Element) :
  tag ext = "ExtResults" ->
  forall pre acc,
    results_walk (pre ++ ext :: post) acc = results_walk pre acc.
Proof.
  intros Hext. induction pre as [|child rest IH]; intros acc; simpl.
  - rewrite Hext. reflexivity.
  - destruct (String.eqb (tag child) "Result"); [apply IH |].
    destruct (in_params (tag child)).
    + destruct (stored_entry child) as [entry|e]; [| reflexivity].
      rewrite !bind_Ok.
      destruct (append_to_last acc entry) as [acc'|e]; [| reflexivity].
      rewrite !bind_Ok. apply IH.
    + destruct (String.eqb (tag child) "ExtResults"); [reflexivity | apply IH].
Qed.

(** X6: what follows an [ExtResults] marker in a [Results] block never reaches
    the records, and cannot make the walk fail: the walk over the block is
    the walk over the part in front of the marker. *)
Theorem results_walk_stops_at_ExtResults (pre post : list Element)
    (ext : Element) (acc : list ResultRecord) :
  tag ext = "ExtResults" ->
  results_walk (pre ++ ext :: post) acc = results_walk pre acc.
Proof.
  intros Hext. apply (results_walk_cut_at ext post Hext).
Qed.

Lemma results_walk_stops_at_ExtResults_witness :
  results_walk
    ([Elem "Result" ∅ None []; leaf "Atom" "26"]
       ++ Elem "ExtResults" ∅ None [] :: [leaf "Atom" "x"]) []
  = results_walk [Elem "Result" ∅ None []; leaf "Atom" "26"] [].
Proof.
  apply (results_walk_stops_at_ExtResults
           [Elem "Result" ∅ None []; leaf "Atom" "26"] [leaf "Atom" "x"]
           (Elem "ExtResults" ∅ None []) []).
  reflexivity.
Defined.

Lemma stored_entry_name (child : Element) (entry : string * option string) :
  stored_entry child = Ok entry -> fst entry = tag child.
Proof.
  unfold stored_entry. destruct (String.eqb (tag child) "Atom").
  - destruct (Py.int_opt (text child)) as [n|e]; [| discriminate].
    rewrite bind_Ok. destruct (n <? 10)%Z; intros [= <-]; reflexivity.
  - intros [= <-]. reflexivity.
Qed.

Lemma append_to_last_grows (acc acc' : list ResultRecord)
    (entry : string * option string) :
  append_to_last acc entry = Ok acc' ->
  length acc' = length acc /\
  (in_params (fst entry) = true -> whitelisted acc -> whitelisted acc') /\
  (forall i r, acc !! i = Some r ->
     exists r', acc' !! i = Some r' /\ r `prefix_of` r').
Proof.
  destruct acc as [|r0 acc0] using rev_ind; [discriminate |].
  rewrite append_to_last_snoc. intros [= <-]. clear IHacc0.
  split; [rewrite !length_app; reflexivity |]. split.
  - intros Hname Hw. unfold whitelisted in *.
    apply Forall_app in Hw as [Hfront Hlast]. apply Forall_app. split;
      [exact Hfront |].
    inversion Hlast as [|? ? Hr0 _]; subst. constructor; [| constructor].
    apply Forall_app. split; [exact Hr0 |]. constructor; [| constructor].
    exact Hname.
  - intros i r Hi. destruct (decide (i < length acc0)) as [Hlt|Hge].
    + rewrite lookup_app_l in Hi by exact Hlt.
      exists r. rewrite lookup_app_l by exact Hlt. split; [exact Hi | reflexivity].
    + rewrite lookup_app_r in Hi by lia.
      destruct (i - length acc0) as [|k] eqn:Hk; simpl in Hi; [| discriminate].
      injection Hi as <-. exists (r0 ++ [entry]).
      rewrite lookup_app_r by lia. rewrite Hk. simpl.
      split; [reflexivity | apply prefix_app_r; reflexivity].
Qed.

Lemma results_walk_grows (nodes : list Element) :
  forall acc acc',
    results_walk nodes acc = Ok acc' ->
    length acc' = length acc + markers_walked nodes /\
    (whitelisted acc -> whitelisted acc') /\
    (forall i r, acc !! i = Some r ->
       exists r', acc' !! i = Some r' /\ r `prefix_of` r').
Proof.
  induction nodes as [|child rest IH]; intros acc acc'; simpl.
  - intros [= <-]. split; [lia |]. split; [tauto |].
    intros i r Hi. exists r. split; [exact Hi | reflexivity].
  - destruct (String.eqb (tag child) "Result").
    { intros H. apply IH in H as (Hlen & Hw & Hkeep).
      split; [rewrite Hlen, length_app; simpl; lia |]. split.
      - intros Hacc. apply Hw. apply Forall_app. split; [exact Hacc |].
        repeat constructor.
      - intros i r Hi. apply Hkeep.
        rewrite lookup_app_l; [exact Hi |]. apply lookup_lt_Some in Hi. exact Hi. }
    destruct (in_params (tag child)) eqn:Hp.
    + destruct (stored_entry child) as [entry|e] eqn:Hentry; [| discriminate].
      rewrite bind_Ok.
      destruct (append_to_last acc entry) as [acc1|e] eqn:Happ; [| discriminate].
      rewrite bind_Ok. intros H. apply IH in H as (Hlen & Hw & Hkeep).
      apply append_to_last_grows in Happ as (Hlen1 & Hw1 & Hkeep1).
      split; [lia |]. split.
      * intros Hacc. apply Hw, Hw1; [| exact Hacc].
        rewrite (stored_entry_name child entry Hentry). exact Hp.
      * intros i r Hi. destruct (Hkeep1 i r Hi) as (r1 & Hi1 & Hpre1).
        destruct (Hkeep i r1 Hi1) as (r' & Hi' & Hpre').
        exists r'. split; [exact Hi' |]. etrans; eassumption.
    + destruct (String.eqb (tag child) "ExtResults").
      * intros [= <-]. split; [lia |]. split; [tauto |].
        intros i r Hi. exists r. split; [exact Hi | reflexivity].
      * apply IH.
Qed.

(** X7: the walk over a [Results] block only adds to the records: on success
    the list has grown by one record per [Result] marker met before an
    [ExtResults], and every record that was there is still at its place,
    possibly longer at its end. *)
Theorem results_walk_only_adds (nodes : list Element)
    (acc acc' : list ResultRecord) :
  results_walk nodes acc = Ok acc' ->
  length acc' = length acc + markers_walked nodes /\
  (forall i r, acc !! i = Some r ->
     exists r', acc' !! i = Some r' /\ r `prefix_of` r').
Proof.
  intros H. apply results_walk_grows in H as (Hlen & _ & Hkeep).
  split; [exact Hlen | exact Hkeep].
Qed.

Lemma results_walk_only_adds_witness :
  length [[("Atom", Some "26"); ("Atom", Some "27")]]
  = length [[("Atom", Some "26")]] + markers_walked (iter unmarked_block) /\
  (forall i r, [[("Atom", Some "26")]] !! i = Some r ->
     exists r', [[("Atom", Some "26"); ("Atom", Some "27")]] !! i = Some r' /\
                r `prefix_of` r').
Proof.
  apply (results_walk_only_adds (iter unmarked_block) [[("Atom", Some "26")]]
           [[("Atom", Some "26"); ("Atom", Some "27")]]).
  reflexivity.
Defined.

Lemma stored_entries_names (attrs : list Element) :
  forall entries, stored_entries attrs = Ok entries ->
                  map fst entries = map tag attrs.
Proof.
  induction attrs as [|a rest IH]; intros entries; simpl.
  - intros [= <-]. reflexivity.
  - destruct (stored_entry a) as [entry|e] eqn:Hentry; [| discriminate].
    rewrite bind_Ok.
    destruct (stored_entries rest) as [es|e]; [| discriminate].
    rewrite bind_Ok. intros [= <-]. simpl.
    rewrite (stored_entry_name a entry Hentry), (IH es eq_refl). reflexivity.
Qed.

(** X8: a record collects its attributes in document order: a run of kept
    attributes met while a record is open goes to the end of that record,
    one entry per attribute, in the order of the document, each under the
    name of its tag. *)
Theorem record_collects_in_order (attrs rest : list Element)
    (acc : list ResultRecord) (record : ResultRecord)
    (entries : list (string * option string)) :
  forallb (fun a => in_params (tag a)) attrs = true ->
  stored_entries attrs = Ok entries ->
  results_walk (attrs ++ rest) (acc ++ [record])
  = results_walk rest (acc ++ [record ++ entries]) /\
  map fst entries = map tag attrs.
Proof.
  intros Hkept Hentries. split; [| exact (stored_entries_names attrs entries Hentries)].
  revert record entries Hkept Hentries.
  induction attrs as [|a attrs' IH]; intros record entries Hkept; simpl.
  - intros [= <-]. rewrite app_nil_r. reflexivity.
  - simpl in Hkept. apply andb_prop in Hkept as [Ha Hrest].
    destruct (in_params_not_marker (tag a) Ha) as [-> _]. rewrite Ha.
    destruct (stored_entry a) as [entry|e]; [| discriminate].
    rewrite !bind_Ok.
    destruct (stored_entries attrs') as [es|e] eqn:Hes; [| discriminate].
    rewrite bind_Ok. intros [= <-].
    rewrite append_to_last_snoc, bind_Ok.
    rewrite (IH (record ++ [entry]) es Hrest eq_refl).
    rewrite <- app_assoc. reflexivity.
Qed.

Lemma record_collects_in_order_witness :
  results_walk
    ([leaf "Atom" "26"; leaf "XLine" "K-Serie"; leaf "AtomPercent" "51.2"]
       ++ [Elem "Result" ∅ None []]) ([] ++ [[]])
  = results_walk [Elem "Result" ∅ None []]
      ([] ++ [[] ++ [("Atom", Some "26"); ("XLine", Some "K-Serie");
                     ("AtomPercent", Some "51.2")]]) /\
  map fst [("Atom", Some "26"); ("XLine", Some "K-Serie");
           ("AtomPercent", Some "51.2")]
  = map tag [leaf "Atom" "26"; leaf "XLine" "K-Serie"; leaf "AtomPercent" "51.2"].
Proof.
  apply (record_collects_in_order
           [leaf "Atom" "26"; leaf "XLine" "K-Serie"; leaf "AtomPercent" "51.2"]
           [Elem "Result" ∅ None []] [] []
           [("Atom", Some "26"); ("XLine", Some "K-Serie");
            ("AtomPercent", Some "51.2")]); reflexivity.
Defined.

(** ** The walk over an [Elements] block *)

Lemma elements_walk_frame (nodes : list Element) :
  forall st st',
    elements_walk nodes st = Ok st' ->
    voltage st' = voltage st /\
    working_distance st' = working_distance st /\
    energy_step st' = energy_step st /\
    zero_energy st' = zero_energy st /\
    edx_spectra st' = edx_spectra st /\
    results_ext st' = results_ext st /\
    map snd (element_list st')
    = map snd (element_list st)
        ++ map (fun child => get child "Name") (List.filter is_pse nodes).
Proof.
  induction nodes as [|child rest IH]; intros st st'; simpl.
  - intros [= <-]. rewrite app_nil_r. repeat split; reflexivity.
  - unfold is_pse at 1.
    destruct (bool_decide (get child "Type" = Some "TRTPSEElement"));
      [| apply IH].
    destruct (last_element_text _ _) as [t|]; [| discriminate].
    destruct (Py.int_opt t) as [n|e]; [| discriminate]. rewrite bind_Ok.
    intros H. apply IH in H. simpl in H.
    destruct H as (Hv & Hw & Hes & Hze & Hsp & Hre & Hel).
    repeat split; try assumption.
    rewrite Hel, map_app. simpl. rewrite <- app_assoc. reflexivity.
Qed.

(** X9: the walk over an [Elements] block touches nothing but the element list:
    on success the voltage, the working distance, the calibration, the
    spectrum and the records are as before, and the list has gained one
    entry per node of type [TRTPSEElement], in document order, carrying the
    node's [Name] attribute. *)
Theorem elements_walk_adds_named_entries (nodes : list Element)
    (st st' : Locals) :
  elements_walk nodes st = Ok st' ->
  MkLocals (voltage st') (working_distance st') (energy_step st')
    (zero_energy st') (edx_spectra st') (results_ext st') (element_list st)
    (name_elm st) (nb_elm st) = st /\
  map snd (element_list st')
  = map snd (element_list st)
      ++ map (fun child => get child "Name") (List.filter is_pse nodes).
Proof.
  intros H. apply elements_walk_frame in H
    as (Hv & Hw & Hes & Hze & Hsp & Hre & Hel).
  split; [| exact Hel].
  rewrite Hv, Hw, Hes, Hze, Hsp, Hre. destruct st; reflexivity.
Qed.

Lemma elements_walk_adds_named_entries_witness :
  map snd [(26%Z, Some "Fe"); (27%Z, Some "Co")]
  = map snd (element_list initial_locals)
      ++ map (fun child => get child "Name")
           (List.filter is_pse (iter elements_block)).
Proof.
  apply (elements_walk_adds_named_entries (iter elements_block) initial_locals
           (MkLocals 0%Z None (S754_zero false) (S754_zero false) None []
              [(26%Z, Some "Fe"); (27%Z, Some "Co")]
              (Some (Some "Co")) (Some (Some "27")))).
  reflexivity.
Defined.

Lemma last_element_text_none (nodes : list Element) :
  no_element_tag nodes = true ->
  forall nb, last_element_text nodes nb = nb.
Proof.
  unfold last_element_text.
  induction nodes as [|n rest IH]; intros Hno nb; simpl; [reflexivity |].
  simpl in Hno. apply andb_prop in Hno as [Hn Hrest].
  apply negb_true_iff in Hn. rewrite Hn. apply (IH Hrest).
Qed.

(** X10: an element declaration without an [Element] tag in its subtree, met
    before any declaration has given an atomic number, ends the walk in
    NameError: the number is read before it was ever bound. *)
Theorem element_without_number_raises (pre post : list Element)
    (child : Element) (st : Locals) :
  nb_elm st = None ->
  forallb (fun n => negb (is_pse n)) pre = true ->
  is_pse child = true ->
  no_element_tag (iter child) = true ->
  elements_walk (pre ++ child :: post) st = Raise NameError.
Proof.
  intros Hnb Hpre Hchild Hno.
  induction pre as [|n rest IH]; simpl.
  - unfold is_pse in Hchild. rewrite Hchild.
    rewrite (last_element_text_none (iter child) Hno), Hnb. reflexivity.
  - simpl in Hpre. apply andb_prop in Hpre as [Hn Hrest].
    apply negb_true_iff in Hn. unfold is_pse in Hn. rewrite Hn.
    apply (IH Hrest).
Qed.

Lemma element_without_number_raises_witness :
  elements_walk
    ([Elem "ClassInstance" {["Name" := "Elements"]} None []]
       ++ Elem "ClassInstance" {["Type" := "TRTPSEElement"]} None []
       :: [pse "Fe" "26"]) initial_locals
  = Raise NameError.
Proof.
  apply (element_without_number_raises
           [Elem "ClassInstance" {["Name" := "Elements"]} None []]
           [pse "Fe" "26"]
           (Elem "ClassInstance" {["Type" := "TRTPSEElement"]} None [])
           initial_locals); reflexivity.
Defined.

(** ** The records of a whole document *)

Lemma document_step_results (st st' : Locals) (elm : Element) :
  document_step st elm = Ok st' ->
  results_ext st' = results_ext st \/
  results_walk (iter elm) (results_ext st) = Ok (results_ext st').
Proof.
  unfold document_step.
  destruct (String.eqb (tag elm) "PrimaryEnergy").
  { destruct (Py.float_opt _) as [v|]; [| discriminate]. rewrite bind_Ok.
    destruct (Py.int_of_float v); [intros [= <-]; left; reflexivity | discriminate]. }
  destruct (String.eqb (tag elm) "WorkingDistance").
  { destruct (Py.float_opt _); [intros [= <-]; left; reflexivity | discriminate]. }
  destruct (String.eqb (tag elm) "CalibLin").
  { destruct (Py.float_opt _); [intros [= <-]; left; reflexivity | discriminate]. }
  destruct (String.eqb (tag elm) "CalibAbs").
  { destruct (Py.float_opt _); [intros [= <-]; left; reflexivity | discriminate]. }
  destruct (String.eqb (tag elm) "Channels").
  { destruct (read_channels _ _ _); [intros [= <-]; left; reflexivity | discriminate]. }
  destruct (String.eqb (tag elm) "ClassInstance"); simpl;
    [| intros [= <-]; left; reflexivity].
  destruct (bool_decide (get elm "Name" = Some "Results")).
  { destruct (results_walk _ _) as [r|e]; [| discriminate].
    intros [= <-]. right. reflexivity. }
  destruct (bool_decide (get elm "Name" = Some "Elements")).
  - intros H. apply elements_walk_frame in H as (_ & _ & _ & _ & _ & Hre & _).
    left. exact Hre.
  - intros [= <-]. left. reflexivity.
Qed.

Lemma document_walk_whitelisted (nodes : list Element) :
  forall st st',
    document_walk nodes st = Ok st' ->
    whitelisted (results_ext st) -> whitelisted (results_ext st').
Proof.
  induction nodes as [|elm rest IH]; intros st st'; simpl.
  - intros [= <-]. tauto.
  - destruct (document_step st elm) as [st1|e] eqn:Hstep; [| discriminate].
    rewrite bind_Ok. intros Hwalk Hw. apply (IH st1 st' Hwalk).
    destruct (document_step_results st st1 elm Hstep) as [-> | Hres];
      [exact Hw |].
    apply results_walk_grows in Hres as (_ & Hkeep & _). apply Hkeep, Hw.
Qed.

(** X12: whatever the document holds, the records read from it hold only the
    seven kept attributes: every name stored in a record is one of Atom,
    XLine, AtomPercent, MassPercent, NetIntens, Background and Sigma. *)
Theorem read_document_records_whitelisted (root : Element) (st : Locals) :
  read_document root = Ok st ->
  forall record name value,
    In record (results_ext st) -> In (name, value) record -> In name params.
Proof.
  intros Hread record name value Hrecord Hentry.
  assert (Hw : whitelisted (results_ext st)).
  { apply (document_walk_whitelisted (iter root) initial_locals st Hread).
    constructor. }
  unfold whitelisted in Hw. rewrite Forall_forall in Hw.
  specialize (Hw record). rewrite <- list_elem_of_In in Hrecord.
  specialize (Hw Hrecord). rewrite Forall_forall in Hw.
  rewrite <- list_elem_of_In in Hentry.
  apply in_params_In. exact (Hw (name, value) Hentry).
Qed.

Lemma read_document_records_whitelisted_witness : In "Atom" params.
Proof.
  apply (read_document_records_whitelisted two_results_blocks
           (MkLocals 0%Z None (S754_zero false) (S754_zero false)
              (Some [(S754_zero false, NFloat (F64.of_Z 1));
                     (S754_zero false, NFloat (F64.of_Z 2))])
              [[("Atom", Some "26"); ("Atom", Some "27")]] [] None None)
           eq_refl
           [("Atom", Some "26"); ("Atom", Some "27")] "Atom" (Some "27")).
  - left. reflexivity.
  - right. left. reflexivity.
Defined.

(** ** The heatmap whatever the layout of the table *)

Lemma to_position_axis_lattice (start stp idx : Z) :
  stp <> 0%Z -> ((to_position_axis start stp idx - start) mod stp = 0)%Z.
Proof.
  intros Hstp. unfold to_position_axis.
  replace ((idx - 1) * stp + start - start)%Z with ((idx - 1) * stp)%Z by lia.
  apply Z.mod_mul, Hstp.
Qed.

Lemma heatmap_step_lattice (element_edx : string) (st st' : Points)
    (row : Row) :
  heatmap_step element_edx st row = Ok st' ->
  aligned st ->
  Forall lattice_point (points st) /\ Forall diamond_or_beyond (points st) ->
  aligned st' /\
  Forall lattice_point (points st') /\ Forall diamond_or_beyond (points st').
Proof.
  unfold heatmap_step.
  destruct (Py.index row 0) as [c0|e]; [| discriminate]. rewrite bind_Ok.
  destruct (cell_eq_str "Spectrum" c0).
  { destruct (row_index element_edx row) as [i|e]; [| discriminate].
    rewrite bind_Ok. intros [= <-]. tauto. }
  destruct (cell_startswith c0 "Spectrum_") as [[|]|e]; try discriminate;
    rewrite bind_Ok; [| intros [= <-]; tauto].
  destruct (scan_indices _) as [[i j]|e]; [| discriminate]. rewrite bind_Ok.
  cbv iota beta.
  destruct (Np.le_int
              (Np.add (Np.abs (to_position_axis start_x step_x i))
                 (Np.abs (to_position_axis start_y step_y j))) 60) eqn:Hd;
    [| intros [= <-]; tauto].
  destruct (index st) as [k|]; [| discriminate].
  destruct (Py.index row k) as [c|e]; [| discriminate]. rewrite bind_Ok.
  destruct (cell_float c) as [z|e]; [| discriminate]. rewrite bind_Ok.
  intros [= <-] Hal [Hlat Hdia].
  destruct (points_snoc st (Some k) (to_position_axis start_x step_x i)
              (to_position_axis start_y step_y j) z Hal) as [Hal' Heq].
  split; [exact Hal' |]. rewrite Heq. split.
  - apply Forall_app. split; [exact Hlat |].
    constructor; [| constructor]. unfold lattice_point.
    split; apply to_position_axis_lattice; discriminate.
  - apply Forall_app. split; [exact Hdia |].
    constructor; [| constructor]. unfold diamond_or_beyond.
    apply diamond_test_sound. exact Hd.
Qed.

Lemma heatmap_walk_lattice (element_edx : string) (rows : list Row) :
  forall st st',
    heatmap_walk element_edx rows st = Ok st' ->
    aligned st ->
    Forall lattice_point (points st) /\ Forall diamond_or_beyond (points st) ->
    aligned st' /\
    Forall lattice_point (points st') /\ Forall diamond_or_beyond (points st').
Proof.
  induction rows as [|row rest IH]; intros st st'; simpl.
  - intros [= <-]. tauto.
  - destruct (heatmap_step element_edx st row) as [st1|e] eqn:Hstep;
      [| discriminate].
    rewrite bind_Ok. intros Hwalk Hal Hpts.
    destruct (heatmap_step_lattice element_edx st st1 row Hstep Hal Hpts)
      as [Hal1 Hpts1].
    exact (IH st1 st' Hwalk Hal1 Hpts1).
Qed.

(** X14: whatever the table looks like, a figure that [generate_heatmap] returns
    is the empty one or a heatmap whose three lists have the same length and
    whose points all lie on the scan lattice (x and y are -40 plus a
    multiple of 5) and, unless they are so far out that |x| + |y| reaches
    2^63, in the diamond |x| + |y| <= 60. *)
Theorem generate_heatmap_figure_shape (fs : gmap string File)
    (folderpath_edx element_edx : option string) (fig : Figure) :
  outcome (generate_heatmap fs folderpath_edx element_edx) = Ok fig ->
  fig = empty_fig_heatmap \/
  exists element xs ys zs,
    element_edx = Some element /\
    fig = MkFigure [Heatmap (Some xs) (Some ys) (Some zs) (Some "Jet")]
            (Some (HeatmapTitle element)) None None /\
    length xs = length ys /\
    length ys = length zs /\
    forall x y z, In (x, y, z) (zip (zip xs ys) zs) ->
      ((Z.abs x + Z.abs y <= 60)%Z \/ (2 ^ 63 <= Z.abs x + Z.abs y)%Z) /\
      (exists i, x = (-40 + 5 * i)%Z) /\ (exists j, y = (-40 + 5 * j)%Z).
Proof.
  unfold generate_heatmap.
  destruct folderpath_edx as [folder|]; [| intros [= <-]; left; reflexivity].
  destruct element_edx as [element|]; [| intros [= <-]; left; reflexivity].
  destruct (get_elements fs (Some folder) true) as [log [r|e]];
    [| discriminate].
  destruct r as [l|elms LIST_DATA]; [discriminate |]. cbn.
  destruct (existsb (cell_eq_str element) elms); cbn;
    [| intros [= <-]; left; reflexivity].
  destruct (heatmap_walk element LIST_DATA (MkPoints None [] [] []))
    as [st|e] eqn:Hwalk; cbn; [| discriminate].
  intros [= <-]. right. exists element, (X_POS st), (Y_POS st), (ELM st).
  destruct (heatmap_walk_lattice element LIST_DATA _ st Hwalk)
    as [[Hxy Hyz] [Hlat Hdia]];
    [split; reflexivity | split; constructor |].
  split; [reflexivity |]. split; [reflexivity |].
  split; [exact Hxy |]. split; [exact Hyz |].
  intros x y z Hin. rewrite Forall_forall in Hlat, Hdia.
  rewrite <- list_elem_of_In in Hin.
  specialize (Hlat (x, y, z) Hin). specialize (Hdia (x, y, z) Hin).
  unfold lattice_point in Hlat. unfold diamond_or_beyond in Hdia.
  destruct Hlat as (Hx & Hy). split; [exact Hdia |].
  unfold start_x, step_x in Hx. unfold start_y, step_y in Hy.
  apply Z.mod_divide in Hx; [| discriminate].
  apply Z.mod_divide in Hy; [| discriminate].
  destruct Hx as [i Hi]. destruct Hy as [j Hj].
  split; [exists i | exists j]; lia.
Qed.

Lemma generate_heatmap_figure_shape_witness :
  MkFigure [Heatmap (Some [0; 40]%Z) (Some [0; 0]%Z)
              (Some [F64.of_Z 4; F64.of_Z 7]) (Some "Jet")]
    (Some (HeatmapTitle "Fe")) None None
  = empty_fig_heatmap \/
  exists element xs ys zs,
    Some "Fe" = Some element /\
    MkFigure [Heatmap (Some [0; 40]%Z) (Some [0; 0]%Z)
                (Some [F64.of_Z 4; F64.of_Z 7]) (Some "Jet")]
      (Some (HeatmapTitle "Fe")) None None
    = MkFigure [Heatmap (Some xs) (Some ys) (Some zs) (Some "Jet")]
        (Some (HeatmapTitle element)) None None /\
    length xs = length ys /\
    length ys = length zs /\
    forall x y z, In (x, y, z) (zip (zip xs ys) zs) ->
      ((Z.abs x + Z.abs y <= 60)%Z \/ (2 ^ 63 <= Z.abs x + Z.abs y)%Z) /\
      (exists i, x = (-40 + 5 * i)%Z) /\ (exists j, y = (-40 + 5 * j)%Z).
Proof.
  apply (generate_heatmap_figure_shape sample_fs (Some "Sample_A") (Some "Fe")).
  vm_compute. reflexivity.
Defined.

Lemma heatmap_walk_app (element_edx : string) (front back : list Row) :
  forall st,
    heatmap_walk element_edx (front ++ back) st
    = (st' ← heatmap_walk element_edx front st;
       heatmap_walk element_edx back st').
Proof.
  induction front as [|row rest IH]; intros st; simpl; [reflexivity |].
  destruct (heatmap_step element_edx st row) as [st1|e];
    [rewrite !bind_Ok; apply IH | reflexivity].
Qed.

Lemma generate_heatmap_offered (fs : gmap string File)
    (folder element : string) (LIST_DATA : list Row) (elms : list Cell) :
  fs !! summary_path (Some folder) = Some (XlsxFile LIST_DATA) ->
  elements_of_table LIST_DATA true = Ok (OptionsAndData elms LIST_DATA) ->
  existsb (cell_eq_str element) elms = true ->
  outcome (generate_heatmap fs (Some folder) (Some element))
  = (st ← heatmap_walk element LIST_DATA (MkPoints None [] [] []);
     Ok (heatmap_figure element st)).
Proof.
  intros Hfile Helms Hin. unfold generate_heatmap.
  rewrite (get_elements_present fs (Some folder) true LIST_DATA Hfile), Helms.
  cbn. rewrite Hin. cbn.
  destruct (heatmap_walk element LIST_DATA _); reflexivity.
Qed.

(** X15: a row whose first cell is empty or a number, such as a blank line in
    the sheet, makes the heatmap of any offered element fail with
    AttributeError once the rows in front of it went through. *)
Theorem non_text_row_raises (fs : gmap string File) (folder element : string)
    (pre post : list Row) (row : Row) (c : Cell) (elms : list Cell) :
  fs !! summary_path (Some folder) = Some (XlsxFile (pre ++ row :: post)) ->
  elements_of_table (pre ++ row :: post) true
  = Ok (OptionsAndData elms (pre ++ row :: post)) ->
  existsb (cell_eq_str element) elms = true ->
  is_ok (heatmap_walk element pre (MkPoints None [] [] [])) = true ->
  row !! 0 = Some c ->
  is_text c = false ->
  outcome (generate_heatmap fs (Some folder) (Some element))
  = Raise AttributeError.
Proof.
  intros Hfile Helms Hin Hpre Hc Htext.
  rewrite (generate_heatmap_offered fs folder element _ elms Hfile Helms Hin).
  rewrite heatmap_walk_app.
  destruct (heatmap_walk element pre _) as [st1|e]; [| discriminate].
  rewrite bind_Ok. simpl. unfold heatmap_step, Py.index. rewrite Hc, bind_Ok.
  destruct c as [|s|n|f]; try discriminate; reflexivity.
Qed.

Lemma non_text_row_raises_witness :
  outcome (generate_heatmap blank_row_fs (Some "Sample_A") (Some "Fe"))
  = Raise AttributeError.
Proof.
  apply (non_text_row_raises blank_row_fs "Sample_A" "Fe"
           (take 2 sample_table) (drop 2 sample_table)
           [CNone; CNone; CNone; CNone] CNone [CStr "Fe"]);
    reflexivity.
Defined.

Lemma pick_header_from_header (LIST_DATA : list Row) (index_tab : list nat) :
  forall cs c,
    pick_header LIST_DATA index_tab = Ok cs -> In c cs ->
    exists header, LIST_DATA !! 0 = Some header /\ In c header.
Proof.
  induction index_tab as [|i rest IH]; intros cs c; cbn [pick_header].
  - intros [= <-] [].
  - unfold Py.index.
    destruct (LIST_DATA !! 0) as [header|] eqn:Hhead;
      [| rewrite bind_Raise; discriminate].
    rewrite bind_Ok.
    destruct (header !! i) as [ci|] eqn:Hi;
      [| rewrite bind_Raise; discriminate].
    rewrite bind_Ok.
    destruct (pick_header LIST_DATA rest) as [cs'|e]; [| discriminate].
    rewrite bind_Ok. intros [= <-] [<- | Hin].
    + exists header. split; [reflexivity |].
      apply list_elem_of_In, list_elem_of_lookup. exists i. exact Hi.
    + destruct (IH cs' c eq_refl Hin) as (header' & Hh & Hc).
      exists header'. split; [exact Hh | exact Hc].
Qed.

Lemma row_index_finds (element_edx : string) (row : Row) :
  (exists c, In c row /\ cell_eq_str element_edx c = true) ->
  exists idx c,
    row_index element_edx row = Ok idx /\ row !! idx = Some c /\
    cell_eq_str element_edx c = true /\
    forall k c', k < idx -> row !! k = Some c' ->
                 cell_eq_str element_edx c' = false.
Proof.
  induction row as [|c0 rest IH]; intros (c & Hin & Heq); [destruct Hin |].
  simpl. destruct (cell_eq_str element_edx c0) eqn:H0.
  - exists 0, c0. split; [reflexivity |]. split; [reflexivity |].
    split; [exact H0 |]. intros k c' Hk. lia.
  - destruct Hin as [-> | Hin]; [congruence |].
    destruct IH as (idx & c1 & Hidx & Hc1 & Heq1 & Hfirst);
      [exists c; split; assumption |].
    exists (S idx), c1. rewrite Hidx, bind_Ok.
    split; [reflexivity |]. split; [exact Hc1 |]. split; [exact Heq1 |].
    intros [|k] c' Hk; simpl.
    + intros [= <-]. exact H0.
    + apply Hfirst. lia.
Qed.

(** X16: an element that [get_elements] offers is a cell of the header row, so
    the lookup of its column by [generate_heatmap] on that row succeeds; the
    column found is the first one whose header equals the element. *)
Theorem offered_element_has_column (LIST_DATA : list Row) (with_plot : bool)
    (r : Elements) (element : string) :
  elements_of_table LIST_DATA with_plot = Ok r ->
  existsb (cell_eq_str element) (elm_options_of r) = true ->
  exists header idx c,
    LIST_DATA !! 0 = Some header /\
    row_index element header = Ok idx /\
    header !! idx = Some c /\ cell_eq_str element c = true /\
    forall k c', k < idx -> header !! k = Some c' ->
                 cell_eq_str element c' = false.
Proof.
  unfold elements_of_table.
  destruct (Py.neg_index LIST_DATA 3) as [totals|e]; [| discriminate].
  rewrite bind_Ok.
  destruct (scan_totals 0 totals) as [index_tab|e]; [| discriminate].
  rewrite bind_Ok.
  destruct (pick_header LIST_DATA index_tab) as [elm_options|e] eqn:Hpick;
    [| discriminate].
  rewrite bind_Ok. intros Hr Hin.
  assert (Hopt : elm_options_of r = elm_options)
    by (destruct with_plot; injection Hr as <-; reflexivity).
  rewrite Hopt in Hin. apply existsb_exists in Hin as (c & Hc & Heq).
  destruct (pick_header_from_header LIST_DATA index_tab elm_options c Hpick Hc)
    as (header & Hhead & Hch).
  destruct (row_index_finds element header) as (idx & c1 & H1 & H2 & H3 & H4);
    [exists c; split; assumption |].
  exists header, idx, c1. auto.
Qed.

Lemma offered_element_has_column_witness :
  exists header idx c,
    sample_table !! 0 = Some header /\
    row_index "Fe" header = Ok idx /\
    header !! idx = Some c /\ cell_eq_str "Fe" c = true /\
    forall k c', k < idx -> header !! k = Some c' ->
                 cell_eq_str "Fe" c' = false.
Proof.
  apply (offered_element_has_column sample_table false (Options [CStr "Fe"]) "Fe");
    reflexivity.
Defined.

(** ** Positions off the grid *)

Lemma trunc_floor (q : Q) : (0 <= q)%Q -> Py.trunc q = Qfloor q.
Proof.
  destruct q as [n d]. unfold Qle, Py.trunc, Qfloor. simpl. intros H.
  apply Z.quot_div_nonneg; lia.
Qed.


(** X19: between grid points the floats of line 39 decide: a position such as
    -38 or 3.5 gets the index of the grid point on its left, and a position
    so close below a grid point that the subtraction rounds it away, such
    as -2^-60 just below 0, gets the index of that grid point, on its
    right, where the exact value would have given the one on its left. *)
Theorem position_between_grid_points :
  position_indices (PosInt (-38)) (PosFloat (fl 3.5)) = Ok (1, 9)%Z /\
  to_position (1, 9)%Z = (-40, 0)%Z /\
  position_index start_x (PosFloat (F64.opp (fl (F64.pow2 (-60))))) = Ok 9%Z /\
  to_position_axis start_x step_x 9 = 0%Z /\
  to_index_axis start_x (- F64.pow2 (-60)) = 8%Z.
Proof. vm_compute. repeat split. Qed.

(** X23: on the scanned grid the round trip holds for the index as line 39
    computes it in floats: for a grid position given as an int or as a
    float, the scan index exists, is the same for both, and lines 206-208
    turn it back into the position. *)
Theorem grid_round_trip_in_floats (x y : Z) :
  on_grid start_x (inject_Z x) = true ->
  on_grid start_y (inject_Z y) = true ->
  exists ij,
    position_indices (PosInt x) (PosInt y) = Ok ij /\
    position_indices (PosFloat (F64.of_Z x)) (PosFloat (F64.of_Z y)) = Ok ij /\
    to_position ij = (x, y).
Proof.
  intros Hx Hy. destruct (position_indices_grid x y Hx Hy) as [Hi Hf].
  exists (to_index (inject_Z x) (inject_Z y)).
  split; [exact Hi |]. split; [exact Hf |].
  pose proof (round_trip_axis start_x (inject_Z x) Hx) as Rx.
  pose proof (round_trip_axis start_y (inject_Z y) Hy) as Ry.
  unfold Qeq in Rx, Ry. simpl in Rx, Ry.
  unfold to_position, to_index. cbn [fst snd].
  change step_x with step. change step_y with step. f_equal; lia.
Qed.

Lemma grid_round_trip_in_floats_witness :
  exists ij,
    position_indices (PosInt (-35)) (PosInt 40) = Ok ij /\
    position_indices (PosFloat (F64.of_Z (-35))) (PosFloat (F64.of_Z 40))
    = Ok ij /\
    to_position ij = ((-35)%Z, 40%Z).
Proof.
  apply (grid_round_trip_in_floats (-35) 40); reflexivity.
Defined.




(** ** Fields of the [Channels] text *)

Lemma int_raises_ValueError (s : string) (e : exn) :
  Py.int s = Raise e -> e = ValueError.
Proof.
  unfold Py.int. destruct (Py.sign _) as [sg body].
  destruct (Py.digits body) as [[v n]|]; [discriminate |].
  intros [= <-]. reflexivity.
Qed.

Lemma channels_from_outcome (es ze : spec_float) (fields : list string) :
  forall k,
    is_ok (channels_from k es ze fields)
    = forallb (fun field => is_ok (Py.int field)) fields /\
    forall e, channels_from k es ze fields = Raise e -> e = ValueError.
Proof.
  induction fields as [|field rest IH]; intros k; simpl.
  - split; [reflexivity | discriminate].
  - destruct (Py.int field) as [c|e0] eqn:Hint.
    + rewrite bind_Ok. destruct (IH (S k)) as [Hok Hraise].
      destruct (channels_from (S k) es ze rest) as [tl|e1].
      * rewrite bind_Ok. simpl in *. split; [exact Hok | discriminate].
      * rewrite bind_Raise. simpl in *. split; [exact Hok |].
        intros e [= <-]. apply Hraise. reflexivity.
    + rewrite bind_Raise. simpl. split; [reflexivity |].
      intros e [= <-]. apply (int_raises_ValueError field e0 Hint).
Qed.

(** X13: the series is read exactly when every comma-separated field of the
    [Channels] text is an integer; a field that is not one (an empty field
    after a trailing comma, a decimal) ends the reading in ValueError, and
    an element without text in AttributeError. *)
Theorem read_channels_outcome (es ze : spec_float) (txt : string) :
  is_ok (read_channels es ze (Some txt))
  = forallb (fun field => is_ok (Py.int field)) (Py.split "," txt) /\
  match read_channels es ze (Some txt) with
  | Ok sp => length sp = length (Py.split "," txt)
  | Raise e => e = ValueError
  end /\
  read_channels es ze None = Raise AttributeError.
Proof.
  destruct (channels_from_outcome es ze (Py.split "," txt) 0) as [Hok Hraise].
  unfold read_channels.
  destruct (channels_from 0 es ze (Py.split "," txt)) as [sp|e] eqn:Hsp.
  - rewrite bind_Ok. split; [exact Hok |]. split; [| reflexivity].
    destruct (channels_from_spec 0 es ze _ sp Hsp) as [Hfst _].
    destruct (np_array_spec sp) as [Hnp _].
    rewrite <- (length_map fst), Hnp, Hfst, length_map, length_seq. reflexivity.
  - rewrite bind_Raise. split; [exact Hok |]. split; [| reflexivity].
    apply Hraise. reflexivity.
Qed.

(** ** The order of the heatmap points *)

(** X17: for a sheet in the documented layout and an element offered for it,
    the lists of the figure follow the sheet: the points of the rows
    [front ++ back] are those of [front] followed by those of [back], so
    the points come in the order of the rows and a row that occurs twice
    gives its point twice. *)
Theorem heatmap_points_follow_rows (fs : gmap string File)
    (folder element : string) (header : Row) (front back : list SheetRow)
    (elms : list Cell) (idx : nat) :
  fs !! summary_path (Some folder)
  = Some (XlsxFile (header :: map sheet_row (front ++ back))) ->
  elements_of_table (header :: map sheet_row (front ++ back)) true
  = Ok (OptionsAndData elms (header :: map sheet_row (front ++ back))) ->
  existsb (cell_eq_str element) elms = true ->
  header !! 0 = Some (CStr "Spectrum") ->
  header !! idx = Some (CStr element) ->
  forallb (fun c => negb (cell_eq_str element c)) (take idx header) = true ->
  forallb (sheet_row_ok idx) (front ++ back) = true ->
  outcome (generate_heatmap fs (Some folder) (Some element))
  = Ok (figure_of_points element
          (flat_map (sheet_point idx) front ++ flat_map (sheet_point idx) back)).
Proof.
  intros Hfile Helms Hin H0 Hidx Hfirst Hrows.
  rewrite (generate_heatmap_sheet fs folder element header (front ++ back) elms
             idx Hfile Helms Hin H0 Hidx Hfirst Hrows).
  rewrite flat_map_app. reflexivity.
Qed.

Lemma heatmap_points_follow_rows_witness :
  outcome (generate_heatmap mixed_fs (Some "Sample_A") (Some "Fe"))
  = Ok (figure_of_points "Fe"
          (flat_map (sheet_point 1) (take 2 mixed_rows)
           ++ flat_map (sheet_point 1) (drop 2 mixed_rows))).
Proof.
  apply (heatmap_points_follow_rows mixed_fs "Sample_A" "Fe"
           [CStr "Spectrum"; CStr "Fe"; CStr "Co"; CStr "O"; CStr "Ni";
            CStr "Cu"; CStr "Zn"]
           (take 2 mixed_rows) (drop 2 mixed_rows) [CStr "Fe"; CStr "Ni"] 1);
    reflexivity.
Defined.

(** ** Failures that do not escape the summary readers *)

Lemma bind_never {A B : Type} (bad : exn) (r : Result A) (k : A -> Result B) :
  r <> Raise bad -> (forall a, k a <> Raise bad) -> (r ≫= k) <> Raise bad.
Proof.
  intros Hr Hk. destruct r as [a|e]; [rewrite bind_Ok; apply Hk |].
  rewrite bind_Raise. intros [= ->]. apply Hr. reflexivity.
Qed.

Lemma float_never_missing (s : string) : Py.float s <> Raise FileNotFoundError.
Proof.
  unfold Py.float. destruct (Py.sign _) as [sg body]. cbv zeta.
  destruct (_ || _); [discriminate |].
  destruct (String.eqb _ "nan"); [discriminate |].
  destruct (Py.decimal body); discriminate.
Qed.

Lemma cell_float_never_missing (c : Cell) :
  cell_float c <> Raise FileNotFoundError.
Proof.
  destruct c as [|s|n|f]; simpl;
    [discriminate | apply float_never_missing | | discriminate].
  unfold Py.float_of_int. destruct (F64.is_inf _); discriminate.
Qed.

Lemma index_never_missing {A : Type} (l : list A) (i : nat) :
  Py.index l i <> Raise FileNotFoundError.
Proof. unfold Py.index. destruct (l !! i); discriminate. Qed.

Lemma neg_index_never_missing {A : Type} (l : list A) (k : nat) :
  Py.neg_index l k <> Raise FileNotFoundError.
Proof.
  unfold Py.neg_index. destruct (Nat.ltb _ _); [discriminate |].
  destruct (l !! _); discriminate.
Qed.

Lemma int_never_missing (s : string) : Py.int s <> Raise FileNotFoundError.
Proof.
  intros H. apply int_raises_ValueError in H. discriminate.
Qed.

Lemma scan_totals_never_missing (totals : Row) :
  forall k, scan_totals k totals <> Raise FileNotFoundError.
Proof.
  induction totals as [|elm rest IH]; intros k; simpl; [discriminate |].
  apply bind_never.
  - destruct (Nat.ltb 0 k && negb (is_none elm)); [| discriminate].
    apply bind_never; [apply cell_float_never_missing | discriminate].
  - intros keep. apply bind_never; [apply IH | discriminate].
Qed.

Lemma pick_header_never_missing (LIST_DATA : list Row) (index_tab : list nat) :
  pick_header LIST_DATA index_tab <> Raise FileNotFoundError.
Proof.
  induction index_tab as [|i rest IH]; cbn [pick_header]; [discriminate |].
  apply bind_never; [apply index_never_missing |]. intros header.
  apply bind_never; [apply index_never_missing |]. intros c.
  apply bind_never; [exact IH | discriminate].
Qed.

Lemma elements_of_table_never_missing (LIST_DATA : list Row) (with_plot : bool) :
  elements_of_table LIST_DATA with_plot <> Raise FileNotFoundError.
Proof.
  unfold elements_of_table.
  apply bind_never; [apply neg_index_never_missing |]. intros totals.
  apply bind_never; [apply scan_totals_never_missing |]. intros index_tab.
  apply bind_never; [apply pick_header_never_missing |]. intros elm_options.
  destruct with_plot; discriminate.
Qed.

Lemma row_index_never_missing (element_edx : string) (row : Row) :
  row_index element_edx row <> Raise FileNotFoundError.
Proof.
  induction row as [|c rest IH]; simpl; [discriminate |].
  destruct (cell_eq_str element_edx c); [discriminate |].
  apply bind_never; [exact IH | discriminate].
Qed.

Lemma scan_indices_never_missing (name : string) :
  scan_indices name <> Raise FileNotFoundError.
Proof.
  unfold scan_indices.
  apply bind_never; [apply neg_index_never_missing |]. intros inner.
  apply bind_never; [apply index_never_missing |]. intros inside.
  destruct (Py.split "," inside) as [|x [|y [|z rest]]]; try discriminate.
  apply bind_never; [apply int_never_missing |]. intros i.
  apply bind_never; [apply int_never_missing | discriminate].
Qed.

Lemma heatmap_step_never_missing (element_edx : string) (st : Points)
    (row : Row) :
  heatmap_step element_edx st row <> Raise FileNotFoundError.
Proof.
  unfold heatmap_step.
  apply bind_never; [apply index_never_missing |]. intros c0.
  destruct (cell_eq_str "Spectrum" c0).
  { apply bind_never; [apply row_index_never_missing | discriminate]. }
  apply bind_never; [destruct c0; discriminate |]. intros named.
  destruct named; [| discriminate].
  apply bind_never; [apply scan_indices_never_missing |]. intros [i j].
  destruct (Np.le_int _ _); [| discriminate].
  destruct (index st) as [k|]; [| discriminate].
  apply bind_never; [apply index_never_missing |]. intros c.
  apply bind_never; [apply cell_float_never_missing | discriminate].
Qed.

Lemma heatmap_walk_never_missing (element_edx : string) (rows : list Row) :
  forall st, heatmap_walk element_edx rows st <> Raise FileNotFoundError.
Proof.
  induction rows as [|row rest IH]; intros st; simpl; [discriminate |].
  apply bind_never; [apply heatmap_step_never_missing | exact IH].
Qed.

(** X18: a missing file never escapes the summary readers: whatever the files
    are, neither [get_elements] nor [generate_heatmap] ends in
    FileNotFoundError. *)
Theorem summary_readers_never_report_missing_file (fs : gmap string File)
    (foldername element_edx : option string) (with_plot : bool) :
  outcome (get_elements fs foldername with_plot) <> Raise FileNotFoundError /\
  outcome (generate_heatmap fs foldername element_edx)
  <> Raise FileNotFoundError.
Proof.
  assert (Hget : forall f wp,
             outcome (get_elements fs f wp) <> Raise FileNotFoundError).
  { intros f wp. unfold get_elements, load_workbook. simpl.
    destruct (fs !! summary_path f) as [[root|values|]|]; simpl;
      try discriminate.
    apply elements_of_table_never_missing. }
  split; [apply Hget |].
  unfold generate_heatmap.
  destruct foldername as [folder|]; [| discriminate].
  destruct element_edx as [element|]; [| discriminate].
  specialize (Hget (Some folder) true).
  destruct (get_elements fs (Some folder) true) as [log [r|e]]; simpl in Hget.
  - destruct r as [l|elms LIST_DATA]; [discriminate |]. cbn.
    destruct (existsb (cell_eq_str element) elms); cbn; [| discriminate].
    pose proof (heatmap_walk_never_missing element LIST_DATA
                  (MkPoints None [] [] [])) as Hwalk.
    destruct (heatmap_walk element LIST_DATA _); cbn; [discriminate |].
    intros [= ->]. apply Hwalk. reflexivity.
  - cbn. intros [= ->]. apply Hget. reflexivity.
Qed.
(** ** An atomic number left over from an earlier declaration *)

(** X11: the atomic number is not reset between declarations: a declaration
    without an [Element] tag in its subtree, met after an earlier one has
    given a number, is entered under that earlier number. *)
Theorem element_without_number_reuses_last (child : Element)
    (rest : list Element) (st : Locals) (t : option string) (n : Z) :
  nb_elm st = Some t ->
  Py.int_opt t = Ok n ->
  is_pse child = true ->
  no_element_tag (iter child) = true ->
  elements_walk (child :: rest) st
  = elements_walk rest
      (MkLocals (voltage st) (working_distance st) (energy_step st)
         (zero_energy st) (edx_spectra st) (results_ext st)
         (element_list st ++ [(n, get child "Name")])
         (Some (get child "Name")) (Some t)).
Proof.
  intros Hnb Hint Hchild Hno. simpl. unfold is_pse in Hchild. rewrite Hchild.
  rewrite (last_element_text_none (iter child) Hno), Hnb, Hint. reflexivity.
Qed.

Lemma element_without_number_reuses_last_witness :
  elements_walk
    [Elem "ClassInstance" {["Type" := "TRTPSEElement"; "Name" := "Co"]} None []]
    (MkLocals 0%Z None (S754_zero false) (S754_zero false) None []
       [(26%Z, Some "Fe")] (Some (Some "Fe"))
       (Some (Some "26")))
  = elements_walk []
      (MkLocals 0%Z None (S754_zero false) (S754_zero false) None []
         ([(26%Z, Some "Fe")] ++ [(26%Z, Some "Co")])
         (Some (Some "Co")) (Some (Some "26"))).
Proof.
  exact (element_without_number_reuses_last
           (Elem "ClassInstance" {["Type" := "TRTPSEElement"; "Name" := "Co"]}
              None [])
           []
           (MkLocals 0%Z None (S754_zero false) (S754_zero false) None []
       [(26%Z, Some "Fe")] (Some (Some "Fe"))
              (Some (Some "26")))
           (Some "26") 26%Z eq_refl eq_refl eq_refl eq_refl).
Defined.
